(** * Task and Contact Management Suite: persistence and repository core

    A shallow embedding of the three programs of the repository

    - [CLI Task Manager/task_planner.py]  (flat CSV file),
    - [CLI ToDo List/todo_app.py]         (SQLite table),
    - [Contact Manager/contacts.py]       (JSON document),

    together with the properties of their storage, repository, search and
    backup-retention code.

    Conventions.  Python [str] values are [string]s (characters are the
    256 code points of [ascii]); a position that can also hold [None] is an
    [option string].  A Python [dict] is an association list in insertion
    order.  The two values a program obtains from its environment,
    [datetime.now()] and [uuid.uuid4()], are explicit arguments of the
    operation that reads them.  An operation that can raise returns an
    [outcome]; an operation that also changes the file system or the
    in-memory cache returns the new state next to the outcome, because in
    Python the changes made before the exception stay in place. *)

From Stdlib Require Import String Ascii DecimalString.
From stdpp Require Import gmap strings list sorting.

(** ** Python preliminaries *)

Inductive outcome (E A : Type) : Type :=
| Returned (a : A)
| Raised (e : E).
Arguments Returned {E A} a.
Arguments Raised {E A} e.

Definition is_returned {E A} (o : outcome E A) : bool :=
  match o with Returned _ => true | Raised _ => false end.

Module Py.

(** [d.get(key, default)] on a dict in insertion order. *)
Fixpoint dict_get {V} (d : list (string * V)) (key : string) (default : V) : V :=
  match d with
  | [] => default
  | (k, v) :: d' => if String.eqb k key then v else dict_get d' key default
  end.

(** [key in d]. *)
Fixpoint dict_has {V} (d : list (string * V)) (key : string) : bool :=
  match d with
  | [] => false
  | (k, _) :: d' => String.eqb k key || dict_has d' key
  end.

(** [d[key] = v]: an existing key keeps its position. *)
Fixpoint dict_set {V} (d : list (string * V)) (key : string) (v : V) : list (string * V) :=
  match d with
  | [] => [(key, v)]
  | (k, w) :: d' =>
      if String.eqb k key then (k, v) :: d' else (k, w) :: dict_set d' key v
  end.

(** [dict(zip(keys, values))]: the pairs are inserted from left to right,
    so a repeated key ends up with its last value. *)
Fixpoint dict_zip {V} (acc : list (string * V)) (keys : list string) (values : list V)
  : list (string * V) :=
  match keys, values with
  | k :: keys', v :: values' => dict_zip (dict_set acc k v) keys' values'
  | _, _ => acc
  end.

(** Truthiness of a value that is a [str] or [None]. *)
Definition truthy (v : option string) : bool :=
  match v with
  | Some (String _ _) => true
  | _ => false
  end.

(** [str.lower()] on the code points below 256: the letters A to Z,
    and the accented capitals U+00C0 to U+00DE without the sign U+00D7. *)
Definition lower_char (c : ascii) : ascii :=
  let n := nat_of_ascii c in
  if (65 <=? n)%nat && (n <=? 90)%nat then ascii_of_nat (n + 32)
  else if (192 <=? n)%nat && (n <=? 222)%nat && negb (n =? 215)%nat
       then ascii_of_nat (n + 32)
  else c.

Fixpoint lower (s : string) : string :=
  match s with
  | EmptyString => EmptyString
  | String c s' => String (lower_char c) (lower s')
  end.

(** A value read through [getattr]: [None], a [str], or some other
    object (a bound method, a class, a dict). *)
Inductive value : Type :=
| VNone
| VStr (s : string)
| VObject.

Definition of_str (v : option string) : value :=
  match v with Some s => VStr s | None => VNone end.

Global Instance value_eq_dec : EqDecision value.
Proof. solve_decision. Defined.

(** [str.isspace()] of one character below 256. *)
Definition isspace (c : ascii) : bool :=
  let n := nat_of_ascii c in
  ((9 <=? n)%nat && (n <=? 13)%nat) || ((28 <=? n)%nat && (n <=? 32)%nat)
  || (n =? 133)%nat || (n =? 160)%nat.

Definition isdigit (c : ascii) : bool :=
  let n := nat_of_ascii c in (48 <=? n)%nat && (n <=? 57)%nat.

Fixpoint string_exists (p : ascii → bool) (s : string) : bool :=
  match s with
  | EmptyString => false
  | String c s' => p c || string_exists p s'
  end.

Fixpoint string_forall (p : ascii → bool) (s : string) : bool :=
  match s with
  | EmptyString => true
  | String c s' => p c && string_forall p s'
  end.

(** [sub in s] for two strings. *)
Fixpoint contains (sub s : string) : bool :=
  String.prefix sub s ||
  match s with
  | EmptyString => false
  | String _ s' => contains sub s'
  end.

(** [s.strip()]: the white space at both ends is removed. *)
Fixpoint lstrip (s : string) : string :=
  match s with
  | EmptyString => EmptyString
  | String c s' => if isspace c then lstrip s' else s
  end.

Definition rstrip (s : string) : string := String.rev (lstrip (String.rev s)).

Definition strip (s : string) : string := rstrip (lstrip s).

End Py.

(** ** The file system

    A path, as the program writes it, is bound to a regular file with its
    text, or to a directory.  A path without [/] names an entry of the
    working directory; the directories on the way to any other path are
    taken to exist.  Writing to a path bound to a directory is the one
    way an [open] for writing fails here, which is enough to exercise the
    failure paths of the programs. *)

Module FS.

Inductive node : Type :=
| File (content : string)
| Dir.

Abbreviation filesystem := (gmap string node).

Inductive os_error : Type :=
| FileNotFoundError
| IsADirectoryError
| NotAFileError
| ValueError.

Abbreviation os_result := (outcome os_error filesystem).

Definition exists_ (path : string) (fs : filesystem) : bool :=
  match fs !! path with Some _ => true | None => false end.

(** [open(path, "w")]: creates the file or truncates it. *)
Definition open_w (path : string) (fs : filesystem) : os_result :=
  match fs !! path with
  | Some Dir => Raised IsADirectoryError
  | _ => Returned (<[path := File EmptyString]> fs)
  end.

(** [file.write(text)] on a file opened for writing. *)
Definition write (path text : string) (fs : filesystem) : os_result :=
  match fs !! path with
  | Some (File c) => Returned (<[path := File (c +:+ text)]> fs)
  | Some Dir => Raised IsADirectoryError
  | None => Raised FileNotFoundError
  end.

(** [os.replace(src, dst)]: one atomic step of the file system. *)
Definition replace (src dst : string) (fs : filesystem) : os_result :=
  match fs !! src with
  | Some (File c) =>
      match fs !! dst with
      | Some Dir => Raised IsADirectoryError
      | _ => Returned (<[dst := File c]> (delete src fs))
      end
  | Some Dir => Raised NotAFileError
  | None => Raised FileNotFoundError
  end.

(** [os.rename(src, dst)]: called by the programs only when [dst] does
    not exist, where it behaves as [os.replace]. *)
Definition rename (src dst : string) (fs : filesystem) : os_result :=
  replace src dst fs.

(** [os.remove(path)]. *)
Definition remove (path : string) (fs : filesystem) : os_result :=
  match fs !! path with
  | Some (File _) => Returned (delete path fs)
  | Some Dir => Raised IsADirectoryError
  | None => Raised FileNotFoundError
  end.

(** Reading a whole file opened with [open(path, "r")]. *)
Definition read (path : string) (fs : filesystem) : outcome os_error string :=
  match fs !! path with
  | Some (File c) => Returned c
  | Some Dir => Raised IsADirectoryError
  | None => Raised FileNotFoundError
  end.

(** A path with the separator [/] in it leads below the working
    directory or out of it. *)
Definition has_sep (path : string) : bool := Py.string_exists (Ascii.eqb "/") path.

(** An entry of the working directory: a name without a separator that
    is not one of the two names [.] and [..] of the directories
    themselves. *)
Definition is_entry (name : string) : bool :=
  negb (has_sep name) && negb (bool_decide (name ∈ [EmptyString; "."; ".."])).

(** [os.listdir()]: the names of the entries of the working directory,
    without any path in front. *)
Definition listdir (fs : filesystem) : list string :=
  filter (λ name, is_entry name = true) (map_to_list fs).*1.

(** A sequence of file-system calls.  [run] performs them in order and
    stops at the first one that raises, leaving the file system as it
    was at that point. *)
Abbreviation script := (list (filesystem → os_result)).

Fixpoint run (steps : script) (fs : filesystem) : filesystem * option os_error :=
  match steps with
  | [] => (fs, None)
  | step :: steps' =>
      match step fs with
      | Returned fs' => run steps' fs'
      | Raised e => (fs, Some e)
      end
  end.

(** The process is killed after [k] calls: what is on disk then. *)
Definition interrupted (k : nat) (steps : script) (fs : filesystem) : filesystem :=
  (run (take k steps) fs).1.

End FS.

(** ** The [csv] module, excel dialect

    [csv.writer] and [csv.reader] with the default dialect that
    [csv.DictWriter] and [csv.DictReader] use: delimiter [,], the double
    quote as quote character, doubled quotes, line terminator CR LF, minimal quoting,
    no escape character, not strict. *)

Module Csv.

Definition delimiter : ascii := ","%char.
Definition quotechar : ascii := "034"%char.
Definition CR : ascii := "013"%char.
Definition LF : ascii := "010"%char.
Definition lineterminator : string := String CR (String LF EmptyString).

(** [csv.field_size_limit()]: the reader refuses a longer field. *)
Definition field_size_limit : N := 131072%N.

(** *** Writer *)

(** A character that forces the field to be quoted. *)
Definition special (c : ascii) : bool :=
  Ascii.eqb c delimiter || Ascii.eqb c quotechar || Ascii.eqb c CR || Ascii.eqb c LF.

Fixpoint double_quotes (s : string) : string :=
  match s with
  | EmptyString => EmptyString
  | String c s' =>
      if Ascii.eqb c quotechar
      then String quotechar (String quotechar (double_quotes s'))
      else String c (double_quotes s')
  end.

Definition quoted (s : string) : string :=
  String quotechar (double_quotes s +:+ String quotechar EmptyString).

(** One field as [join_append] emits it. *)
Definition field_text (s : string) : string :=
  if Py.string_exists special s then quoted s else s.

Fixpoint join (fields : list string) : string :=
  match fields with
  | [] => EmptyString
  | [f] => field_text f
  | f :: fs => field_text f +:+ String delimiter (join fs)
  end.

(** [writer.writerow(fields)]: the text handed to [file.write].  A
    record made of one empty field is written as a pair of quotes. *)
Definition writerow (fields : list string) : string :=
  let body := join fields in
  match fields, body with
  | _ :: _, EmptyString => quoted EmptyString +:+ lineterminator
  | _, _ => body +:+ lineterminator
  end.

(** *** Reader *)

(** Iterating over a text file opened with [newline] empty: a line ends
    after LF, after CR LF, or after a CR that no LF follows, and keeps
    its terminator. *)
Fixpoint splitlines (cur : string) (s : string) : list string :=
  match s with
  | EmptyString =>
      match cur with EmptyString => [] | _ => [String.rev cur] end
  | String c s' =>
      if Ascii.eqb c LF then String.rev (String c cur) :: splitlines EmptyString s'
      else if Ascii.eqb c CR then
        match s' with
        | String c' s'' =>
            if Ascii.eqb c' LF then splitlines (String c cur) s'
            else String.rev (String c cur) :: splitlines EmptyString s'
        | EmptyString => String.rev (String c cur) :: splitlines EmptyString s'
        end
      else splitlines (String c cur) s'
  end.

Definition lines (text : string) : list string := splitlines EmptyString text.

Inductive pstate : Type :=
| START_RECORD
| START_FIELD
| IN_FIELD
| IN_QUOTED_FIELD
| QUOTE_IN_QUOTED_FIELD
| EAT_CRNL.

(** The reader object: its state, the field being read (last character
    first) and the fields of the record read so far (last field first). *)
Record parser : Type := Parser {
  state : pstate;
  field : string;
  fields : list string
}.

Definition parse_reset : parser := Parser START_RECORD EmptyString [].

Definition parse_save_field (p : parser) : parser :=
  Parser (state p) EmptyString (String.rev (field p) :: fields p).

Definition parse_add_char (p : parser) (c : ascii) : option parser :=
  if (N.of_nat (String.length (field p)) <? field_size_limit)%N
  then Some (Parser (state p) (String c (field p)) (fields p))
  else None.

Definition set_state (s : pstate) (p : parser) : parser :=
  Parser s (field p) (fields p).

Definition is_newline (c : ascii) : bool := Ascii.eqb c LF || Ascii.eqb c CR.

(** [parse_process_char]; the argument [None] is the end-of-line mark
    the reader feeds after the last character of every line, and the
    result [None] is [csv.Error]. *)
Definition parse_process_char (p : parser) (c : option ascii) : option parser :=
  match state p with
  | START_RECORD | START_FIELD =>
      match state p, c with
      | START_RECORD, None => Some p
      | START_RECORD, Some ch =>
          if is_newline ch then Some (set_state EAT_CRNL p)
          else if Ascii.eqb ch quotechar then Some (set_state IN_QUOTED_FIELD p)
          else if Ascii.eqb ch delimiter
               then Some (parse_save_field (set_state START_FIELD p))
          else set_state IN_FIELD <$> parse_add_char p ch
      | _, None => Some (set_state START_RECORD (parse_save_field p))
      | _, Some ch =>
          if is_newline ch then Some (set_state EAT_CRNL (parse_save_field p))
          else if Ascii.eqb ch quotechar then Some (set_state IN_QUOTED_FIELD p)
          else if Ascii.eqb ch delimiter then Some (parse_save_field p)
          else set_state IN_FIELD <$> parse_add_char p ch
      end
  | IN_FIELD =>
      match c with
      | None => Some (set_state START_RECORD (parse_save_field p))
      | Some ch =>
          if is_newline ch then Some (set_state EAT_CRNL (parse_save_field p))
          else if Ascii.eqb ch delimiter
               then Some (set_state START_FIELD (parse_save_field p))
          else parse_add_char p ch
      end
  | IN_QUOTED_FIELD =>
      match c with
      | None => Some p
      | Some ch =>
          if Ascii.eqb ch quotechar then Some (set_state QUOTE_IN_QUOTED_FIELD p)
          else parse_add_char p ch
      end
  | QUOTE_IN_QUOTED_FIELD =>
      match c with
      | None => Some (set_state START_RECORD (parse_save_field p))
      | Some ch =>
          if Ascii.eqb ch quotechar
          then set_state IN_QUOTED_FIELD <$> parse_add_char p ch
          else if Ascii.eqb ch delimiter
               then Some (set_state START_FIELD (parse_save_field p))
          else if is_newline ch then Some (set_state EAT_CRNL (parse_save_field p))
          else set_state IN_FIELD <$> parse_add_char p ch
      end
  | EAT_CRNL =>
      match c with
      | None => Some (set_state START_RECORD p)
      | Some ch => if is_newline ch then Some p else None
      end
  end.

(** The characters of one line, then the end-of-line mark. *)
Fixpoint feed (p : parser) (line : string) : option parser :=
  match line with
  | EmptyString => parse_process_char p None
  | String c line' =>
      match parse_process_char p (Some c) with
      | Some p' => feed p' line'
      | None => None
      end
  end.

(** All the records of the reader: [Reader_iternext] called until the
    lines are exhausted.  A record is complete when the state is back
    at [START_RECORD] after a line; at the end of the input a pending
    field, or an open quoted field, is kept as the last record. *)
Fixpoint records (p : parser) (ls : list string) : option (list (list string)) :=
  match ls with
  | [] =>
      match field p, state p with
      | EmptyString, IN_QUOTED_FIELD | String _ _, _ =>
          Some [reverse (fields (parse_save_field p))]
      | _, _ => Some []
      end
  | l :: ls' =>
      match feed p l with
      | None => None
      | Some p' =>
          match state p' with
          | START_RECORD => cons (reverse (fields p')) <$> records parse_reset ls'
          | _ => records p' ls'
          end
      end
  end.

(** [list(csv.reader(file))]. *)
Definition reader (text : string) : option (list (list string)) :=
  records parse_reset (lines text).

(** *** DictWriter and DictReader *)

(** [DictWriter._dict_to_list] with [extrasaction="raise"]: the values in
    the order of [fieldnames]; [None] when the dict has a key that is
    not a field name ([ValueError]).  A missing key is written as the
    empty string ([restval]), and so is the value [None]. *)
Definition dict_to_list (fieldnames : list string) (rowdict : list (string * option string))
  : option (list string) :=
  if forallb (λ kv, bool_decide (kv.1 ∈ fieldnames)) rowdict
  then Some ((λ key, default EmptyString (Py.dict_get rowdict key (Some EmptyString)))
               <$> fieldnames)
  else None.

(** [DictWriter.writeheader]. *)
Definition writeheader (fieldnames : list string) : string := writerow fieldnames.

(** One row of a [DictReader]: [dict(zip(fieldnames, row))], and [None]
    ([restval]) under the field names a short row does not reach.  The
    extra values of a long row go under the key [None], which no string
    key can read, and are left out. *)
Definition row_dict (fieldnames row : list string) : list (string * option string) :=
  let d := Py.dict_zip [] fieldnames (Some <$> row) in
  foldl (λ d key, Py.dict_set d key None) d (drop (length row) fieldnames).

(** [list(csv.DictReader(file))]: the first record gives the field
    names, empty records are skipped. *)
Definition dict_reader (text : string) : option (list (list (string * option string))) :=
  match reader text with
  | None => None
  | Some [] => Some []
  | Some (fieldnames :: rows) =>
      Some (row_dict fieldnames <$> filter (λ row, row ≠ []) rows)
  end.

End Csv.

(** ** CLI Task Manager: [task_planner.py] *)

Module TaskPlanner.
Import FS.

Definition MAX_BACKUP_FILES : nat := 5.

Inductive TaskField : Type :=
| ID | TITLE | DESCRIPTION | PRIORITY | DUE_DATE | CATEGORY
| CREATED_AT | UPDATED_AT | STATUS.

Definition TaskField_value (f : TaskField) : string :=
  match f with
  | ID => "id" | TITLE => "title" | DESCRIPTION => "description"
  | PRIORITY => "priority" | DUE_DATE => "due_date" | CATEGORY => "category"
  | CREATED_AT => "created_at" | UPDATED_AT => "updated_at" | STATUS => "status"
  end.

Definition all_fields : list TaskField :=
  [ID; TITLE; DESCRIPTION; PRIORITY; DUE_DATE; CATEGORY; CREATED_AT; UPDATED_AT; STATUS].

Definition Priority_MEDIUM : string := "medium".
Definition TaskStatus_PENDING : string := "pending".

(** The dataclass [Task].  The annotations say [str]; nothing checks
    them, and [load_tasks] itself stores [None] for the columns a short
    row lacks, so every field is a [str] or [None]. *)
Record Task : Type := mkTask {
  id : option string;
  title : option string;
  description : option string;
  priority : option string;
  due_date : option string;
  category : option string;
  created_at : option string;
  updated_at : option string;
  status : option string
}.

Global Instance Task_eq_dec : EqDecision Task.
Proof. solve_decision. Defined.

Definition getfield (t : Task) (f : TaskField) : option string :=
  match f with
  | ID => id t | TITLE => title t | DESCRIPTION => description t
  | PRIORITY => priority t | DUE_DATE => due_date t | CATEGORY => category t
  | CREATED_AT => created_at t | UPDATED_AT => updated_at t | STATUS => status t
  end.

Definition setfield (t : Task) (f : TaskField) (v : option string) : Task :=
  match f with
  | ID => mkTask v (title t) (description t) (priority t) (due_date t) (category t)
            (created_at t) (updated_at t) (status t)
  | TITLE => mkTask (id t) v (description t) (priority t) (due_date t) (category t)
            (created_at t) (updated_at t) (status t)
  | DESCRIPTION => mkTask (id t) (title t) v (priority t) (due_date t) (category t)
            (created_at t) (updated_at t) (status t)
  | PRIORITY => mkTask (id t) (title t) (description t) v (due_date t) (category t)
            (created_at t) (updated_at t) (status t)
  | DUE_DATE => mkTask (id t) (title t) (description t) (priority t) v (category t)
            (created_at t) (updated_at t) (status t)
  | CATEGORY => mkTask (id t) (title t) (description t) (priority t) (due_date t) v
            (created_at t) (updated_at t) (status t)
  | CREATED_AT => mkTask (id t) (title t) (description t) (priority t) (due_date t)
            (category t) v (updated_at t) (status t)
  | UPDATED_AT => mkTask (id t) (title t) (description t) (priority t) (due_date t)
            (category t) (created_at t) v (status t)
  | STATUS => mkTask (id t) (title t) (description t) (priority t) (due_date t)
            (category t) (created_at t) (updated_at t) v
  end.

Definition field_of_name (name : string) : option TaskField :=
  find (λ f, String.eqb (TaskField_value f) name) all_fields.

(** [Task.to_dict], that is [asdict(self)]: the fields in the order of
    the dataclass. *)
Definition to_dict (t : Task) : list (string * option string) :=
  [("id", id t); ("title", title t); ("description", description t);
   ("priority", priority t); ("due_date", due_date t); ("category", category t);
   ("created_at", created_at t); ("updated_at", updated_at t); ("status", status t)].

Inductive exn : Type :=
| TaskPlannerError.

(** *** The storage interface [TaskStorage]

    [W] is what the storage keeps its data in.  [backup_tasks] reads the
    clock; the formatted time is its first argument. *)
Class TaskStorage (W : Type) : Type := {
  save_tasks : list Task → W → W * outcome exn ();
  load_tasks : W → outcome exn (list Task);
  backup_tasks : string → list Task → W → W * outcome exn ()
}.

(** *** [CSVTaskStorage] *)

Section CSVTaskStorage.
Variable file_path : string.

Definition fieldnames : list string := TaskField_value <$> all_fields.

Definition temp_file : string := file_path +:+ ".tmp".

Definition write_header (path : string) : filesystem → os_result :=
  write path (Csv.writeheader fieldnames).

Definition write_task (path : string) (task : Task) : filesystem → os_result :=
  λ fs, match Csv.dict_to_list fieldnames (to_dict task) with
        | Some row => write path (Csv.writerow row) fs
        | None => Raised ValueError
        end.

(** The last statement of [save_tasks]: [os.replace] or [os.rename]. *)
Definition install : filesystem → os_result :=
  λ fs, if exists_ file_path fs
        then replace temp_file file_path fs
        else rename temp_file file_path fs.

(** The file-system calls of [save_tasks], in order. *)
Definition save_tasks_script (tasks : list Task) : script :=
  [open_w temp_file; write_header temp_file]
    ++ (write_task temp_file <$> tasks)
    ++ [install].

Definition csv_save_tasks (tasks : list Task) (fs : filesystem)
  : filesystem * outcome exn () :=
  match run (save_tasks_script tasks) fs with
  | (fs', None) => (fs', Returned ())
  | (fs', Some _) => (fs', Raised TaskPlannerError)
  end.

(** The values of one task in the order of the columns, and the text of
    a file holding the header and the rows of [tasks]: what [save_tasks]
    hands to [file.write] when no call fails. *)
Definition task_row (task : Task) : list string :=
  (λ f, default EmptyString (getfield task f)) <$> all_fields.

Definition rows_text (tasks : list Task) : string :=
  foldr (λ task text, Csv.writerow (task_row task) +:+ text) EmptyString tasks.

Definition csv_text (tasks : list Task) : string :=
  Csv.writeheader fieldnames +:+ rows_text tasks.

Definition task_of_row (row : list (string * option string)) : Task :=
  {| id := Py.dict_get row "id" (Some EmptyString);
     title := Py.dict_get row "title" (Some EmptyString);
     description := Py.dict_get row "description" (Some EmptyString);
     priority := Py.dict_get row "priority" (Some EmptyString);
     due_date := Py.dict_get row "due_date" (Some EmptyString);
     category := Py.dict_get row "category" (Some EmptyString);
     created_at := Py.dict_get row "created_at" (Some EmptyString);
     updated_at := Py.dict_get row "updated_at" (Some EmptyString);
     status := Py.dict_get row "status" (Some TaskStatus_PENDING) |}.

Definition csv_load_tasks (fs : filesystem) : outcome exn (list Task) :=
  if negb (exists_ file_path fs) then Returned []
  else match read file_path fs with
       | Raised _ => Raised TaskPlannerError
       | Returned text =>
           match Csv.dict_reader text with
           | None => Raised TaskPlannerError
           | Some rows => Returned (task_of_row <$> rows)
           end
       end.

Definition backup_prefix : string := file_path +:+ ".backup_".

Definition is_backup (name : string) : bool := String.prefix backup_prefix name.

(** [files.sort(reverse=True)] on file names. *)
Definition sort_reverse (files : list string) : list string :=
  merge_sort (flip String.le) files.

(** [_cleanup_old_backups]: the removals stop at the first one that
    raises, and the exception is only logged. *)
Definition cleanup_old_backups (fs : filesystem) : filesystem :=
  let files := filter (λ f, is_backup f = true) (listdir fs) in
  if (MAX_BACKUP_FILES <? length files)%nat
  then (run (remove <$> drop MAX_BACKUP_FILES (sort_reverse files)) fs).1
  else fs.

Definition backup_file (timestamp : string) : string := backup_prefix +:+ timestamp.

Definition backup_script (timestamp : string) (tasks : list Task) : script :=
  [open_w (backup_file timestamp); write_header (backup_file timestamp)]
    ++ (write_task (backup_file timestamp) <$> tasks).

Definition csv_backup_tasks (timestamp : string) (tasks : list Task) (fs : filesystem)
  : filesystem * outcome exn () :=
  match run (backup_script timestamp tasks) fs with
  | (fs', None) => (cleanup_old_backups fs', Returned ())
  | (fs', Some _) => (fs', Raised TaskPlannerError)
  end.

Global Instance CSVTaskStorage : TaskStorage filesystem := {|
  save_tasks := csv_save_tasks;
  load_tasks := csv_load_tasks;
  backup_tasks := csv_backup_tasks
|}.
End CSVTaskStorage.

(** *** [TaskRepository] *)

Section TaskRepository.
Context {W : Type} {storage : TaskStorage W}.

(** What [getattr] finds on a [Task] under a name that is not one of
    the nine fields: the method [to_dict] and the names every object
    inherits.  [None] when there is no such attribute. *)
Variable other_attr : string → option Py.value.

(** The repository object: the cached list [self.tasks], and the
    data of [self.storage]. *)
Record repository : Type := Repository {
  tasks : list Task;
  world : W
}.

(** [TaskRepository.__init__]. *)
Definition init (w : W) : outcome exn repository :=
  match load_tasks w with
  | Returned ts => Returned (Repository ts w)
  | Raised e => Raised e
  end.

(** [TaskRepository.save_tasks]. *)
Definition repo_save_tasks (r : repository) : repository * outcome exn () :=
  let '(w', o) := save_tasks (tasks r) (world r) in (Repository (tasks r) w', o).

(** The [Task(...)] that [create_task] builds. *)
Definition new_task (task_id now : string) (task_data : list (string * option string)) : Task :=
  {| id := Some task_id;
     title := Py.dict_get task_data "title" (Some EmptyString);
     description := Py.dict_get task_data "description" (Some EmptyString);
     priority := Py.dict_get task_data "priority" (Some Priority_MEDIUM);
     due_date := Py.dict_get task_data "due_date" (Some EmptyString);
     category := Py.dict_get task_data "category" (Some EmptyString);
     created_at := Some now;
     updated_at := Some now;
     status := Py.dict_get task_data "status" (Some TaskStatus_PENDING) |}.

Definition create_task (task_id now : string) (task_data : list (string * option string))
  (r : repository) : repository * outcome exn Task :=
  let task := new_task task_id now task_data in
  match repo_save_tasks (Repository (tasks r ++ [task]) (world r)) with
  | (r', Returned _) => (r', Returned task)
  | (r', Raised e) => (r', Raised e)
  end.

Definition has_id (task_id : string) (task : Task) : bool :=
  bool_decide (id task = Some task_id).

Definition get_task (task_id : string) (r : repository) : option Task :=
  find (has_id task_id) (tasks r).

Definition get_all_tasks (r : repository) : list Task := tasks r.

Definition hasattr (name : string) : bool :=
  match field_of_name name with
  | Some _ => true
  | None => match other_attr name with Some _ => true | None => false end
  end.

Definition getattr (task : Task) (name : string) : option Py.value :=
  match field_of_name name with
  | Some f => Some (Py.of_str (getfield task f))
  | None => other_attr name
  end.

(** The loop over [update_data.items()] in [update_task].  Assigning
    to a name that is an attribute but not a field (rebinding
    [to_dict], or a name inherited from [object]) is not described
    here: the result is [None] then. *)
Fixpoint apply_update (update_data : list (string * option string)) (task : Task)
  : option Task :=
  match update_data with
  | [] => Some task
  | (name, value) :: rest =>
      match field_of_name name with
      | Some f => apply_update rest (setfield task f value)
      | None =>
          match other_attr name with
          | None => apply_update rest task
          | Some _ => None
          end
      end
  end.

(** The first task of the list with the given id, replaced in place. *)
Fixpoint replace_first (task_id : string) (task' : Task) (l : list Task) : list Task :=
  match l with
  | [] => []
  | t :: l' =>
      if has_id task_id t then task' :: l' else t :: replace_first task_id task' l'
  end.

(** [update_task]; the outer [None] is the case [apply_update] leaves
    out. *)
Definition update_task (task_id now : string) (update_data : list (string * option string))
  (r : repository) : option (repository * outcome exn (option Task)) :=
  match find (has_id task_id) (tasks r) with
  | None => Some (r, Returned None)
  | Some task =>
      match apply_update update_data task with
      | None => None
      | Some task1 =>
          let task2 := setfield task1 UPDATED_AT (Some now) in
          match repo_save_tasks
                  (Repository (replace_first task_id task2 (tasks r)) (world r)) with
          | (r', Returned _) => Some (r', Returned (Some task2))
          | (r', Raised e) => Some (r', Raised e)
          end
      end
  end.

Definition delete_task (task_id : string) (r : repository)
  : repository * outcome exn bool :=
  let initial_count := length (tasks r) in
  let r1 := Repository (filter (λ t, id t ≠ Some task_id) (tasks r)) (world r) in
  if (length (tasks r1) <? initial_count)%nat
  then match repo_save_tasks r1 with
       | (r', Returned _) => (r', Returned true)
       | (r', Raised e) => (r', Raised e)
       end
  else (r1, Returned false).

(** The inner loop of [search_tasks]: [true] when no supplied pair
    names an attribute whose value differs. *)
Fixpoint matches (kwargs : list (string * option string)) (task : Task) : bool :=
  match kwargs with
  | [] => true
  | (name, value) :: rest =>
      if hasattr name && negb (bool_decide (getattr task name = Some (Py.of_str value)))
      then false
      else matches rest task
  end.

Definition search_tasks (kwargs : list (string * option string)) (r : repository)
  : list Task :=
  filter (λ t, matches kwargs t = true) (tasks r).

Definition backup (timestamp : string) (r : repository) : repository * outcome exn () :=
  let '(w', o) := backup_tasks timestamp (tasks r) (world r) in
  (Repository (tasks r) w', o).

End TaskRepository.

End TaskPlanner.

(** ** SQLite, as far as [todo_app.py] uses it *)

Module Sql.

(** Case folding of [LIKE]: the 26 ASCII letters only. *)
Definition fold_char (c : ascii) : ascii :=
  let n := nat_of_ascii c in
  if (65 <=? n)%nat && (n <=? 90)%nat then ascii_of_nat (n + 32) else c.

(** The comparison that [LIKE] makes between two texts, without an
    escape character: [%] stands for any run of characters, [_] for one
    character, and any other character for itself up to ASCII case. *)
Fixpoint like_match (pattern text : string) : bool :=
  match pattern with
  | EmptyString => match text with EmptyString => true | _ => false end
  | String p pattern' =>
      if Ascii.eqb p "%" then
        (fix any (t : string) : bool :=
           like_match pattern' t ||
           match t with
           | EmptyString => false
           | String _ t' => any t'
           end) text
      else
        match text with
        | EmptyString => false
        | String c text' =>
            (Ascii.eqb p "_" || Ascii.eqb (fold_char p) (fold_char c))
            && like_match pattern' text'
        end
  end.

(** The comparison reads both texts as C strings: up to the first
    character NUL. *)
Fixpoint c_string (s : string) : string :=
  match s with
  | EmptyString => EmptyString
  | String c s' => if (nat_of_ascii c =? 0)%nat then EmptyString else String c (c_string s')
  end.

(** The number of bytes of a text in UTF-8: two for a code point from
    128 on. *)
Fixpoint utf8_length (s : string) : N :=
  match s with
  | EmptyString => 0
  | String c s' => ((if (nat_of_ascii c <? 128)%nat then 1 else 2) + utf8_length s')%N
  end.

Definition MAX_LIKE_PATTERN_LENGTH : N := 50000.

(** A pattern that [LIKE] refuses with the error "LIKE or GLOB pattern
    too complex". *)
Definition too_complex (pattern : string) : bool :=
  (MAX_LIKE_PATTERN_LENGTH <? utf8_length pattern)%N.

(** [text LIKE pattern] for a pattern that is bound to a [str], on a
    column that holds a [str] or [NULL].  [None] stands for the error;
    [NULL LIKE pattern] is not true. *)
Definition like (pattern : string) (text : option string) : option bool :=
  if too_complex pattern then None
  else match text with
       | Some text => Some (like_match (c_string pattern) (c_string text))
       | None => Some false
       end.

End Sql.

(** ** CLI ToDo List: [todo_app.py] *)

Module TodoApp.

Definition MAX_BACKUPS : nat := 5.

Definition TaskStatus_PENDING : string := "pending".
Definition TaskStatus_COMPLETED : string := "completed".
Definition Priority_LOW : string := "low".
Definition Priority_MEDIUM : string := "medium".
Definition Priority_HIGH : string := "high".

(** A row of the table [tasks], and the dataclass [Task] that
    [_row_to_task] builds from it field by field.  [None] is SQL NULL. *)
Record Task : Type := mkTask {
  id : option string;
  title : option string;
  description : option string;
  status : option string;
  priority : option string;
  due_date : option string;
  category : option string;
  created_at : option string;
  updated_at : option string
}.

Global Instance Task_eq_dec : EqDecision Task.
Proof. solve_decision. Defined.

(** [row.keys()]: the columns in the order of [CREATE TABLE]. *)
Definition columns : list string :=
  ["id"; "title"; "description"; "status"; "priority"; "due_date"; "category";
   "created_at"; "updated_at"].

Definition column (t : Task) (name : string) : option string :=
  if String.eqb name "id" then id t
  else if String.eqb name "title" then title t
  else if String.eqb name "description" then description t
  else if String.eqb name "status" then status t
  else if String.eqb name "priority" then priority t
  else if String.eqb name "due_date" then due_date t
  else if String.eqb name "category" then category t
  else if String.eqb name "created_at" then created_at t
  else if String.eqb name "updated_at" then updated_at t
  else None.

(** [SET name = v] on one row. *)
Definition set_column (t : Task) (name : string) (v : option string) : Task :=
  if String.eqb name "id" then
    mkTask v (title t) (description t) (status t) (priority t) (due_date t)
      (category t) (created_at t) (updated_at t)
  else if String.eqb name "title" then
    mkTask (id t) v (description t) (status t) (priority t) (due_date t)
      (category t) (created_at t) (updated_at t)
  else if String.eqb name "description" then
    mkTask (id t) (title t) v (status t) (priority t) (due_date t)
      (category t) (created_at t) (updated_at t)
  else if String.eqb name "status" then
    mkTask (id t) (title t) (description t) v (priority t) (due_date t)
      (category t) (created_at t) (updated_at t)
  else if String.eqb name "priority" then
    mkTask (id t) (title t) (description t) (status t) v (due_date t)
      (category t) (created_at t) (updated_at t)
  else if String.eqb name "due_date" then
    mkTask (id t) (title t) (description t) (status t) (priority t) v
      (category t) (created_at t) (updated_at t)
  else if String.eqb name "category" then
    mkTask (id t) (title t) (description t) (status t) (priority t) (due_date t)
      v (created_at t) (updated_at t)
  else if String.eqb name "created_at" then
    mkTask (id t) (title t) (description t) (status t) (priority t) (due_date t)
      (category t) v (updated_at t)
  else if String.eqb name "updated_at" then
    mkTask (id t) (title t) (description t) (status t) (priority t) (due_date t)
      (category t) (created_at t) v
  else t.

Inductive exn : Type :=
| DatabaseError.

(** The table [tasks]: its rows in insertion order. *)
Abbreviation table := (list Task).

(** The column constraints of [CREATE TABLE]: the [NOT NULL] columns and
    the two [CHECK]s.  A [CHECK] accepts NULL, [NOT NULL] does not. *)
Definition not_null (v : option string) : bool :=
  match v with Some _ => true | None => false end.

Definition row_ok (t : Task) : bool :=
  not_null (title t)
  && bool_decide (status t ∈ [Some TaskStatus_PENDING; Some TaskStatus_COMPLETED])
  && bool_decide (priority t ∈ [Some Priority_LOW; Some Priority_MEDIUM; Some Priority_HIGH])
  && not_null (created_at t)
  && not_null (updated_at t).

Definition has_id (task_id : string) (t : Task) : bool :=
  bool_decide (id t = Some task_id).

(** [INSERT INTO tasks ... VALUES ...]: refused when the row breaks a
    column constraint or its id is taken ([PRIMARY KEY]). *)
Definition insert (t : Task) (db : table) : outcome exn table :=
  if row_ok t && negb (bool_decide (not_null (id t) = true ∧ id t ∈ id <$> db))
  then Returned (db ++ [t])
  else Raised DatabaseError.

(** [ORDER BY created_at DESC]; the order among rows with the same
    [created_at] is the sort's. *)
Definition created_desc (a b : Task) : Prop :=
  String.le (default EmptyString (created_at b)) (default EmptyString (created_at a)).

Global Instance created_desc_dec : RelDecision created_desc.
Proof. intros a b. unfold created_desc. apply _. Defined.

Definition order_by_created_at_desc (rows : list Task) : list Task :=
  merge_sort created_desc rows.

(** *** [TaskRepository] *)

(** The [Task(...)] that [create_task] builds. *)
Definition new_task (task_id now : string) (task_data : list (string * option string)) : Task :=
  {| id := Some task_id;
     title := Py.dict_get task_data "title" None;
     description := Py.dict_get task_data "description" (Some EmptyString);
     status := Some TaskStatus_PENDING;
     priority := Py.dict_get task_data "priority" (Some Priority_MEDIUM);
     due_date := Py.dict_get task_data "due_date" None;
     category := Py.dict_get task_data "category" None;
     created_at := Some now;
     updated_at := Some now |}.

Definition create_task (task_id now : string) (task_data : list (string * option string))
  (db : table) : table * outcome exn Task :=
  let task := new_task task_id now task_data in
  match insert task db with
  | Returned db' => (db', Returned task)
  | Raised e => (db, Raised e)
  end.

(** [SELECT * FROM tasks WHERE id = ?] and [fetchone]. *)
Definition get_task (task_id : string) (db : table) : option Task :=
  find (has_id task_id) db.

Definition get_all_tasks (db : table) : list Task := order_by_created_at_desc db.

(** The pairs of [update_data] that become [SET] clauses. *)
Definition update_fields (update_data : list (string * option string))
  : list (string * option string) :=
  filter (λ fv, fv.1 ∈ columns ∧ fv.1 ∉ ["id"; "created_at"]) update_data.

(** [UPDATE tasks SET ... WHERE id = ?] on one row: the assignments from
    left to right, so that the rightmost one to a column wins. *)
Definition assign (sets : list (string * option string)) (t : Task) : Task :=
  foldl (λ t fv, set_column t fv.1 fv.2) t sets.

Definition update_task (task_id now : string) (update_data : list (string * option string))
  (db : table) : table * outcome exn (option Task) :=
  match find (has_id task_id) db with
  | None => (db, Returned None)
  | Some _ =>
      match update_fields update_data with
      | [] => (db, Returned None)
      | sets =>
          let sets' := sets ++ [("updated_at", Some now)] in
          let db' := (λ t, if has_id task_id t then assign sets' t else t) <$> db in
          if forallb row_ok (filter (λ t, has_id task_id t = true) db')
          then (db', Returned (find (has_id task_id) db'))
          else (db, Raised DatabaseError)
      end
  end.

Definition delete_task (task_id : string) (db : table) : table * outcome exn bool :=
  let db' := filter (λ t, id t ≠ Some task_id) db in
  (db', Returned (length db' <? length db)%nat).

(** One pair of [filters] as the condition it adds to the query, or
    [None] when the pair adds nothing.  The condition gives [None] on a
    row where SQLite reports an error. *)
Definition condition (name : string) (value : option string)
  : option (Task → option bool) :=
  match value with
  | Some (String c v) =>
      if bool_decide (name ∈ ["title"; "description"; "category"])
      then Some (λ t, Sql.like ("%" +:+ String c v +:+ "%") (column t name))
      else if bool_decide (name ∈ ["status"; "priority"])
      then Some (λ t, Some (bool_decide (column t name = Some (String c v))))
      else None
  | _ => None
  end.

(** The [WHERE] clause built by [search_tasks], on one row: [None] when
    one of its conditions gives an error on the row. *)
Fixpoint where_ (filters : list (string * option string)) (t : Task) : option bool :=
  match filters with
  | [] => Some true
  | (name, value) :: rest =>
      match condition name value with
      | Some cond =>
          match cond t, where_ rest t with
          | Some b, Some b' => Some (b && b')
          | _, _ => None
          end
      | None => where_ rest t
      end
  end.

(** [search_tasks].  When a condition gives an error on some row,
    whether the query fails depends on the order in which SQLite
    evaluates the conditions; that case is not described here: the
    result is [None]. *)
Definition search_tasks (filters : list (string * option string)) (db : table)
  : option (list Task) :=
  if forallb (λ t, bool_decide (is_Some (where_ filters t))) db
  then Some (order_by_created_at_desc (filter (λ t, where_ filters t = Some true) db))
  else None.

(** *** [DatabaseManager]: backups

    The paths next to the database file: a path is bound to a database
    image, or to something [sqlite3.connect] and [os.remove] both refuse
    (a directory). *)

(** [glob.has_magic]: one of the characters [*], [?] and [[] occurs. *)
Definition has_magic (s : string) : bool :=
  Py.string_exists (λ c, Ascii.eqb c "*" || Ascii.eqb c "?" || Ascii.eqb c "[") s.

(** What is left of [s] after the prefix [p]. *)
Fixpoint after_prefix (p s : string) : option string :=
  match p with
  | EmptyString => Some s
  | String a p' =>
      match s with
      | String b s' => if Ascii.eqb a b then after_prefix p' s' else None
      | EmptyString => None
      end
  end.

Section DatabaseManager.
Variable db_file : string.

Abbreviation directory := (gmap string (option table)).

Definition backup_prefix : string := db_file +:+ ".backup_".

Definition backup_file (timestamp : string) : string := backup_prefix +:+ timestamp.

(** The pattern [f"{self.db_file}.backup_*"] is the backup prefix
    followed by a star when [db_file] has no wildcard character of its
    own, and [glob] returns the paths as they are written here when
    [db_file] has no doubled separator. *)
Definition glob_literal : bool :=
  negb (has_magic db_file) && negb (Py.contains "//" db_file).

(** A path that the star matches: the backup prefix and, after it, a
    text without separator. *)
Definition is_backup (path : string) : bool :=
  match after_prefix backup_prefix path with
  | Some rest => negb (FS.has_sep rest)
  | None => false
  end.

(** [glob.glob(f"{self.db_file}.backup_*")].  With a wildcard character
    in [db_file] the pattern matches other paths and can miss the
    backups; that case, and the one of a doubled separator, are not
    described here: the result is [None]. *)
Definition glob_backups (dir : directory) : option (list string) :=
  if glob_literal
  then Some (filter (λ f, is_backup f = true) (map_to_list dir).*1)
  else None.

(** [os.remove] inside [try ... except OSError]: a failure is logged
    and the loop goes on. *)
Definition try_remove (dir : directory) (name : string) : directory :=
  match dir !! name with
  | Some (Some _) => delete name dir
  | _ => dir
  end.

Definition cleanup_old_backups (dir : directory) : option directory :=
  match glob_backups dir with
  | Some paths =>
      let backups := merge_sort (flip String.le) paths in
      Some (foldl try_remove dir (drop MAX_BACKUPS backups))
  | None => None
  end.

(** [backup_database]; [None] where [glob_backups] is not described. *)
Definition backup_database (timestamp : string) (db : table) (dir : directory)
  : option (directory * outcome exn ()) :=
  match dir !! backup_file timestamp with
  | Some None => Some (dir, Raised DatabaseError)
  | _ =>
      match cleanup_old_backups (<[backup_file timestamp := Some db]> dir) with
      | Some dir' => Some (dir', Returned ())
      | None => None
      end
  end.
End DatabaseManager.

End TodoApp.

(** ** The [json] module

    [json.dump(obj, f, indent=2)] and [json.load(f)] on the values made of
    [None], booleans, strings, lists and dicts with string keys.  Numbers
    are left out: the decoder answers [Unsupported] when it meets one. *)

Module Json.

#[local] Set Warnings "-register-all".

Inductive value : Type :=
| Null
| Bool (b : bool)
| Str (s : string)
| Arr (items : list value)
| Obj (members : list (string * value)).

(** [v == s] for a string [s]. *)
Definition is_str (v : value) (s : string) : bool :=
  match v with
  | Str s' => String.eqb s' s
  | _ => false
  end.

Definition quote : ascii := "034"%char.
Definition backslash : ascii := "092"%char.
Definition LF : ascii := "010"%char.

(** *** Encoder *)

Definition hex_digit (n : nat) : ascii :=
  if (n <? 10)%nat then ascii_of_nat (48 + n) else ascii_of_nat (87 + n).

(** One character as [encode_basestring_ascii] writes it. *)
Definition escape_char (c : ascii) : string :=
  let n := nat_of_ascii c in
  if Ascii.eqb c quote then String backslash (String quote EmptyString)
  else if Ascii.eqb c backslash then String backslash (String backslash EmptyString)
  else if (n =? 10)%nat then String backslash "n"
  else if (n =? 13)%nat then String backslash "r"
  else if (n =? 9)%nat then String backslash "t"
  else if (n =? 8)%nat then String backslash "b"
  else if (n =? 12)%nat then String backslash "f"
  else if (32 <=? n)%nat && (n <=? 126)%nat then String c EmptyString
  else String backslash
         (String "u" (String "0" (String "0"
            (String (hex_digit (n / 16)) (String (hex_digit (n mod 16)) EmptyString))))).

Fixpoint escape (s : string) : string :=
  match s with
  | EmptyString => EmptyString
  | String c s' => escape_char c +:+ escape s'
  end.

Definition encode_string (s : string) : string :=
  String quote (escape s +:+ String quote EmptyString).

Fixpoint spaces (n : nat) : string :=
  match n with
  | 0 => EmptyString
  | S n' => String " " (spaces n')
  end.

(** A line break followed by the indentation of nesting depth [level]. *)
Definition newline_indent (level : nat) : string := String LF (spaces (2 * level)).

Fixpoint encode (level : nat) (v : value) : string :=
  match v with
  | Null => "null"
  | Bool true => "true"
  | Bool false => "false"
  | Str s => encode_string s
  | Arr [] => "[]"
  | Arr (x :: xs) =>
      "[" +:+ newline_indent (S level) +:+ encode (S level) x
      +:+ (fix rest (l : list value) : string :=
             match l with
             | [] => newline_indent level +:+ "]"
             | y :: l' =>
                 "," +:+ newline_indent (S level) +:+ encode (S level) y +:+ rest l'
             end) xs
  | Obj [] => "{}"
  | Obj ((k, x) :: ms) =>
      "{" +:+ newline_indent (S level) +:+ encode_string k +:+ ": " +:+ encode (S level) x
      +:+ (fix rest (l : list (string * value)) : string :=
             match l with
             | [] => newline_indent level +:+ "}"
             | (k', y) :: l' =>
                 "," +:+ newline_indent (S level) +:+ encode_string k' +:+ ": "
                 +:+ encode (S level) y +:+ rest l'
             end) ms
  end.

(** The text of a list after its first item, as [encode] writes it. *)
Definition arr_tail (level : nat) : list value → string :=
  fix rest (l : list value) : string :=
    match l with
    | [] => newline_indent level +:+ "]"
    | y :: l' => "," +:+ newline_indent (S level) +:+ encode (S level) y +:+ rest l'
    end.

(** The text [json.dump(obj, f, indent=2)] writes. *)
Definition dumps (v : value) : string := encode 0 v.

(** *** Decoder *)

Inductive result (A : Type) : Type :=
| Ok (a : A)
| JSONDecodeError
| Unsupported.
Arguments Ok {A} a.
Arguments JSONDecodeError {A}.
Arguments Unsupported {A}.

Definition is_ws (c : ascii) : bool :=
  let n := nat_of_ascii c in
  (n =? 32)%nat || (n =? 9)%nat || (n =? 10)%nat || (n =? 13)%nat.

Fixpoint skip_ws (s : string) : string :=
  match s with
  | String c s' => if is_ws c then skip_ws s' else s
  | EmptyString => s
  end.

Definition hex_value (c : ascii) : option nat :=
  let n := nat_of_ascii c in
  if (48 <=? n)%nat && (n <=? 57)%nat then Some (n - 48)
  else if (97 <=? n)%nat && (n <=? 102)%nat then Some (n - 87)
  else if (65 <=? n)%nat && (n <=? 70)%nat then Some (n - 55)
  else None.

(** [scanstring] in strict mode, after the opening quote: the decoded
    string and the text after the closing quote.  An escape [\uXXXX] of
    a code point above 255 has no counterpart here. *)
Fixpoint scanstring (s : string) : result (string * string) :=
  match s with
  | EmptyString => JSONDecodeError
  | String c s' =>
      if Ascii.eqb c quote then Ok (EmptyString, s')
      else if Ascii.eqb c backslash then
        match s' with
        | String e s'' =>
            let continue (ch : ascii) (rest : string) :=
              match scanstring rest with
              | Ok (str, rest') => Ok (String ch str, rest')
              | JSONDecodeError => JSONDecodeError
              | Unsupported => Unsupported
              end in
            let k := nat_of_ascii e in
            if Ascii.eqb e quote then continue quote s''
            else if Ascii.eqb e backslash then continue backslash s''
            else if Ascii.eqb e "/" then continue "/"%char s''
            else if Ascii.eqb e "b" then continue (ascii_of_nat 8) s''
            else if Ascii.eqb e "f" then continue (ascii_of_nat 12) s''
            else if Ascii.eqb e "n" then continue (ascii_of_nat 10) s''
            else if Ascii.eqb e "r" then continue (ascii_of_nat 13) s''
            else if Ascii.eqb e "t" then continue (ascii_of_nat 9) s''
            else if Ascii.eqb e "u" then
              match s'' with
              | String h1 (String h2 (String h3 (String h4 s4))) =>
                  match hex_value h1, hex_value h2, hex_value h3, hex_value h4 with
                  | Some a, Some b, Some c', Some d =>
                      if (a =? 0)%nat && (b =? 0)%nat
                      then continue (ascii_of_nat (16 * c' + d)) s4
                      else Unsupported
                  | _, _, _, _ => JSONDecodeError
                  end
              | _ => JSONDecodeError
              end
            else JSONDecodeError
        | EmptyString => JSONDecodeError
        end
      else if (nat_of_ascii c <? 32)%nat then JSONDecodeError
      else
        match scanstring s' with
        | Ok (str, rest') => Ok (String c str, rest')
        | JSONDecodeError => JSONDecodeError
        | Unsupported => Unsupported
        end
  end.

Definition starts_number (c : ascii) : bool :=
  Py.isdigit c || Ascii.eqb c "-" || Ascii.eqb c "N" || Ascii.eqb c "I".

(** [scan_once], [JSONArray] and [JSONObject].  Every call consumes a
    character of the text, so the length of the text is fuel enough. *)
Fixpoint scan_once (fuel : nat) (s : string) : result (value * string) :=
  match fuel with
  | 0 => JSONDecodeError
  | S fuel' =>
      match s with
      | EmptyString => JSONDecodeError
      | String c s' =>
          if Ascii.eqb c quote then
            match scanstring s' with
            | Ok (str, rest) => Ok (Str str, rest)
            | JSONDecodeError => JSONDecodeError
            | Unsupported => Unsupported
            end
          else if Ascii.eqb c "{" then
            match skip_ws s' with
            | String c' rest =>
                if Ascii.eqb c' "}" then Ok (Obj [], rest)
                else members fuel' [] (String c' rest)
            | EmptyString => JSONDecodeError
            end
          else if Ascii.eqb c "[" then
            match skip_ws s' with
            | String c' rest =>
                if Ascii.eqb c' "]" then Ok (Arr [], rest)
                else items fuel' [] (String c' rest)
            | EmptyString => JSONDecodeError
            end
          else if String.prefix "null" s then Ok (Null, String.substring 4 (String.length s - 4) s)
          else if String.prefix "true" s then Ok (Bool true, String.substring 4 (String.length s - 4) s)
          else if String.prefix "false" s then Ok (Bool false, String.substring 5 (String.length s - 5) s)
          else if starts_number c then Unsupported
          else JSONDecodeError
      end
  end
with items (fuel : nat) (acc : list value) (s : string) : result (value * string) :=
  match fuel with
  | 0 => JSONDecodeError
  | S fuel' =>
      match scan_once fuel' s with
      | Ok (v, rest) =>
          match skip_ws rest with
          | String c rest' =>
              if Ascii.eqb c "," then items fuel' (acc ++ [v]) (skip_ws rest')
              else if Ascii.eqb c "]" then Ok (Arr (acc ++ [v]), rest')
              else JSONDecodeError
          | EmptyString => JSONDecodeError
          end
      | JSONDecodeError => JSONDecodeError
      | Unsupported => Unsupported
      end
  end
with members (fuel : nat) (acc : list (string * value)) (s : string)
  : result (value * string) :=
  match fuel with
  | 0 => JSONDecodeError
  | S fuel' =>
      match s with
      | String c s' =>
          if Ascii.eqb c quote then
            match scanstring s' with
            | Ok (key, rest) =>
                match skip_ws rest with
                | String c1 rest1 =>
                    if Ascii.eqb c1 ":" then
                      match scan_once fuel' (skip_ws rest1) with
                      | Ok (v, rest2) =>
                          match skip_ws rest2 with
                          | String c2 rest3 =>
                              if Ascii.eqb c2 ","
                              then members fuel' (Py.dict_set acc key v) (skip_ws rest3)
                              else if Ascii.eqb c2 "}"
                              then Ok (Obj (Py.dict_set acc key v), rest3)
                              else JSONDecodeError
                          | EmptyString => JSONDecodeError
                          end
                      | JSONDecodeError => JSONDecodeError
                      | Unsupported => Unsupported
                      end
                    else JSONDecodeError
                | EmptyString => JSONDecodeError
                end
            | JSONDecodeError => JSONDecodeError
            | Unsupported => Unsupported
            end
          else JSONDecodeError
      | EmptyString => JSONDecodeError
      end
  end.

(** [json.loads]: leading white space, one value, trailing white space,
    and nothing else. *)
Definition loads (text : string) : result value :=
  match scan_once (S (String.length text)) (skip_ws text) with
  | Ok (v, rest) =>
      match skip_ws rest with
      | EmptyString => Ok v
      | _ => JSONDecodeError
      end
  | JSONDecodeError => JSONDecodeError
  | Unsupported => Unsupported
  end.

End Json.

(** ** Contact Manager: [contacts.py] *)

Module Contacts.
Import FS.

Inductive exn : Type :=
| ValidationError
| DatabaseError
| ContactExistsError
| ContactNotFoundError
| OtherError.
(** [OtherError]: the [KeyError], [TypeError] or [AttributeError] of an
    entry that is not a dict with string fields. *)

(** [self.contacts] is whatever list [json.load] returned: the entries
    are JSON values. *)
Record ContactManager : Type := Manager {
  db_path : string;
  contacts : list Json.value
}.

(** The dict [add_contact] appends. *)
Definition contact (name phone email : string) : Json.value :=
  Json.Obj [("name", Json.Str name); ("phone", Json.Str phone); ("email", Json.Str email)].

(** [_load_contacts].  A missing file is created empty by [touch].  The
    result is [None] when the file holds a number (see [Json]). *)
Definition load_contacts (path : string) (fs : filesystem)
  : option (filesystem * outcome exn (list Json.value)) :=
  if negb (exists_ path fs)
  then Some (<[path := File EmptyString]> fs, Returned [])
  else match read path fs with
       | Raised _ => Some (fs, Raised DatabaseError)
       | Returned text =>
           match Json.loads text with
           | Json.Ok (Json.Arr l) => Some (fs, Returned l)
           | Json.Ok _ => Some (fs, Raised DatabaseError)
           | Json.JSONDecodeError => Some (fs, Raised DatabaseError)
           | Json.Unsupported => None
           end
       end.

(** The file-system calls of [_save_contacts]: the database file itself
    is opened for writing, then the document is written. *)
Definition save_contacts_script (path : string) (l : list Json.value) : script :=
  [open_w path; write path (Json.dumps (Json.Arr l))].

Definition save_contacts (m : ContactManager) (fs : filesystem)
  : filesystem * outcome exn () :=
  match run (save_contacts_script (db_path m) (contacts m)) fs with
  | (fs', None) => (fs', Returned ())
  | (fs', Some _) => (fs', Raised DatabaseError)
  end.

(** [ContactManager.__init__]. *)
Definition init (path : string) (fs : filesystem)
  : option (filesystem * outcome exn ContactManager) :=
  match load_contacts path fs with
  | Some (fs', Returned l) => Some (fs', Returned (Manager path l))
  | Some (fs', Raised e) => Some (fs', Raised e)
  | None => None
  end.

(** [re.match(r'^\+?[\d\s\-\(\)]{7,}$', phone)]. *)
Definition phone_char (c : ascii) : bool :=
  Py.isdigit c || Py.isspace c || Ascii.eqb c "-" || Ascii.eqb c "(" || Ascii.eqb c ")".

Definition phone_ok (phone : string) : bool :=
  let digits := match phone with
                | String c rest => if Ascii.eqb c "+" then rest else phone
                | EmptyString => phone
                end in
  (7 <=? String.length digits)%nat && Py.string_forall phone_char digits.

(** [re.match(r'^[^@]+@[^@]+\.[^@]+$', email)]: one [@], something
    before it, and after it a dot that is neither first nor last. *)
Fixpoint split_at (s : string) : option (string * string) :=
  match s with
  | EmptyString => None
  | String c s' =>
      if Ascii.eqb c "@" then Some (EmptyString, s')
      else match split_at s' with
           | Some (a, b) => Some (String c a, b)
           | None => None
           end
  end.

Fixpoint inner_dot (s : string) : bool :=
  match s with
  | String _ (String c rest as s') =>
      match rest with
      | EmptyString => false
      | _ => Ascii.eqb c "." || inner_dot s'
      end
  | _ => false
  end.

Definition email_ok (email : string) : bool :=
  match split_at email with
  | Some (String _ _, domain) =>
      negb (Py.string_exists (Ascii.eqb "@") domain) && inner_dot domain
  | _ => false
  end.

(** [_validate_contact]; an argument that is not a string fails where
    it is first used as one. *)
Definition validate_contact (name phone email : Json.value) : outcome exn () :=
  match name with
  | Json.Str n =>
      if negb (Py.string_exists (λ c, negb (Py.isspace c)) n) then Raised ValidationError
      else match phone with
           | Json.Str p =>
               if negb (phone_ok p) then Raised ValidationError
               else match email with
                    | Json.Str e =>
                        if negb (email_ok e) then Raised ValidationError else Returned ()
                    | _ => Raised OtherError
                    end
           | _ => Raised OtherError
           end
  | _ => Raised OtherError
  end.

(** [contact[key]]. *)
Definition getitem (c : Json.value) (key : string) : outcome exn Json.value :=
  match c with
  | Json.Obj ms =>
      if Py.dict_has ms key then Returned (Py.dict_get ms key Json.Null)
      else Raised OtherError
  | _ => Raised OtherError
  end.

(** [contact[key] = v] on a dict. *)
Definition setitem (c : Json.value) (key : string) (v : Json.value) : Json.value :=
  match c with
  | Json.Obj ms => Json.Obj (Py.dict_set ms key v)
  | _ => c
  end.

(** [_find_contact_index], counting from [i]. *)
Fixpoint find_from (i : nat) (name_lower : string) (l : list Json.value)
  : outcome exn (option nat) :=
  match l with
  | [] => Returned None
  | c :: l' =>
      match getitem c "name" with
      | Returned (Json.Str n) =>
          if String.eqb (Py.lower n) name_lower then Returned (Some i)
          else find_from (S i) name_lower l'
      | _ => Raised OtherError
      end
  end.

Definition find_contact_index (name : string) (m : ContactManager)
  : outcome exn (option nat) :=
  find_from 0 (Py.lower name) (contacts m).

(** Every operation returns the manager and the file system as the call
    leaves them, also when it raises. *)
Definition add_contact (name phone email : string) (m : ContactManager) (fs : filesystem)
  : ContactManager * filesystem * outcome exn () :=
  match validate_contact (Json.Str name) (Json.Str phone) (Json.Str email) with
  | Raised e => (m, fs, Raised e)
  | Returned _ =>
      match find_contact_index name m with
      | Raised e => (m, fs, Raised e)
      | Returned (Some _) => (m, fs, Raised ContactExistsError)
      | Returned None =>
          let m' := Manager (db_path m) (contacts m ++ [contact name phone email]) in
          match save_contacts m' fs with
          | (fs', Returned _) => (m', fs', Returned ())
          | (fs', Raised _) => (m', fs', Raised DatabaseError)
          end
      end
  end.

Definition delete_contact (name : string) (m : ContactManager) (fs : filesystem)
  : ContactManager * filesystem * outcome exn () :=
  match find_contact_index name m with
  | Raised e => (m, fs, Raised e)
  | Returned None => (m, fs, Raised ContactNotFoundError)
  | Returned (Some index) =>
      let m' := Manager (db_path m) (delete index (contacts m)) in
      match save_contacts m' fs with
      | (fs', Returned _) => (m', fs', Returned ())
      | (fs', Raised _) => (m', fs', Raised DatabaseError)
      end
  end.

(** One of the three guarded assignments of [update_contact]: when a new
    value is given and differs from the stored one, [check] runs and the
    entry is changed in place.  The flag tells whether it changed. *)
Definition update_field (key : string) (new : option string)
  (check : Json.value → outcome exn ()) (c : Json.value)
  : Json.value * outcome exn bool :=
  match new with
  | None => (c, Returned false)
  | Some v =>
      match getitem c key with
      | Raised e => (c, Raised e)
      | Returned old =>
          if Json.is_str old v then (c, Returned false)
          else match check c with
               | Raised e => (c, Raised e)
               | Returned _ => (setitem c key (Json.Str v), Returned true)
               end
      end
  end.

(** [validate_contact] on arguments read with [contact[key]]: the
    arguments are evaluated first, from left to right. *)
Definition validate_args (name phone email : outcome exn Json.value) : outcome exn () :=
  match name with
  | Raised e => Raised e
  | Returned n =>
      match phone with
      | Raised e => Raised e
      | Returned p =>
          match email with
          | Raised e => Raised e
          | Returned e => validate_contact n p e
          end
      end
  end.

Definition update_contact (name : string) (new_name phone email : option string)
  (m : ContactManager) (fs : filesystem)
  : ContactManager * filesystem * outcome exn () :=
  match find_contact_index name m with
  | Raised e => (m, fs, Raised e)
  | Returned None => (m, fs, Raised ContactNotFoundError)
  | Returned (Some index) =>
      match contacts m !! index with
      | None => (m, fs, Raised OtherError)
      | Some c0 =>
          let put c := Manager (db_path m) (<[index := c]> (contacts m)) in
          let check_name c :=
            match find_contact_index (default EmptyString new_name) m with
            | Raised e => Raised e
            | Returned (Some _) => Raised ContactExistsError
            | Returned None =>
                validate_args (Returned (Json.Str (default EmptyString new_name)))
                  (getitem c "phone") (getitem c "email")
            end in
          let check_phone c :=
            validate_args (getitem c "name")
              (Returned (Json.Str (default EmptyString phone))) (getitem c "email") in
          let check_email c :=
            validate_args (getitem c "name") (getitem c "phone")
              (Returned (Json.Str (default EmptyString email))) in
          match update_field "name" new_name check_name c0 with
          | (c1, Raised e) => (put c1, fs, Raised e)
          | (c1, Returned u1) =>
              match update_field "phone" phone check_phone c1 with
              | (c2, Raised e) => (put c2, fs, Raised e)
              | (c2, Returned u2) =>
                  match update_field "email" email check_email c2 with
                  | (c3, Raised e) => (put c3, fs, Raised e)
                  | (c3, Returned u3) =>
                      if u1 || u2 || u3
                      then match save_contacts (put c3) fs with
                           | (fs', Returned _) => (put c3, fs', Returned ())
                           | (fs', Raised _) => (put c3, fs', Raised DatabaseError)
                           end
                      else (put c3, fs, Returned ())
                  end
              end
          end
      end
  end.

Definition list_contacts (m : ContactManager) : list Json.value := contacts m.

(** *** Import and export *)

(** [import_contacts] and [export_contacts] raise [FileError] next to
    the exceptions above. *)
Inductive transfer_exn : Type :=
| FileError
| Error (e : exn).

(** [key in contact]: a key of a dict, a piece of a string, an item of a
    list; [None] and the booleans are not iterable. *)
Definition has_key (c : Json.value) (key : string) : outcome exn bool :=
  match c with
  | Json.Obj ms => Returned (Py.dict_has ms key)
  | Json.Str s => Returned (Py.contains key s)
  | Json.Arr l => Returned (existsb (λ v, Json.is_str v key) l)
  | Json.Null | Json.Bool _ => Raised OtherError
  end.

(** [all(key in contact for key in keys)]. *)
Fixpoint has_keys (c : Json.value) (keys : list string) : outcome exn bool :=
  match keys with
  | [] => Returned true
  | key :: keys' =>
      match has_key c key with
      | Raised e => Raised e
      | Returned false => Returned false
      | Returned true => has_keys c keys'
      end
  end.

(** The body of the loop over the imported entries. *)
Definition check_imported (c : Json.value) : outcome exn () :=
  match has_keys c ["name"; "phone"; "email"] with
  | Raised e => Raised e
  | Returned false => Raised ValidationError
  | Returned true => validate_args (getitem c "name") (getitem c "phone") (getitem c "email")
  end.

Fixpoint check_all (imported : list Json.value) : outcome exn () :=
  match imported with
  | [] => Returned ()
  | c :: imported' =>
      match check_imported c with
      | Raised e => Raised e
      | Returned _ => check_all imported'
      end
  end.

(** The names [c['name'].lower()] of a list of entries, in the order of
    the list. *)
Fixpoint names_lower (l : list Json.value) : outcome exn (list string) :=
  match l with
  | [] => Returned []
  | c :: l' =>
      match getitem c "name" with
      | Returned (Json.Str n) =>
          match names_lower l' with
          | Returned ns => Returned (Py.lower n :: ns)
          | Raised e => Raised e
          end
      | _ => Raised OtherError
      end
  end.

(** [import_contacts].  [file_path] names an entry of the working
    directory.  What is raised while the file is open is caught by the
    three handlers in their order: a [JSONDecodeError] becomes
    [ValidationError], an [OSError] becomes [FileError], and every other
    exception, the [ValidationError] and [ContactExistsError] raised inside
    included, becomes [DatabaseError].  The result is [None] when the file
    holds a number (see [Json]). *)
Definition import_contacts (file_path : string) (m : ContactManager) (fs : filesystem)
  : option (ContactManager * filesystem * outcome transfer_exn ()) :=
  match read file_path fs with
  | Raised _ => Some (m, fs, Raised FileError)
  | Returned text =>
      match Json.loads text with
      | Json.Unsupported => None
      | Json.JSONDecodeError => Some (m, fs, Raised (Error ValidationError))
      | Json.Ok (Json.Arr imported) =>
          match check_all imported with
          | Raised _ => Some (m, fs, Raised (Error DatabaseError))
          | Returned _ =>
              match names_lower (contacts m) with
              | Raised _ => Some (m, fs, Raised (Error DatabaseError))
              | Returned existing_names =>
                  match names_lower imported with
                  | Raised _ => Some (m, fs, Raised (Error DatabaseError))
                  | Returned imported_names =>
                      if existsb (λ n, bool_decide (n ∈ imported_names)) existing_names
                      then Some (m, fs, Raised (Error DatabaseError))
                      else
                        let m' := Manager (db_path m) (contacts m ++ imported) in
                        match save_contacts m' fs with
                        | (fs', Returned _) => Some (m', fs', Returned ())
                        | (fs', Raised _) => Some (m', fs', Raised (Error DatabaseError))
                        end
                  end
              end
          end
      | Json.Ok _ => Some (m, fs, Raised (Error DatabaseError))
      end
  end.

(** [export_contacts]: the file is opened for writing and the document
    is written; an [OSError] becomes [FileError]. *)
Definition export_contacts (file_path : string) (m : ContactManager) (fs : filesystem)
  : filesystem * outcome transfer_exn () :=
  match run (save_contacts_script file_path (contacts m)) fs with
  | (fs', None) => (fs', Returned ())
  | (fs', Some _) => (fs', Raised FileError)
  end.

End Contacts.

(** ** The console *)

Module Console.

(** The lines still to be read from standard input, without their line
    ends, and the text written to standard output so far.  (The log
    records go to the log file and to standard error.) *)
Record console : Type := Console {
  stdin : list string;
  stdout : string
}.

Inductive exn : Type :=
| EOFError.

Definition newline : string := String "010"%char EmptyString.

(** [print(text)]. *)
Definition print (text : string) (c : console) : console :=
  Console (stdin c) (stdout c +:+ text +:+ newline).

(** [str(n)] for a number that is not negative. *)
Definition str_of_nat (n : nat) : string := NilEmpty.string_of_uint (Nat.to_uint n).

End Console.

(** ** [datetime.strptime(text, "%Y-%m-%d")]

    The format is compiled to the regular expression
    [(\d\d\d\d)-(1[0-2]|0[1-9]|[1-9])-(3[0-1]|[1-2]\d|0[1-9]|[1-9]| [1-9])],
    which is matched at the start of the text; the whole text has to be
    consumed, and the three numbers have to be a date of the calendar
    with a year from 1 on. *)

Module Strptime.

Record date : Type := Date {
  year : nat;
  month : nat;
  day : nat
}.

Definition digit (c : ascii) : option nat :=
  if Py.isdigit c then Some (nat_of_ascii c - 48) else None.

Definition in_range (lo hi : nat) (c : ascii) : option nat :=
  match digit c with
  | Some n => if (lo <=? n)%nat && (n <=? hi)%nat then Some n else None
  | None => None
  end.

(** The alternatives of the month group that match at the start of the
    text, in the order the expression tries them, each with the text it
    leaves. *)
Definition month_alternatives (s : string) : list (nat * string) :=
  match s with
  | String c1 s1 =>
      (match s1 with
       | String c2 s2 =>
           (if Ascii.eqb c1 "1"
            then match in_range 0 2 c2 with Some n => [(10 + n, s2)] | None => [] end
            else [])
           ++ (if Ascii.eqb c1 "0"
               then match in_range 1 9 c2 with Some n => [(n, s2)] | None => [] end
               else [])
       | EmptyString => []
       end)
      ++ match in_range 1 9 c1 with Some n => [(n, s1)] | None => [] end
  | EmptyString => []
  end.

(** The same for the day group. *)
Definition day_alternatives (s : string) : list (nat * string) :=
  match s with
  | String c1 s1 =>
      (match s1 with
       | String c2 s2 =>
           (if Ascii.eqb c1 "3"
            then match in_range 0 1 c2 with Some n => [(30 + n, s2)] | None => [] end
            else [])
           ++ (match in_range 1 2 c1, digit c2 with
               | Some a, Some b => [(10 * a + b, s2)]
               | _, _ => []
               end)
           ++ (if Ascii.eqb c1 "0"
               then match in_range 1 9 c2 with Some n => [(n, s2)] | None => [] end
               else [])
       | EmptyString => []
       end)
      ++ match in_range 1 9 c1 with Some n => [(n, s1)] | None => [] end
      ++ (if Ascii.eqb c1 " "
          then match s1 with
               | String c2 s2 =>
                   match in_range 1 9 c2 with Some n => [(n, s2)] | None => [] end
               | EmptyString => []
               end
          else [])
  | EmptyString => []
  end.

(** The match of the expression: the first alternative of the month
    after which a dash and a day follow, with the first alternative of the
    day; the text left over comes with it. *)
Definition match_format (s : string) : option (nat * nat * nat * string) :=
  match s with
  | String y1 (String y2 (String y3 (String y4 (String dash rest)))) =>
      match digit y1, digit y2, digit y3, digit y4 with
      | Some a, Some b, Some c, Some d =>
          if Ascii.eqb dash "-" then
            head (omap (λ '(m, r),
                          match r with
                          | String dash' r' =>
                              if Ascii.eqb dash' "-"
                              then match day_alternatives r' with
                                   | (dd, left_over) :: _ =>
                                       Some (1000 * a + 100 * b + 10 * c + d, m, dd, left_over)
                                   | [] => None
                                   end
                              else None
                          | EmptyString => None
                          end)
                       (month_alternatives rest))
          else None
      | _, _, _, _ => None
      end
  | _ => None
  end.

Definition is_leap (y : nat) : bool :=
  (y mod 4 =? 0)%nat && (negb (y mod 100 =? 0)%nat || (y mod 400 =? 0)%nat).

Definition days_in_month (y m : nat) : nat :=
  match m with
  | 2 => if is_leap y then 29 else 28
  | 4 | 6 | 9 | 11 => 30
  | _ => 31
  end.

(** [None] stands for the [ValueError]. *)
Definition strptime (s : string) : option date :=
  match match_format s with
  | Some (y, m, d, EmptyString) =>
      if (1 <=? y)%nat && (1 <=? d)%nat && (d <=? days_in_month y m)%nat
      then Some (Date y m d)
      else None
  | _ => None
  end.

(** [a < b] on dates. *)
Definition before (a b : date) : bool :=
  (year a <? year b)%nat
  || ((year a =? year b)%nat
      && ((month a <? month b)%nat
          || ((month a =? month b)%nat && (day a <? day b)%nat))).

End Strptime.

(** ** [InputValidator]

    The class has the same text in [task_planner.py] and in
    [todo_app.py] but for [validate_date].  Every loop reads one line each
    time round; it ends by returning, or with the [EOFError] of [input]
    when the input is used up. *)

Module InputValidator.
Import Console.

(** [validate_string]; the programs call it with the default lengths 1
    and 255. *)
Fixpoint validate_string_loop (prompt : string) (min_length max_length : nat)
    (required : bool) (lines : list string) (out : string)
  : console * outcome exn string :=
  match lines with
  | [] => (Console [] (out +:+ prompt), Raised EOFError)
  | line :: rest =>
      let out := out +:+ prompt in
      let user_input := Py.strip line in
      if negb required && negb (Py.truthy (Some user_input))
      then (Console rest out, Returned user_input)
      else if negb (Py.truthy (Some user_input)) && required
      then validate_string_loop prompt min_length max_length required rest
             (out +:+ "This field is required." +:+ newline)
      else if (String.length user_input <? min_length)%nat
      then validate_string_loop prompt min_length max_length required rest
             (out +:+ "Input must be at least " +:+ str_of_nat min_length
                  +:+ " characters long." +:+ newline)
      else if (max_length <? String.length user_input)%nat
      then validate_string_loop prompt min_length max_length required rest
             (out +:+ "Input must be no more than " +:+ str_of_nat max_length
                  +:+ " characters long." +:+ newline)
      else (Console rest out, Returned user_input)
  end.

Definition validate_string (prompt : string) (min_length max_length : nat)
    (required : bool) (c : console) : console * outcome exn string :=
  validate_string_loop prompt min_length max_length required (stdin c) (stdout c).

Fixpoint validate_choice_loop (prompt : string) (choices : list string) (required : bool)
    (lines : list string) (out : string) : console * outcome exn string :=
  match lines with
  | [] => (Console [] (out +:+ prompt), Raised EOFError)
  | line :: rest =>
      let out := out +:+ prompt in
      let user_input := Py.lower (Py.strip line) in
      if negb required && negb (Py.truthy (Some user_input))
      then (Console rest out, Returned user_input)
      else if bool_decide (user_input ∈ choices)
      then (Console rest out, Returned user_input)
      else validate_choice_loop prompt choices required rest
             (out +:+ "Invalid choice. Please choose from: " +:+ String.concat ", " choices
                  +:+ newline)
  end.

Definition validate_choice (prompt : string) (choices : list string) (required : bool)
    (c : console) : console * outcome exn string :=
  validate_choice_loop prompt choices required (stdin c) (stdout c).

(** [validate_date] of [task_planner.py].  [today k] is the date
    [datetime.now().date()] gives when the loop reads the clock for the
    [k]-th time, counting from [clock_reads]. *)
Fixpoint validate_date_loop (today : nat → Strptime.date) (clock_reads : nat)
    (prompt : string) (required : bool) (lines : list string) (out : string)
  : console * outcome exn string :=
  match lines with
  | [] => (Console [] (out +:+ prompt), Raised EOFError)
  | line :: rest =>
      let out := out +:+ prompt in
      let user_input := Py.strip line in
      if negb required && negb (Py.truthy (Some user_input))
      then (Console rest out, Returned user_input)
      else match Strptime.strptime user_input with
           | Some d =>
               if Strptime.before d (today clock_reads)
               then validate_date_loop today (S clock_reads) prompt required rest
                      (out +:+ "Due date cannot be in the past." +:+ newline)
               else (Console rest out, Returned user_input)
           | None =>
               validate_date_loop today clock_reads prompt required rest
                 (out +:+ "Invalid date format. Please use YYYY-MM-DD." +:+ newline)
           end
  end.

Definition validate_date (today : nat → Strptime.date) (prompt : string) (required : bool)
    (c : console) : console * outcome exn string :=
  validate_date_loop today 0 prompt required (stdin c) (stdout c).

(** [validate_date] of [todo_app.py]: no look at the clock, and [None]
    for an empty answer that is not required. *)
Fixpoint validate_date_todo_loop (prompt : string) (required : bool)
    (lines : list string) (out : string) : console * outcome exn (option string) :=
  match lines with
  | [] => (Console [] (out +:+ prompt), Raised EOFError)
  | line :: rest =>
      let out := out +:+ prompt in
      let user_input := Py.strip line in
      if negb required && negb (Py.truthy (Some user_input))
      then (Console rest out, Returned None)
      else match Strptime.strptime user_input with
           | Some _ => (Console rest out, Returned (Some user_input))
           | None =>
               validate_date_todo_loop prompt required rest
                 (out +:+ "Invalid date format. Please use YYYY-MM-DD." +:+ newline)
           end
  end.

Definition validate_date_todo (prompt : string) (required : bool) (c : console)
  : console * outcome exn (option string) :=
  validate_date_todo_loop prompt required (stdin c) (stdout c).

(** [validate_task_id]: [found task_id] tells whether
    [task_repo.get_task(task_id)] returns a task. *)
Fixpoint validate_task_id_loop (prompt : string) (found : string → bool)
    (lines : list string) (out : string) : console * outcome exn string :=
  match lines with
  | [] => (Console [] (out +:+ prompt), Raised EOFError)
  | line :: rest =>
      let out := out +:+ prompt in
      let task_id := Py.strip line in
      if found task_id then (Console rest out, Returned task_id)
      else validate_task_id_loop prompt found rest
             (out +:+ "Task ID not found. Please enter a valid task ID." +:+ newline)
  end.

Definition validate_task_id (prompt : string) (found : string → bool) (c : console)
  : console * outcome exn string :=
  validate_task_id_loop prompt found (stdin c) (stdout c).

End InputValidator.

(** ** [TaskManager] of [task_planner.py] *)

Module TaskManager.
Import Console InputValidator.

(** [Priority.values()] and [TaskStatus.values()]. *)
Definition Priority_values : list string := ["high"; "medium"; "low"].

Definition TaskStatus_values : list string :=
  ["pending"; "in_progress"; "completed"; "cancelled"].

(** The dict [task_data]: the six answers, asked in the order of the
    dict display.  The first [EOFError] ends the asking. *)
Definition ask_task_data (today : nat → Strptime.date) (c : console)
  : console * outcome exn (list (string * option string)) :=
  match validate_string "Title: " 1 255 true c with
  | (c, Raised e) => (c, Raised e)
  | (c, Returned title) =>
  match validate_string "Description: " 1 255 false c with
  | (c, Raised e) => (c, Raised e)
  | (c, Returned description) =>
  match validate_choice ("Priority (" +:+ String.concat "/" Priority_values +:+ "): ")
          Priority_values true c with
  | (c, Raised e) => (c, Raised e)
  | (c, Returned priority) =>
  match validate_date today "Due date (YYYY-MM-DD): " true c with
  | (c, Raised e) => (c, Raised e)
  | (c, Returned due_date) =>
  match validate_string "Category: " 1 255 true c with
  | (c, Raised e) => (c, Raised e)
  | (c, Returned category) =>
  match validate_choice ("Status (" +:+ String.concat "/" TaskStatus_values +:+ "): ")
          TaskStatus_values false c with
  | (c, Raised e) => (c, Raised e)
  | (c, Returned status) =>
      (c, Returned [("title", Some title); ("description", Some description);
                    ("priority", Some priority); ("due_date", Some due_date);
                    ("category", Some category);
                    ("status", Some (if Py.truthy (Some status) then status
                                     else TaskPlanner.TaskStatus_PENDING))])
  end end end end end end.

(** [str(v)] for a value that is a [str] or [None]. *)
Definition str (v : option string) : string := default "None" v.

Section add_task.
Context {W : Type} {storage : TaskPlanner.TaskStorage W}.

(** [add_task]: any exception, the [EOFError] of [input] and the error
    of the storage alike, ends in the message of failure. *)
Definition add_task (today : nat → Strptime.date) (task_id now : string)
    (r : TaskPlanner.repository) (c : console) : TaskPlanner.repository * console :=
  let c := print (newline +:+ "Add New Task") c in
  match ask_task_data today c with
  | (c, Raised _) => (r, print "Failed to add task. Please try again." c)
  | (c, Returned task_data) =>
      match TaskPlanner.create_task task_id now task_data r with
      | (r', Returned task) =>
          (r', print (newline +:+ "Task added successfully. ID: "
                        +:+ str (TaskPlanner.id task)) c)
      | (r', Raised _) => (r', print "Failed to add task. Please try again." c)
      end
  end.
End add_task.

(** [text * n]. *)
Fixpoint times (n : nat) (text : string) : string :=
  match n with
  | 0 => EmptyString
  | S n' => text +:+ times n' text
  end.

(** [format(text, "<width")]: spaces follow the text up to the width. *)
Definition ljust (width : nat) (text : string) : string :=
  text +:+ times (width - String.length text) " ".

(** The same for a value that may be [None]; [None] stands for the
    [TypeError] then. *)
Definition format_left (width : nat) (v : option string) : option string :=
  match v with
  | Some text => Some (ljust width text)
  | None => None
  end.

(** [v[:n]], a [TypeError] as well when the value is [None]. *)
Definition slice_to (n : nat) (v : option string) : option string :=
  match v with
  | Some text => Some (String.substring 0 n text)
  | None => None
  end.

Definition list_header : string :=
  ljust 36 "ID" +:+ " | " +:+ ljust 20 "Title" +:+ " | " +:+ ljust 8 "Priority" +:+ " | "
    +:+ ljust 10 "Due Date" +:+ " | " +:+ ljust 12 "Status" +:+ " | " +:+ ljust 10 "Category".

(** The line of one task in [list_tasks]. *)
Definition list_row (task : TaskPlanner.Task) : option string :=
  match format_left 36 (TaskPlanner.id task),
        format_left 20 (slice_to 18 (TaskPlanner.title task)),
        format_left 8 (TaskPlanner.priority task),
        format_left 10 (TaskPlanner.due_date task),
        format_left 12 (TaskPlanner.status task),
        format_left 10 (slice_to 10 (TaskPlanner.category task)) with
  | Some i, Some t, Some p, Some d, Some s, Some g =>
      Some (i +:+ " | " +:+ t +:+ " | " +:+ p +:+ " | " +:+ d +:+ " | " +:+ s +:+ " | " +:+ g)
  | _, _, _, _, _, _ => None
  end.

(** The loop of [list_tasks]; [false] when the line of a task raised. *)
Fixpoint print_rows (tasks : list TaskPlanner.Task) (c : console) : console * bool :=
  match tasks with
  | [] => (c, true)
  | task :: rest =>
      match list_row task with
      | Some text => print_rows rest (print text c)
      | None => (c, false)
      end
  end.

Section console.
Context {W : Type} {storage : TaskPlanner.TaskStorage W}.
Variable other_attr : string → option Py.value.

Definition list_tasks (r : TaskPlanner.repository (W:=W)) (c : console) : console :=
  match TaskPlanner.get_all_tasks r with
  | [] => print "No tasks found." c
  | tasks =>
      let c := print (newline +:+ "Task List:") c in
      let c := print (times 80 "-") c in
      let c := print list_header c in
      let c := print (times 80 "-") c in
      match print_rows tasks c with
      | (c, true) =>
          let c := print (times 80 "-") c in
          print ("Total tasks: " +:+ str_of_nat (length tasks)) c
      | (c, false) => print "Failed to list tasks. Please try again." c
      end
  end.

(** [answer or current]. *)
Definition or_current (answer : string) (current : option string) : option string :=
  if Py.truthy (Some answer) then Some answer else current.

(** The dict [update_data] of [update_task]. *)
Definition ask_update_data (today : nat → Strptime.date) (task : TaskPlanner.Task)
    (c : console) : console * outcome exn (list (string * option string)) :=
  match validate_string ("Title [" +:+ str (TaskPlanner.title task) +:+ "]: ")
          1 255 false c with
  | (c, Raised e) => (c, Raised e)
  | (c, Returned title) =>
  match validate_string ("Description [" +:+ str (TaskPlanner.description task) +:+ "]: ")
          1 255 false c with
  | (c, Raised e) => (c, Raised e)
  | (c, Returned description) =>
  match validate_choice ("Priority (" +:+ String.concat "/" Priority_values +:+ ") ["
                           +:+ str (TaskPlanner.priority task) +:+ "]: ")
          Priority_values false c with
  | (c, Raised e) => (c, Raised e)
  | (c, Returned priority) =>
  match validate_date today ("Due date (YYYY-MM-DD) [" +:+ str (TaskPlanner.due_date task)
                               +:+ "]: ") false c with
  | (c, Raised e) => (c, Raised e)
  | (c, Returned due_date) =>
  match validate_string ("Category [" +:+ str (TaskPlanner.category task) +:+ "]: ")
          1 255 false c with
  | (c, Raised e) => (c, Raised e)
  | (c, Returned category) =>
  match validate_choice ("Status (" +:+ String.concat "/" TaskStatus_values +:+ ") ["
                           +:+ str (TaskPlanner.status task) +:+ "]: ")
          TaskStatus_values false c with
  | (c, Raised e) => (c, Raised e)
  | (c, Returned status) =>
      (c, Returned [("title", or_current title (TaskPlanner.title task));
                    ("description", or_current description (TaskPlanner.description task));
                    ("priority", or_current priority (TaskPlanner.priority task));
                    ("due_date", or_current due_date (TaskPlanner.due_date task));
                    ("category", or_current category (TaskPlanner.category task));
                    ("status", or_current status (TaskPlanner.status task))])
  end end end end end end.

(** [update_task]; [None] only where [TaskRepository.update_task] is
    not described. *)
Definition update_task (today : nat → Strptime.date) (now : string)
    (r : TaskPlanner.repository) (c : console) : option (TaskPlanner.repository * console) :=
  let c := print (newline +:+ "Update Task") c in
  match TaskPlanner.get_all_tasks r with
  | [] => Some (r, print "No tasks available to update." c)
  | _ :: _ =>
      let c := list_tasks r c in
      match validate_task_id "Enter task ID to update: "
              (λ task_id, match TaskPlanner.get_task task_id r with
                          | Some _ => true
                          | None => false
                          end) c with
      | (c, Raised _) => Some (r, print "Failed to update task. Please try again." c)
      | (c, Returned task_id) =>
          let c := print (newline +:+ "Leave field blank to keep current value.") c in
          match TaskPlanner.get_task task_id r with
          | None => Some (r, print "Task not found." c)
          | Some task =>
              match ask_update_data today task c with
              | (c, Raised _) => Some (r, print "Failed to update task. Please try again." c)
              | (c, Returned update_data) =>
                  match TaskPlanner.update_task other_attr task_id now update_data r with
                  | Some (r', Returned (Some _)) =>
                      Some (r', print "Task updated successfully." c)
                  | Some (r', Returned None) => Some (r', print "Failed to update task." c)
                  | Some (r', Raised _) =>
                      Some (r', print "Failed to update task. Please try again." c)
                  | None => None
                  end
              end
          end
      end
  end.

(** [delete_task]. *)
Definition delete_task (r : TaskPlanner.repository) (c : console)
  : TaskPlanner.repository * console :=
  let c := print (newline +:+ "Delete Task") c in
  match TaskPlanner.get_all_tasks r with
  | [] => (r, print "No tasks available to delete." c)
  | _ :: _ =>
      let c := list_tasks r c in
      match validate_task_id "Enter task ID to delete: "
              (λ task_id, match TaskPlanner.get_task task_id r with
                          | Some _ => true
                          | None => false
                          end) c with
      | (c, Raised _) => (r, print "Failed to delete task. Please try again." c)
      | (c, Returned task_id) =>
          match TaskPlanner.delete_task task_id r with
          | (r', Returned true) => (r', print "Task deleted successfully." c)
          | (r', Returned false) => (r', print "Failed to delete task." c)
          | (r', Raised _) => (r', print "Failed to delete task. Please try again." c)
          end
      end
  end.

End console.

End TaskManager.

(** ** [TodoManager.add_task] of [todo_app.py] *)

Module TodoManager.
Import Console InputValidator.

(** [[p.value for p in Priority]]. *)
Definition Priority_values : list string := ["low"; "medium"; "high"].

Definition ask_task_data (c : console)
  : console * outcome exn (list (string * option string)) :=
  match validate_string "Title: " 1 255 true c with
  | (c, Raised e) => (c, Raised e)
  | (c, Returned title) =>
  match validate_string "Description: " 1 255 false c with
  | (c, Raised e) => (c, Raised e)
  | (c, Returned description) =>
  match validate_choice ("Priority (" +:+ String.concat "/" Priority_values +:+ "): ")
          Priority_values true c with
  | (c, Raised e) => (c, Raised e)
  | (c, Returned priority) =>
  match validate_date_todo "Due date (YYYY-MM-DD, optional): " false c with
  | (c, Raised e) => (c, Raised e)
  | (c, Returned due_date) =>
  match validate_string "Category (optional): " 1 255 false c with
  | (c, Raised e) => (c, Raised e)
  | (c, Returned category) =>
      (c, Returned [("title", Some title); ("description", Some description);
                    ("priority", Some priority); ("due_date", due_date);
                    ("category", Some category)])
  end end end end end.

Definition add_task (task_id now : string) (db : TodoApp.table) (c : console)
  : TodoApp.table * console :=
  let c := print (newline +:+ "Add New Task") c in
  match ask_task_data c with
  | (c, Raised _) => (db, print "Failed to add task. Please try again." c)
  | (c, Returned task_data) =>
      match TodoApp.create_task task_id now task_data db with
      | (db', Returned task) =>
          (db', print (newline +:+ "Task added successfully. ID: "
                         +:+ TaskManager.str (TodoApp.id task)) c)
      | (db', Raised _) => (db', print "Failed to add task. Please try again." c)
      end
  end.

End TodoManager.

(** ** Notions of the specification *)

Module Spec.

Fixpoint fold_case (s : string) : string :=
  match s with
  | EmptyString => EmptyString
  | String c s' => String (Sql.fold_char c) (fold_case s')
  end.

(** [needle] occurs in [hay] when case is ignored. *)
Definition substring_ci (needle hay : string) : Prop :=
  ∃ before after, fold_case hay = before +:+ fold_case needle +:+ after.

(** The search predicate as the specification words it, on the fields
    of a task of [task_planner.py]: equality on the enumerated fields,
    case-insensitive containment on the free-text fields. *)
Definition predicate_holds (name : string) (value : string) (t : TaskPlanner.Task) : Prop :=
  match TaskPlanner.field_of_name name with
  | Some TaskPlanner.PRIORITY => TaskPlanner.priority t = Some value
  | Some TaskPlanner.STATUS => TaskPlanner.status t = Some value
  | Some TaskPlanner.TITLE => ∃ text, TaskPlanner.title t = Some text ∧ substring_ci value text
  | Some TaskPlanner.DESCRIPTION =>
      ∃ text, TaskPlanner.description t = Some text ∧ substring_ci value text
  | Some TaskPlanner.CATEGORY =>
      ∃ text, TaskPlanner.category t = Some text ∧ substring_ci value text
  | _ => True
  end.

(** The fields an update may set: all but the identifier and the two
    time stamps. *)
Definition mutable_fields : list TaskPlanner.TaskField :=
  [TaskPlanner.TITLE; TaskPlanner.DESCRIPTION; TaskPlanner.PRIORITY; TaskPlanner.DUE_DATE;
   TaskPlanner.CATEGORY; TaskPlanner.STATUS].

Definition mutable_columns : list string :=
  ["title"; "description"; "priority"; "due_date"; "category"; "status"].

Definition has_wildcard (s : string) : bool :=
  Py.string_exists (λ c, Ascii.eqb c "%" || Ascii.eqb c "_") s.

(** A valid task record: every field holds a string, none of them longer
    than the reader's field size limit (the input layer of the program
    admits 255 characters). *)
Definition valid_task (t : TaskPlanner.Task) : Prop :=
  ∀ f, ∃ s, TaskPlanner.getfield t f = Some s
            ∧ (N.of_nat (String.length s) <= Csv.field_size_limit)%N.

(** A valid contact record: the dict that [add_contact] stores. *)
Definition valid_contact (c : Json.value) : Prop :=
  ∃ name phone email, c = Contacts.contact name phone email.

(** The retention policy as the specification words it, over a directory
    with entries of any kind: the backups are the names that start with
    the backup prefix of the canonical path; they are sorted by name,
    newest first; the first [N] are kept and the rest deleted. *)
Section retention.
Context {A : Type}.
Variable prefix : string.
Variable N : nat.

Definition backup_names (dir : gmap string A) : list string :=
  filter (λ f, String.prefix prefix f = true) (map_to_list dir).*1.

Definition newest_first (names : list string) : list string :=
  merge_sort (flip String.le) names.

Definition prune (dir : gmap string A) : gmap string A :=
  foldl (λ d name, delete name d) dir (drop N (newest_first (backup_names dir))).

(** One backup at the time [timestamp] with the content [v]. *)
Definition backup_step (dir : gmap string A) (call : string * A) : gmap string A :=
  prune (<[prefix +:+ call.1 := call.2]> dir).
End retention.

End Spec.

(** ** Notions used in the proofs *)

(** The calls of [save_tasks] before the last one touch the temporary
    file only: [fs] agrees with [fs0] everywhere else. *)
Definition off_temp (file_path : string) (fs0 fs : FS.filesystem) : Prop :=
  ∀ p, p ≠ TaskPlanner.temp_file file_path → fs !! p = fs0 !! p.

(** Insertion of one name into a list that is sorted newest first. *)
Fixpoint insert_name (x : string) (l : list string) : list string :=
  match l with
  | [] => [x]
  | y :: l' => if decide (String.le y x) then x :: l else y :: insert_name x l'
  end.

(** No backup name of the CSV file is bound to a directory. *)
Definition backups_are_files (file_path : string) (fs : FS.filesystem) : Prop :=
  ∀ k, String.prefix (TaskPlanner.backup_prefix file_path) k = true → fs !! k ≠ Some FS.Dir.

(** Every backup name of the database file is bound to a database image. *)
Definition backups_are_images (db_file : string) (dir : gmap string (option TodoApp.table))
  : Prop :=
  ∀ k, String.prefix (TodoApp.backup_prefix db_file) k = true → dir !! k ≠ Some None.

(** The text [strftime("%Y%m%d_%H%M%S")] gives: digits and an
    underscore. *)
Definition timestamp_text (s : string) : bool :=
  Py.string_forall (λ c, Py.isdigit c || Ascii.eqb c "_") s.

(** Every bound path that begins with the backup prefix of the CSV file
    is an entry of the working directory. *)
Definition backups_are_entries (file_path : string) (fs : FS.filesystem) : Prop :=
  ∀ k, String.prefix (TaskPlanner.backup_prefix file_path) k = true →
       is_Some (fs !! k) → FS.is_entry k = true.

(** Every bound path that begins with the backup prefix of the database
    file continues it without a separator. *)
Definition backups_are_siblings (db_file : string) (dir : gmap string (option TodoApp.table))
  : Prop :=
  ∀ k, String.prefix (TodoApp.backup_prefix db_file) k = true →
       is_Some (dir !! k) → TodoApp.is_backup db_file k = true.

(** Backups of the database one after the other, each at the time stamp
    [call.1] with the table [call.2] of that time. *)
Fixpoint db_backups (db_file : string) (calls : list (string * TodoApp.table))
    (dir : gmap string (option TodoApp.table)) : option (gmap string (option TodoApp.table)) :=
  match calls with
  | [] => Some dir
  | call :: calls' =>
      match TodoApp.backup_database db_file call.1 call.2 dir with
      | Some (dir', _) => db_backups db_file calls' dir'
      | None => None
      end
  end.

(** No filter of a search makes a [LIKE] pattern that SQLite refuses. *)
Definition patterns_accepted (filters : list (string * option string)) : Prop :=
  ∀ name c v, (name, Some (String c v)) ∈ filters →
              name ∈ ["title"; "description"; "category"] →
              Sql.too_complex ("%" +:+ String c v +:+ "%") = false.

(** A row on which every filter with a non-empty value holds: [LIKE]
    with the pattern [%value%] on title, description and category,
    equality on status and priority. *)
Definition row_selected (filters : list (string * option string)) (t : TodoApp.Task) : Prop :=
  ∀ name c v, (name, Some (String c v)) ∈ filters →
    (name ∈ ["title"; "description"; "category"] →
     Sql.like ("%" +:+ String c v +:+ "%") (TodoApp.column t name) = Some true) ∧
    (name ∈ ["status"; "priority"] → TodoApp.column t name = Some (String c v)).

(** A task on which every predicate that names an attribute is an
    equality. *)
Definition task_selected (other_attr : string → option Py.value)
    (kwargs : list (string * option string)) (t : TaskPlanner.Task) : Prop :=
  ∀ name value, (name, value) ∈ kwargs →
                TaskPlanner.hasattr other_attr name = true →
                TaskPlanner.getattr other_attr t name = Some (Py.of_str value).



(** A field length the reader accepts. *)
Definition within_limit (n : nat) : Prop := (N.of_nat n <= Csv.field_size_limit)%N.

(** The parser states from which a field can start. *)
Definition at_start (st : Csv.pstate) : Prop :=
  st = Csv.START_RECORD ∨ st = Csv.START_FIELD.

(** The parser states in which a field, possibly empty, has been read. *)
Definition field_read (st : Csv.pstate) : Prop :=
  st = Csv.START_FIELD ∨ st = Csv.IN_FIELD ∨ st = Csv.QUOTE_IN_QUOTED_FIELD.

Section reader_on_text.
Import Csv.

(** The characters of a piece of a line, without the end-of-line mark. *)
Fixpoint feed_chars (p : parser) (s : string) : option parser :=
  match s with
  | EmptyString => Some p
  | String c s' =>
      match parse_process_char p (Some c) with
      | Some p' => feed_chars p' s'
      | None => None
      end
  end.

(** What the reader does once a line is complete. *)
Definition end_line (p : parser) (continue : parser → option (list (list string)))
  : option (list (list string)) :=
  match parse_process_char p None with
  | None => None
  | Some p' =>
      match state p' with
      | START_RECORD => cons (reverse (fields p')) <$> continue parse_reset
      | _ => continue p'
      end
  end.

(** Does a line end after the character [c], the text going on with [s]? *)
Definition line_ends (c : ascii) (s : string) : bool :=
  Ascii.eqb c LF ||
  (Ascii.eqb c CR && match s with
                     | String c' _ => negb (Ascii.eqb c' LF)
                     | EmptyString => true
                     end).

(** The reader run over the text itself: [mid] tells whether the current
    line has characters already. *)
Fixpoint drive (p : parser) (mid : bool) (s : string) : option (list (list string)) :=
  match s with
  | EmptyString => if mid then end_line p (λ q, records q []) else records p []
  | String c s' =>
      match parse_process_char p (Some c) with
      | None => None
      | Some p1 =>
          if line_ends c s' then end_line p1 (λ q, drive q false s')
          else drive p1 true s'
      end
  end.
End reader_on_text.

(** The key under which the contact manager looks a contact up: its
    name in lower case. *)
Definition name_key (c : Json.value) : string :=
  match Contacts.getitem c "name" with
  | Returned (Json.Str n) => Py.lower n
  | _ => EmptyString
  end.

(** A contact book: dicts of the shape [add_contact] stores, their
    names pairwise distinct when case is ignored. *)
Definition contact_book (l : list Json.value) : Prop :=
  Forall Spec.valid_contact l ∧ NoDup (name_key <$> l).

(** A contact dict whose fields [_validate_contact] accepts. *)
Definition accepted_contact (c : Json.value) : Prop :=
  ∃ n p e, c = Contacts.contact n p e
           ∧ Contacts.validate_contact (Json.Str n) (Json.Str p) (Json.Str e) = Returned ().

(** The table [tasks] as the schema and [create_task] keep it: every
    row meets the column constraints and has an id, and no id occurs
    twice. *)
Definition table_ok (db : TodoApp.table) : Prop :=
  Forall (λ t, TodoApp.row_ok t = true ∧ is_Some (TodoApp.id t)) db
  ∧ NoDup (TodoApp.id <$> db).

(** A date of the calendar, with a year from 1 on. *)
Definition calendar_date (d : Strptime.date) : Prop :=
  1 ≤ Strptime.year d
  ∧ 1 ≤ Strptime.month d ≤ 12
  ∧ 1 ≤ Strptime.day d ≤ Strptime.days_in_month (Strptime.year d) (Strptime.month d).

(** * Properties *)

(** ** Strings *)

Lemma app_nil_l (s : string) : EmptyString +:+ s = s.
Proof. reflexivity. Qed.

Lemma app_cons (c : ascii) (s t : string) : String c s +:+ t = String c (s +:+ t).
Proof. reflexivity. Qed.

Lemma app_nil_r (s : string) : s +:+ EmptyString = s.
Proof. induction s as [|c s IH]; [done|]. by rewrite app_cons, IH. Qed.

Lemma app_assoc (s t u : string) : (s +:+ t) +:+ u = s +:+ (t +:+ u).
Proof. induction s as [|c s IH]; [done|]. by rewrite !app_cons, IH. Qed.

Lemma app_length (s t : string) :
  String.length (s +:+ t) = String.length s + String.length t.
Proof. induction s as [|c s IH]; [done|]. rewrite app_cons. simpl. by rewrite IH. Qed.

(** ** Search *)

Section search.
Import TaskPlanner.
Context {W : Type}.
Variable other_attr : string → option Py.value.

Lemma matches_spec (kwargs : list (string * option string)) (t : Task) :
  matches other_attr kwargs t = true ↔
  ∀ name value, (name, value) ∈ kwargs → hasattr other_attr name = true →
                getattr other_attr t name = Some (Py.of_str value).
Proof.
  induction kwargs as [|[n v] kw IH]; simpl.
  - split; [intros _ ?? Hin; inversion Hin | done].
  - destruct (hasattr other_attr n) eqn:Hh; simpl.
    + case_bool_decide as Hg; simpl.
      * rewrite IH. split.
        -- intros H name value [Heq|Hin]%elem_of_cons ?; [by simplify_eq | eauto].
        -- intros H name value Hin. apply H. by right.
      * split; [done|]. intros H. exfalso. apply Hg, H; [left|done].
    + rewrite IH. split.
      * intros H name value [Heq|Hin]%elem_of_cons ?; [simplify_eq; congruence | eauto].
      * intros H name value Hin. apply H. by right.
Qed.

Lemma matches_unknown kw1 name value kw2 (t : Task) :
  hasattr other_attr name = false →
  matches other_attr (kw1 ++ (name, value) :: kw2) t = matches other_attr (kw1 ++ kw2) t.
Proof.
  intros Hh. induction kw1 as [|[n v] kw1 IH]; simpl.
  - by rewrite Hh.
  - by rewrite IH.
Qed.

Lemma filter_all {A} (l : list A) : filter (λ _, true = true) l = l.
Proof. induction l as [|x l IH]; [done|]. rewrite filter_cons_True; [by f_equal|done]. Qed.

(** C10.  In the CSV repository [search_tasks] without any predicate
    returns every task of the repository, in order; and a predicate
    whose name is not an attribute of a task does not restrict the
    result, wherever it stands among the predicates. *)
Theorem search_tasks_empty_and_unknown :
  (∀ r : repository (W:=W), search_tasks other_attr [] r = tasks r) ∧
  (∀ kw1 name value kw2 (r : repository (W:=W)),
      hasattr other_attr name = false →
      search_tasks other_attr (kw1 ++ (name, value) :: kw2) r
      = search_tasks other_attr (kw1 ++ kw2) r).
Proof.
  split.
  - intros r. unfold search_tasks. simpl. apply filter_all.
  - intros kw1 name value kw2 r Hh. unfold search_tasks.
    apply list_filter_iff. intros t. by rewrite matches_unknown.
Qed.
End search.

Lemma search_tasks_empty_and_unknown_witness :
  let other := λ name : string, if String.eqb name "to_dict" then Some Py.VObject else None in
  let t := TaskPlanner.mkTask (Some "1") (Some "Buy milk") (Some EmptyString) (Some "high")
             (Some "2099-01-01") (Some "home") (Some "t0") (Some "t0") (Some "pending") in
  let r := TaskPlanner.Repository [t] () in
  TaskPlanner.hasattr other "colour" = false ∧
  TaskPlanner.search_tasks other ([("priority", Some "high")] ++ ("colour", Some "red") :: []) r
  = TaskPlanner.search_tasks other ([("priority", Some "high")] ++ []) r.
Proof.
  split; [reflexivity|].
  apply (proj2 (search_tasks_empty_and_unknown (W:=()) _)). reflexivity.
Defined.

(** *** [LIKE] with a pattern [%value%] *)

Lemma fold_case_app (s t : string) :
  Spec.fold_case (s +:+ t) = Spec.fold_case s +:+ Spec.fold_case t.
Proof. induction s as [|c s IH]; [done|]. rewrite app_cons. simpl. by rewrite IH, app_cons. Qed.

Lemma fold_case_split (t before rest : string) :
  Spec.fold_case t = before +:+ rest →
  ∃ t1 t2, t = t1 +:+ t2 ∧ Spec.fold_case t1 = before ∧ Spec.fold_case t2 = rest.
Proof.
  revert t. induction before as [|b before IH]; intros t H.
  - exists EmptyString, t. by rewrite !app_nil_l in *.
  - rewrite app_cons in H. destruct t as [|c t]; [done|]. simpl in H.
    injection H as Hc Ht. destruct (IH _ Ht) as (t1 & t2 & -> & <- & <-).
    exists (String c t1), t2. rewrite app_cons. simpl. by rewrite Hc.
Qed.

Lemma like_percent_end (text : string) : Sql.like_match "%" text = true.
Proof. induction text as [|c text IH]; [done|]. simpl in *. exact IH. Qed.

Lemma like_literal_prefix (v text : string) :
  Spec.has_wildcard v = false →
  Sql.like_match (v +:+ "%") text = true ↔ ∃ after, Spec.fold_case text = Spec.fold_case v +:+ after.
Proof.
  revert text. induction v as [|p v IH]; intros text Hw.
  - rewrite app_nil_l, like_percent_end. split; [|done]. intros _.
    exists (Spec.fold_case text). by rewrite app_nil_l.
  - unfold Spec.has_wildcard in Hw. simpl in Hw.
    apply orb_false_iff in Hw as [[Hp Hu]%orb_false_iff Hw].
    rewrite app_cons. simpl. rewrite Hp, Hu. simpl. destruct text as [|c text].
    + split; [done|]. by intros [after H].
    + rewrite andb_true_iff, (IH text Hw), Ascii.eqb_eq. simpl. split.
      * intros [Hc [after H]]. exists after. by rewrite app_cons, Hc, H.
      * intros [after H]. rewrite app_cons in H. injection H as Hc H. eauto.
Qed.

Lemma like_percent_start (pattern text : string) :
  Sql.like_match (String "%" pattern) text = true ↔
  ∃ t1 t2, text = t1 +:+ t2 ∧ Sql.like_match pattern t2 = true.
Proof.
  induction text as [|c text IH].
  - simpl. rewrite orb_false_r. split.
    + intros H. by exists EmptyString, EmptyString.
    + intros (t1 & t2 & H & Hl). destruct t1; [|done]. by destruct t2.
  - change (Sql.like_match (String "%" pattern) (String c text))
      with (Sql.like_match pattern (String c text) || Sql.like_match (String "%" pattern) text).
    rewrite orb_true_iff, IH. split.
    + intros [H|(t1 & t2 & -> & H)].
      * by exists EmptyString, (String c text).
      * by exists (String c t1), t2.
    + intros (t1 & t2 & H & Hl). destruct t1 as [|c1 t1].
      * left. rewrite app_nil_l in H. by subst.
      * right. rewrite app_cons in H. injection H as -> ->. eauto.
Qed.

(** For a value without wildcard characters, [LIKE '%value%'] is
    case-insensitive containment. *)
Lemma like_contains (v text : string) :
  Spec.has_wildcard v = false →
  Sql.like_match ("%" +:+ v +:+ "%") text = true ↔ Spec.substring_ci v text.
Proof.
  intros Hw. change ("%" +:+ v +:+ "%") with (String "%" (v +:+ "%")).
  rewrite like_percent_start. unfold Spec.substring_ci. split.
  - intros (t1 & t2 & -> & [after H]%like_literal_prefix); [|done].
    exists (Spec.fold_case t1), after. by rewrite fold_case_app, H.
  - intros (before & after & H).
    destruct (fold_case_split _ _ _ H) as (t1 & t2 & -> & _ & H2).
    exists t1, t2. split; [done|]. apply like_literal_prefix; eauto.
Qed.

Lemma c_string_app (s t : string) :
  Sql.c_string s = s → Sql.c_string (s +:+ t) = s +:+ Sql.c_string t.
Proof.
  induction s as [|c s IH]; [done|]. rewrite app_cons. cbn [Sql.c_string].
  destruct (nat_of_ascii c =? 0)%nat; [done|]. intros [= H]. by rewrite IH.
Qed.

(** *** The two search functions *)

Local Instance created_desc_trans : Transitive TodoApp.created_desc.
Proof. intros x y z Hxy Hyz. unfold TodoApp.created_desc in *. by etrans. Qed.

Local Instance created_desc_total : Total TodoApp.created_desc.
Proof.
  intros x y. unfold TodoApp.created_desc.
  destruct (total String.le (default EmptyString (TodoApp.created_at x))
              (default EmptyString (TodoApp.created_at y))); auto.
Qed.

Lemma where_spec (filters : list (string * option string)) (t : TodoApp.Task) :
  patterns_accepted filters →
  ∃ b, TodoApp.where_ filters t = Some b ∧ (b = true ↔ row_selected filters t).
Proof.
  induction filters as [|[n value] fs IH]; intros Hacc.
  - exists true. split; [done|]. split; [|done]. intros _ name c v Hin. inversion Hin.
  - destruct IH as (b' & Hb' & Hiff).
    { intros name c v Hin. apply Hacc. by right. }
    assert (∀ name c v, (name, Some (String c v)) ∈ fs →
                        (name, Some (String c v)) ∈ (n, value) :: fs) as Hright
      by (intros; by right).
    cbn [TodoApp.where_]. unfold TodoApp.condition.
    destruct value as [[|c0 v0]|].
    + exists b'. split; [done|]. rewrite Hiff. split.
      * intros H name c v [[= ]|Hin]%elem_of_cons. by apply H.
      * intros H name c v Hin. by apply H, Hright.
    + case_bool_decide as Hfree; [|case_bool_decide as Henum].
      * pose proof (Hacc n c0 v0 (ltac:(by left)) Hfree) as Hok.
        destruct (Sql.like ("%" +:+ String c0 v0 +:+ "%") (TodoApp.column t n))
          as [b0|] eqn:Hlike.
        2:{ unfold Sql.like in Hlike. rewrite Hok in Hlike.
            by destruct (TodoApp.column t n). }
        rewrite Hb'. exists (b0 && b'). split; [done|].
        rewrite andb_true_iff, Hiff. split.
        -- intros [-> H] name c v [[= -> -> ->]|Hin]%elem_of_cons; [|by apply H].
           split; [done|]. intros Hn. exfalso.
           repeat (apply elem_of_cons in Hfree as [->|Hfree];
                   [apply list_elem_of_In in Hn; simpl in Hn; intuition discriminate|]).
           by apply elem_of_nil in Hfree.
        -- intros H. split.
           ++ destruct (H n c0 v0 (ltac:(by left))) as [Hl _]. specialize (Hl Hfree).
              congruence.
           ++ intros name c v Hin. by apply H, Hright.
      * rewrite Hb'. eexists. split; [done|].
        rewrite andb_true_iff, bool_decide_eq_true, Hiff. split.
        -- intros [Hcol H] name c v [[= -> -> ->]|Hin]%elem_of_cons; [|by apply H].
           done.
        -- intros H. split.
           ++ by apply (H n c0 v0 (ltac:(by left))).
           ++ intros name c v Hin. by apply H, Hright.
      * exists b'. split; [done|]. rewrite Hiff. split.
        -- intros H name c v [[= -> -> ->]|Hin]%elem_of_cons; [done|by apply H].
        -- intros H name c v Hin. by apply H, Hright.
    + exists b'. split; [done|]. rewrite Hiff. split.
      * intros H name c v [[= ]|Hin]%elem_of_cons. by apply H.
      * intros H name c v Hin. by apply H, Hright.
Qed.

Lemma search_tasks_db_spec (filters : list (string * option string)) (db : TodoApp.table)
    (dec : ∀ t, Decision (row_selected filters t)) :
  patterns_accepted filters →
  TodoApp.search_tasks filters db
  = Some (TodoApp.order_by_created_at_desc (filter (row_selected filters) db)).
Proof.
  intros Hacc. unfold TodoApp.search_tasks.
  assert (forallb (λ t, bool_decide (is_Some (TodoApp.where_ filters t))) db = true) as ->.
  { apply forallb_forall. intros t _. apply bool_decide_eq_true.
    destruct (where_spec filters t Hacc) as (b & -> & _). by eexists. }
  do 2 f_equal. apply list_filter_iff. intros t.
  destruct (where_spec filters t Hacc) as (b & -> & Hiff). rewrite <- Hiff.
  split; [by intros [= ->]|by intros ->].
Qed.

(** C3, the counterexample.  A task titled [Buy milk] satisfies the
    predicate "title contains milk", and the CSV repository's search for
    the title [milk] does not return it. *)
Lemma search_tasks_title_needs_equality :
  let other := λ name : string, if String.eqb name "to_dict" then Some Py.VObject else None in
  let t := TaskPlanner.mkTask (Some "1") (Some "Buy milk") (Some EmptyString) (Some "high")
             (Some "2099-01-01") (Some "home") (Some "t0") (Some "t0") (Some "pending") in
  let r := TaskPlanner.Repository [t] () in
  t ∈ TaskPlanner.tasks r ∧
  Spec.predicate_holds "title" "milk" t ∧
  TaskPlanner.search_tasks other [("title", Some "milk")] r = [].
Proof.
  split; [by left|]. split; [|reflexivity].
  exists "Buy milk". split; [reflexivity|]. by exists "buy ", EmptyString.
Qed.

(** C3, as amended.  The CSV repository returns the tasks on which every
    supplied predicate that names an attribute is an equality, on the
    free-text fields as on the others: the result is the stored list with
    the other tasks left out, so the order and the repetitions of the
    stored list are kept.  The database repository, for filters whose
    [LIKE] patterns are within SQLite's limit of 50000 bytes, returns the
    rows on which every supplied predicate with a non-empty value holds,
    each as often as the table has it, ordered by creation time with the
    latest first: [LIKE '%value%'] on title, description and category,
    equality on status and priority; a predicate with an empty value or on
    another name is ignored.  For a value without [%], [_] and NUL the
    [LIKE] test on a text without NUL is containment up to ASCII case. *)
Theorem search_tasks_exact :
  (∀ (W : Type) other_attr kwargs (r : TaskPlanner.repository (W:=W))
     (dec : ∀ t, Decision (task_selected other_attr kwargs t)),
      TaskPlanner.search_tasks other_attr kwargs r
      = filter (task_selected other_attr kwargs) (TaskPlanner.tasks r)) ∧
  (∀ filters db (dec : ∀ t, Decision (row_selected filters t)),
      patterns_accepted filters →
      ∃ rows, TodoApp.search_tasks filters db = Some rows
              ∧ rows ≡ₚ filter (row_selected filters) db
              ∧ Sorted TodoApp.created_desc rows) ∧
  (∀ v text,
      Spec.has_wildcard v = false →
      Sql.c_string v = v → Sql.c_string text = text →
      Sql.too_complex ("%" +:+ v +:+ "%") = false →
      Sql.like ("%" +:+ v +:+ "%") (Some text) = Some true ↔ Spec.substring_ci v text).
Proof.
  split; [|split].
  - intros W other_attr kwargs r dec. unfold TaskPlanner.search_tasks.
    apply list_filter_iff. intros t. apply matches_spec.
  - intros filters db dec Hacc. eexists. split; [by apply search_tasks_db_spec|].
    split; [apply merge_sort_Permutation | apply (Sorted_merge_sort _)].
  - intros v text Hw Hv Htext Hok. unfold Sql.like. rewrite Hok, Htext.
    change ("%" +:+ v +:+ "%") with (String "%" (v +:+ "%")).
    assert (Sql.c_string (String "%" (v +:+ "%")) = String "%" (v +:+ "%")) as ->.
    { cbn [Sql.c_string]. change (nat_of_ascii "%" =? 0)%nat with false. cbv iota.
      by rewrite (c_string_app v "%" Hv). }
    etrans; [|apply (like_contains v text Hw)].
    change ("%" +:+ v +:+ "%") with (String "%" (v +:+ "%")).
    split; [intros [= H]; exact H | intros H; f_equal; exact H].
Qed.

Lemma search_tasks_exact_witness :
  let t := TodoApp.new_task "a" "2024-01-01T10:00:00" [("title", Some "Buy MILK")] in
  let filters := [("title", Some "milk"); ("status", Some "pending")] in
  patterns_accepted filters ∧
  (∃ rows, TodoApp.search_tasks filters [t] = Some rows ∧ length rows = 1) ∧
  Spec.has_wildcard "milk" = false ∧
  Sql.c_string "milk" = "milk" ∧ Sql.c_string "Buy MILK" = "Buy MILK" ∧
  Sql.too_complex ("%" +:+ "milk" +:+ "%") = false ∧
  (Sql.like ("%" +:+ "milk" +:+ "%") (Some "Buy MILK") = Some true
   ↔ Spec.substring_ci "milk" "Buy MILK").
Proof.
  intros t filters.
  assert (patterns_accepted filters) as Hacc.
  { intros name c v Hin _. apply list_elem_of_In in Hin. simpl in Hin.
    destruct Hin as [[= <- <- <-]|[[= <- <- <-]|[]]]; by vm_compute. }
  split; [exact Hacc|]. split.
  - exists [t]. split; reflexivity.
  - split; [reflexivity|]. split; [reflexivity|]. split; [reflexivity|].
    split; [by vm_compute|].
    apply (proj2 (proj2 search_tasks_exact) "milk" "Buy MILK");
      (reflexivity || by vm_compute).
Defined.

(** ** Update *)

Section update_csv.
Import TaskPlanner.
Context {W : Type} {storage : TaskStorage W}.
Variable other_attr : string → option Py.value.

Lemma find_split (task_id : string) (l : list Task) (t : Task) :
  find (has_id task_id) l = Some t →
  ∃ l1 l2, l = l1 ++ t :: l2 ∧ id t = Some task_id ∧
           (∀ u, u ∈ l1 → id u ≠ Some task_id) ∧
           ∀ t', replace_first task_id t' l = l1 ++ t' :: l2.
Proof.
  induction l as [|x l IH]; [done|]. simpl. unfold has_id at 1 3.
  case_bool_decide as Hx.
  - intros [= ->]. exists [], l. split; [done|]. split; [done|].
    split; [by intros ? ?%elem_of_nil | done].
  - intros (l1 & l2 & -> & Hid & Hl1 & Hrep)%IH. exists (x :: l1), l2.
    split; [done|]. split; [done|]. split.
    + intros u [->|?]%elem_of_cons; auto.
    + intros t'. simpl. by rewrite Hrep.
Qed.

Lemma find_none (task_id : string) (l : list Task) :
  find (has_id task_id) l = None ↔ ∀ u, u ∈ l → id u ≠ Some task_id.
Proof.
  induction l as [|x l IH]; simpl.
  - split; [by intros _ ? ?%elem_of_nil | done].
  - unfold has_id at 1. case_bool_decide as Hx.
    + split; [done|]. intros H. exfalso. apply (H x); [left | done].
    + rewrite IH. split.
      * intros H u [->|?]%elem_of_cons; auto.
      * intros H u ?. apply H. by right.
Qed.

Lemma repo_save_tasks_tasks (r : repository) :
  tasks (repo_save_tasks r).1 = tasks r.
Proof. unfold repo_save_tasks. by destruct (save_tasks (tasks r) (world r)). Qed.

(** What [update_task] leaves in memory and what it answers, when a task
    has the id and the update data stays within the fields. *)
Lemma update_task_found task_id now update_data (r : repository) t t1 :
  find (has_id task_id) (tasks r) = Some t →
  apply_update other_attr update_data t = Some t1 →
  let t2 := setfield t1 UPDATED_AT (Some now) in
  ∃ r' o, update_task other_attr task_id now update_data r = Some (r', o) ∧
          tasks r' = replace_first task_id t2 (tasks r) ∧
          (o = Returned (Some t2) ∨ o = Raised TaskPlannerError).
Proof.
  intros Hf Ha t2. unfold update_task. rewrite Hf, Ha. fold t2.
  pose proof (repo_save_tasks_tasks (Repository (replace_first task_id t2 (tasks r)) (world r)))
    as Ht.
  destruct (repo_save_tasks _) as [r' [[]|[]]]; simpl in Ht; eauto 6.
Qed.
End update_csv.

Section update_db.
Import TodoApp.

Lemma set_column_id (t : Task) (name : string) (v : option string) :
  name ≠ "id" → id (set_column t name v) = id t.
Proof.
  intros Hn. unfold set_column.
  destruct (String.eqb_spec name "id"); [done|].
  repeat (destruct (String.eqb _ _); [done|]). done.
Qed.

Lemma assign_id (sets : list (string * option string)) (t : Task) :
  (∀ fv, fv ∈ sets → fv.1 ≠ "id") → id (assign sets t) = id t.
Proof.
  revert t. induction sets as [|[n v] sets IH]; intros t H; [done|].
  unfold assign in *. simpl. rewrite IH.
  - apply set_column_id. apply (H (n, v)). by left.
  - intros fv ?. apply H. by right.
Qed.

Lemma update_fields_elem (update_data : list (string * option string)) fv :
  fv ∈ update_fields update_data ↔
  fv ∈ update_data ∧ fv.1 ∈ columns ∧ fv.1 ≠ "id" ∧ fv.1 ≠ "created_at".
Proof.
  unfold update_fields. rewrite list_elem_of_filter.
  rewrite !not_elem_of_cons. split; [intros [(?&?&?&?) ?] | intros (?&?&?&?)]; repeat split; auto.
  apply not_elem_of_nil.
Qed.

Lemma sets_keep_id update_data now fv :
  fv ∈ update_fields update_data ++ [("updated_at", Some now)] → fv.1 ≠ "id".
Proof.
  intros [H|H]%elem_of_app.
  - by apply update_fields_elem in H as (_ & _ & ? & _).
  - apply list_elem_of_singleton in H as ->. done.
Qed.

Lemma find_fmap_if (task_id : string) (g : Task → Task) (db : table) :
  (∀ t, id (g t) = id t) →
  find (has_id task_id) ((λ t, if has_id task_id t then g t else t) <$> db)
  = g <$> find (has_id task_id) db.
Proof.
  intros Hg. induction db as [|x db IH]; [done|]. rewrite fmap_cons.
  cbn [find]. destruct (has_id task_id x) eqn:Hx.
  - unfold has_id in *. by rewrite Hg, Hx.
  - by rewrite Hx, IH.
Qed.

(** The three ways [update_task] of the database repository ends. *)
Lemma update_task_db_cases task_id now update_data (db : table) :
  let sets := update_fields update_data ++ [("updated_at", Some now)] in
  let db' := (λ t, if has_id task_id t then assign sets t else t) <$> db in
  update_task task_id now update_data db =
    match get_task task_id db with
    | None => (db, Returned None)
    | Some t =>
        if bool_decide (update_fields update_data = []) then (db, Returned None)
        else if forallb row_ok (filter (λ t, has_id task_id t = true) db')
        then (db', Returned (Some (assign sets t)))
        else (db, Raised DatabaseError)
    end.
Proof.
  intros sets db'. unfold update_task, get_task.
  destruct (find (has_id task_id) db) as [t|] eqn:Hf; [|done].
  destruct (update_fields update_data) as [|fv fvs] eqn:Hu; [done|].
  rewrite bool_decide_false by done. fold sets. fold db'.
  destruct (forallb row_ok _); [|done].
  unfold db'. rewrite find_fmap_if, Hf; [done|].
  intros u. apply assign_id. intros ? Hin. apply (sets_keep_id update_data now).
  by rewrite Hu.
Qed.
End update_db.




(** *** One field at a time *)

Lemma field_of_name_value (f : TaskPlanner.TaskField) :
  TaskPlanner.field_of_name (TaskPlanner.TaskField_value f) = Some f.
Proof. by destruct f. Qed.

Lemma getfield_setfield (t : TaskPlanner.Task) f v :
  TaskPlanner.getfield (TaskPlanner.setfield t f v) f = v.
Proof. by destruct f. Qed.

Lemma getfield_setfield_ne (t : TaskPlanner.Task) f g v :
  g ≠ f → TaskPlanner.getfield (TaskPlanner.setfield t f v) g = TaskPlanner.getfield t g.
Proof. by destruct f, g. Qed.

Lemma column_set_column (t : TodoApp.Task) name v :
  name ∈ TodoApp.columns → TodoApp.column (TodoApp.set_column t name v) name = v.
Proof.
  intros H. repeat (apply elem_of_cons in H as [->|H]; [reflexivity|]).
  by apply elem_of_nil in H.
Qed.

Lemma column_set_column_ne (t : TodoApp.Task) name g v :
  g ≠ name → TodoApp.column (TodoApp.set_column t name v) g = TodoApp.column t g.
Proof.
  intros Hg. unfold TodoApp.set_column.
  repeat match goal with
         | |- context [String.eqb name ?x] => destruct (String.eqb_spec name x) as [->|]
         end;
  unfold TodoApp.column;
  repeat match goal with
         | |- context [String.eqb g ?x] => destruct (String.eqb_spec g x) as [->|]
         end; done.
Qed.

Lemma find_split_nodup (task_id : string) (db : TodoApp.table) (t : TodoApp.Task) :
  NoDup (TodoApp.id <$> db) →
  find (TodoApp.has_id task_id) db = Some t →
  ∃ l1 l2, db = l1 ++ t :: l2 ∧ TodoApp.id t = Some task_id ∧
           ∀ u, u ∈ l1 ++ l2 → TodoApp.has_id task_id u = false.
Proof.
  induction db as [|x db IH]; [done|]. rewrite fmap_cons, NoDup_cons. intros [Hx Hnd].
  cbn [find]. destruct (TodoApp.has_id task_id x) eqn:Hid.
  - intros [= ->]. apply bool_decide_eq_true in Hid. exists [], db.
    split; [done|]. split; [done|]. intros u Hu. apply bool_decide_eq_false.
    intros Hu'. apply Hx. rewrite Hid, <- Hu'. by apply list_elem_of_fmap_2.
  - intros (l1 & l2 & -> & Ht & Hl)%IH; [|done]. exists (x :: l1), l2.
    split; [done|]. split; [done|].
    intros u [->|Hu]%elem_of_cons; [done | by apply Hl].
Qed.

Lemma fmap_if_untouched (task_id : string) (g : TodoApp.Task → TodoApp.Task)
  (l : list TodoApp.Task) :
  (∀ u, u ∈ l → TodoApp.has_id task_id u = false) →
  (λ t, if TodoApp.has_id task_id t then g t else t) <$> l = l.
Proof.
  induction l as [|x l IH]; intros H; [done|]. rewrite fmap_cons, IH.
  - rewrite (H x); [done | by left].
  - intros u ?. apply H. by right.
Qed.

Lemma filter_untouched (task_id : string) (l : list TodoApp.Task) :
  (∀ u, u ∈ l → TodoApp.has_id task_id u = false) →
  filter (λ t, TodoApp.has_id task_id t = true) l = [].
Proof.
  induction l as [|x l IH]; intros H; [done|]. rewrite filter_cons_False, IH; [done| |].
  - intros u ?. apply H. by right.
  - rewrite (H x); [done | by left].
Qed.

Lemma mutable_columns_spec (name : string) :
  name ∈ Spec.mutable_columns →
  name ∈ TodoApp.columns ∧ name ≠ "id" ∧ name ≠ "created_at" ∧ name ≠ "updated_at".
Proof.
  unfold Spec.mutable_columns. intros H.
  repeat (apply elem_of_cons in H as [->|H];
          [split; [apply list_elem_of_In; simpl; tauto
                  | repeat split; discriminate]|]).
  by apply elem_of_nil in H.
Qed.

(** C5, the counterexample.  The database repository is asked to set the
    single field [created_at] of an existing row: it answers absent and
    the row keeps its old value. *)
Lemma update_task_skips_created_at :
  let row := TodoApp.mkTask (Some "1") (Some "Buy milk") (Some EmptyString) (Some "pending")
               (Some "high") None None (Some "t0") (Some "t0") in
  TodoApp.get_task "1" [row] = Some row ∧
  TodoApp.update_task "1" "t1" [("created_at", Some "t9")] [row] = ([row], Returned None) ∧
  TodoApp.column row "created_at" ≠ Some "t9".
Proof. split; [reflexivity|]. split; [reflexivity|]. discriminate. Qed.

(** C5, as amended.  An update that supplies one of the fields title,
    description, priority, due_date, category, status of a task that is
    present sets that field to the value given and [updated_at] to the
    time of the call, keeps every other field of the task, and keeps every
    other task.  The CSV repository does so in memory also when the
    storage then fails to save, which it reports by raising.  The database
    repository, whose ids are distinct, does so when the new row meets the
    column constraints, and otherwise raises and changes nothing. *)
Theorem update_task_single_field :
  (∀ (W : Type) (storage : TaskPlanner.TaskStorage W) other_attr task_id now f v
     (r : TaskPlanner.repository) t,
      f ∈ Spec.mutable_fields →
      TaskPlanner.get_task task_id r = Some t →
      let t' := TaskPlanner.setfield (TaskPlanner.setfield t f v)
                  TaskPlanner.UPDATED_AT (Some now) in
      (∃ r' o l1 l2,
          TaskPlanner.update_task other_attr task_id now [(TaskPlanner.TaskField_value f, v)] r
          = Some (r', o)
          ∧ (o = Returned (Some t') ∨ o = Raised TaskPlanner.TaskPlannerError)
          ∧ TaskPlanner.tasks r = l1 ++ t :: l2
          ∧ TaskPlanner.tasks r' = l1 ++ t' :: l2)
      ∧ TaskPlanner.getfield t' f = v
      ∧ TaskPlanner.updated_at t' = Some now
      ∧ ∀ g, g ≠ f → g ≠ TaskPlanner.UPDATED_AT →
             TaskPlanner.getfield t' g = TaskPlanner.getfield t g) ∧
  (∀ task_id now name v (db : TodoApp.table) t,
      name ∈ Spec.mutable_columns →
      NoDup (TodoApp.id <$> db) →
      TodoApp.get_task task_id db = Some t →
      let t' := TodoApp.set_column (TodoApp.set_column t name v) "updated_at" (Some now) in
      (∃ l1 l2,
          db = l1 ++ t :: l2
          ∧ TodoApp.update_task task_id now [(name, v)] db
            = if TodoApp.row_ok t' then (l1 ++ t' :: l2, Returned (Some t'))
              else (db, Raised TodoApp.DatabaseError))
      ∧ TodoApp.column t' name = v
      ∧ TodoApp.updated_at t' = Some now
      ∧ ∀ g, g ≠ name → g ≠ "updated_at" → TodoApp.column t' g = TodoApp.column t g).
Proof.
  split.
  - intros W storage other_attr task_id now f v r t Hf Hget t'. split; [|split; [|split]].
    + destruct (update_task_found other_attr task_id now
                  [(TaskPlanner.TaskField_value f, v)] r t (TaskPlanner.setfield t f v) Hget)
        as (r' & o & Hu & Ht & Ho).
      { simpl. by rewrite field_of_name_value. }
      destruct (find_split _ _ _ Hget) as (l1 & l2 & Hl & _ & _ & Hrep).
      exists r', o, l1, l2. rewrite Ht, Hrep. done.
    + unfold t'. rewrite getfield_setfield_ne, getfield_setfield; [done|].
      intros ->. repeat (apply elem_of_cons in Hf as [Hf|Hf]; [done|]).
      by apply elem_of_nil in Hf.
    + reflexivity.
    + intros g Hg Hu. unfold t'. by rewrite !getfield_setfield_ne.
  - intros task_id now name v db t Hn Hnd Hget t'. split; [|split; [|split]].
    + destruct (find_split_nodup _ _ _ Hnd Hget) as (l1 & l2 & -> & Hid & Hl).
      exists l1, l2. split; [done|]. rewrite update_task_db_cases, Hget.
      assert (TodoApp.update_fields [(name, v)] = [(name, v)]) as ->.
      { repeat (apply elem_of_cons in Hn as [->|Hn]; [reflexivity|]).
        by apply elem_of_nil in Hn. }
      rewrite bool_decide_false by done. cbn [app]. unfold TodoApp.assign. cbn [foldl fst snd].
      rewrite fmap_app, fmap_cons, !fmap_if_untouched
        by (intros u Hu; apply Hl, elem_of_app; auto).
      assert (TodoApp.has_id task_id t = true) as ->
          by (unfold TodoApp.has_id; by apply bool_decide_eq_true).
      fold t'.
      assert (TodoApp.has_id task_id t' = true) as Ht'.
      { unfold TodoApp.has_id. apply bool_decide_eq_true.
        unfold t'. rewrite !set_column_id; [done| |done].
        by apply mutable_columns_spec. }
      rewrite filter_app, filter_cons_True by done.
      rewrite !filter_untouched by (intros u Hu; apply Hl, elem_of_app; auto).
      simpl. by rewrite andb_true_r.
    + unfold t'. rewrite column_set_column_ne, column_set_column; [done| |];
        by apply mutable_columns_spec.
    + reflexivity.
    + intros g Hg Hu. unfold t'. by rewrite !column_set_column_ne.
Qed.

Lemma update_task_single_field_witness :
  let other := λ name : string, if String.eqb name "to_dict" then Some Py.VObject else None in
  let t := TaskPlanner.mkTask (Some "1") (Some "Buy milk") (Some EmptyString) (Some "high")
             (Some "2099-01-01") (Some "home") (Some "t0") (Some "t0") (Some "pending") in
  let r := TaskPlanner.Repository [t] (∅ : FS.filesystem) in
  let t' := TaskPlanner.setfield (TaskPlanner.setfield t TaskPlanner.STATUS (Some "completed"))
              TaskPlanner.UPDATED_AT (Some "t1") in
  TaskPlanner.STATUS ∈ Spec.mutable_fields ∧
  TaskPlanner.get_task "1" r = Some t ∧
  TaskPlanner.getfield t' TaskPlanner.STATUS = Some "completed" ∧
  TaskPlanner.updated_at t' = Some "t1" ∧
  ∀ g, g ≠ TaskPlanner.STATUS → g ≠ TaskPlanner.UPDATED_AT →
       TaskPlanner.getfield t' g = TaskPlanner.getfield t g.
Proof.
  intros other t r t'.
  assert (TaskPlanner.STATUS ∈ Spec.mutable_fields) as H1
      by (apply list_elem_of_In; simpl; tauto).
  assert (TaskPlanner.get_task "1" r = Some t) as H2 by reflexivity.
  split; [exact H1|]. split; [exact H2|].
  exact (proj2 (proj1 update_task_single_field _ (TaskPlanner.CSVTaskStorage "tasks.csv")
                  other "1" "t1" TaskPlanner.STATUS (Some "completed") r t H1 H2)).
Defined.

(** *** Identifier and creation time under [update_task] of the CSV
    repository *)

(** C4, the code at the failing input.  Two tasks are created with the
    ids [a] and [b].  Updating [b] with the field [id] set to [a] is
    accepted: the task's id changes and two tasks now share an id.
    Updating [a] with a later [created_at] is accepted as well, and leaves
    [updated_at] before [created_at]. *)
Lemma update_task_rewrites_id_and_created_at :
  let storage := TaskPlanner.CSVTaskStorage "tasks.csv" in
  let other := λ name : string, if String.eqb name "to_dict" then Some Py.VObject else None in
  let r0 := TaskPlanner.Repository [] (∅ : FS.filesystem) in
  let r1 := (TaskPlanner.create_task "a" "2024-01-01T10:00:00" [("title", Some "one")] r0).1 in
  let r2 := (TaskPlanner.create_task "b" "2024-01-01T11:00:00" [("title", Some "two")] r1).1 in
  TaskPlanner.id <$> TaskPlanner.tasks r2 = [Some "a"; Some "b"] ∧
  (∃ r3 t,
      TaskPlanner.update_task other "b" "2024-01-01T12:00:00" [("id", Some "a")] r2
      = Some (r3, Returned (Some t))
      ∧ TaskPlanner.id <$> TaskPlanner.tasks r3 = [Some "a"; Some "a"]) ∧
  (∃ r3 t,
      TaskPlanner.update_task other "a" "2024-01-01T12:00:00"
        [("created_at", Some "2999-01-01T00:00:00")] r2
      = Some (r3, Returned (Some t))
      ∧ TaskPlanner.get_task "a" r3 = Some t
      ∧ TaskPlanner.created_at t = Some "2999-01-01T00:00:00"
      ∧ TaskPlanner.updated_at t = Some "2024-01-01T12:00:00"
      ∧ String.ltb "2024-01-01T12:00:00" "2999-01-01T00:00:00" = true).
Proof.
  split; [reflexivity|]. split.
  - eexists _, _. split; [vm_compute; reflexivity | reflexivity].
  - eexists _, _. split; [vm_compute; reflexivity|]. repeat split.
Qed.

(** ** Saving *)

Section run.
Import FS.

Lemma run_app (s1 s2 : script) (fs : filesystem) :
  run (s1 ++ s2) fs = match run s1 fs with
                      | (fs', None) => run s2 fs'
                      | (fs', Some e) => (fs', Some e)
                      end.
Proof.
  revert fs. induction s1 as [|step s1 IH]; intros fs; [done|].
  simpl. destruct (step fs); [apply IH | done].
Qed.

(** A property of the file system that every call of a script keeps is
    kept by running it, to the end or up to a failure. *)
Lemma run_invariant (P : filesystem → Prop) (steps : script) (fs : filesystem) :
  (∀ step fs1 fs2, step ∈ steps → P fs1 → step fs1 = Returned fs2 → P fs2) →
  P fs → P (run steps fs).1.
Proof.
  revert fs. induction steps as [|step steps IH]; intros fs Hstep HP; [done|].
  simpl. destruct (step fs) as [fs'|e] eqn:Hs; [|done].
  apply IH.
  - intros st fs1 fs2 Hin. apply Hstep. by right.
  - eapply Hstep; [by left | exact HP | exact Hs].
Qed.

Lemma tmp_ne (path : string) : path ≠ path +:+ ".tmp".
Proof.
  intros H. apply (f_equal String.length) in H. rewrite app_length in H. simpl in H. lia.
Qed.
End run.

Section csv_save.
Import FS TaskPlanner.
Variable file_path : string.

Lemma dict_to_list_to_dict (task : Task) :
  Csv.dict_to_list fieldnames (to_dict task) = Some (task_row task).
Proof. reflexivity. Qed.

Lemma write_task_file (path : string) (task : Task) (fs : filesystem) (c : string) :
  fs !! path = Some (File c) →
  write_task path task fs = Returned (<[path := File (c +:+ Csv.writerow (task_row task))]> fs).
Proof. intros H. unfold write_task. rewrite dict_to_list_to_dict. unfold write. by rewrite H. Qed.

Lemma run_write_tasks (path : string) (tasks : list Task) (fs : filesystem) (c : string) :
  fs !! path = Some (File c) →
  run (write_task path <$> tasks) fs = (<[path := File (c +:+ rows_text tasks)]> fs, None).
Proof.
  revert fs c. induction tasks as [|t tasks IH]; intros fs c H.
  - simpl. by rewrite app_nil_r, insert_id.
  - rewrite fmap_cons. cbn [run]. rewrite (write_task_file _ _ _ _ H).
    rewrite (IH _ (c +:+ Csv.writerow (task_row t))) by apply lookup_insert_eq.
    by rewrite insert_insert_eq, app_assoc.
Qed.


Lemma staging_off_temp (tasks : list Task) (fs0 : filesystem) step fs1 fs2 :
  step ∈ [open_w (temp_file file_path); write_header (temp_file file_path)]
           ++ (write_task (temp_file file_path) <$> tasks) →
  off_temp file_path fs0 fs1 → step fs1 = Returned fs2 → off_temp file_path fs0 fs2.
Proof.
  intros Hin Hoff Hstep p Hp. rewrite <- (Hoff p Hp).
  assert (∃ c, fs2 = <[temp_file file_path := File c]> fs1) as [c ->];
    [|by rewrite lookup_insert_ne].
  apply elem_of_app in Hin as [Hin|Hin].
  - apply elem_of_cons in Hin as [->|Hin].
    + unfold open_w in Hstep. destruct (fs1 !! _) as [[]|]; simplify_eq; eauto.
    + apply list_elem_of_singleton in Hin as ->. unfold write_header, write in Hstep.
      destruct (fs1 !! _) as [[]|]; simplify_eq; eauto.
  - apply list_elem_of_fmap in Hin as (t & -> & _). unfold write_task in Hstep.
    rewrite dict_to_list_to_dict in Hstep. unfold write in Hstep.
    destruct (fs1 !! _) as [[]|]; simplify_eq; eauto.
Qed.

(** [save_tasks] of the CSV storage, outcome by outcome. *)
Lemma csv_save_tasks_spec (tasks : list Task) (fs : filesystem) :
  csv_save_tasks file_path tasks fs =
    match fs !! temp_file file_path, fs !! file_path with
    | Some Dir, _ => (fs, Raised TaskPlannerError)
    | _, Some Dir =>
        (<[temp_file file_path := File (csv_text tasks)]> fs, Raised TaskPlannerError)
    | _, _ =>
        (<[file_path := File (csv_text tasks)]> (delete (temp_file file_path) fs), Returned ())
    end.
Proof.
  unfold csv_save_tasks, save_tasks_script.
  change ([open_w (temp_file file_path); write_header (temp_file file_path)]
            ++ (write_task (temp_file file_path) <$> tasks) ++ [install file_path])
    with (open_w (temp_file file_path) :: write_header (temp_file file_path)
            :: ((write_task (temp_file file_path) <$> tasks) ++ [install file_path])).
  cbn [run]. unfold open_w at 1.
  assert (∀ n : option node, n ≠ Some Dir →
            fs !! temp_file file_path = n →
            (let '(fs', e) := run (write_header (temp_file file_path)
                        :: ((write_task (temp_file file_path) <$> tasks) ++ [install file_path]))
                       (<[temp_file file_path := File EmptyString]> fs) in
             match e with
             | None => (fs', Returned ())
             | Some _ => (fs', Raised TaskPlannerError)
             end)
            = match fs !! file_path with
              | Some Dir =>
                  (<[temp_file file_path := File (csv_text tasks)]> fs, Raised TaskPlannerError)
              | _ => (<[file_path := File (csv_text tasks)]> (delete (temp_file file_path) fs),
                      Returned ())
              end) as Hrest.
  { intros n Hn Hfs. cbn [run]. unfold write_header, write at 1.
    rewrite lookup_insert_eq, insert_insert_eq, app_nil_l, run_app.
    rewrite (run_write_tasks _ _ _ (Csv.writeheader fieldnames)) by apply lookup_insert_eq.
    rewrite insert_insert_eq. fold (csv_text tasks). cbn [run]. unfold install, exists_.
    rewrite lookup_insert_ne by (apply not_eq_sym, tmp_ne).
    unfold rename, replace. rewrite lookup_insert_eq.
    rewrite lookup_insert_ne by (apply not_eq_sym, tmp_ne).
    rewrite delete_insert_eq.
    destruct (fs !! file_path) as [[]|]; done. }
  destruct (fs !! temp_file file_path) as [[c|]|] eqn:Ht.
  - rewrite <- (Hrest (Some (File c))); [|done..]. reflexivity.
  - done.
  - rewrite <- (Hrest None); [|done..]. reflexivity.
Qed.
End csv_save.

Section atomic_save.
Import FS TaskPlanner.

Lemma csv_save_tasks_run (file_path : string) (tasks : list Task) (fs : filesystem) :
  (csv_save_tasks file_path tasks fs).1 = (run (save_tasks_script file_path tasks) fs).1.
Proof. unfold csv_save_tasks. by destruct (run _ _) as [? []]. Qed.

Lemma csv_load_tasks_ext (file_path : string) (fs1 fs2 : filesystem) :
  fs1 !! file_path = fs2 !! file_path →
  csv_load_tasks file_path fs1 = csv_load_tasks file_path fs2.
Proof. intros H. unfold csv_load_tasks, exists_, read. by rewrite H. Qed.

(** Before its last call, [save_tasks] has not touched the canonical
    file. *)
Lemma interrupted_before_install (file_path : string) (tasks : list Task) (fs : filesystem) k :
  k < length (save_tasks_script file_path tasks) →
  interrupted k (save_tasks_script file_path tasks) fs !! file_path = fs !! file_path.
Proof.
  intros Hk. unfold interrupted, save_tasks_script in *.
  rewrite (assoc_L (++)) in *. rewrite !length_app in Hk. simpl in Hk.
  rewrite take_app_le by (rewrite length_app; simpl; lia).
  apply (run_invariant (off_temp file_path fs)).
  - intros step fs1 fs2 Hin. apply (staging_off_temp file_path tasks).
    apply elem_of_take in Hin as (i & Hi & _). by eapply list_elem_of_lookup_2.
  - by intros p.
  - apply tmp_ne.
Qed.

(** C1, the counterexample.  The contact manager saves two contacts over
    a database file that holds one: killed after the file is opened, it
    leaves an empty file, which is neither the old document nor the new
    one, and which [_load_contacts] refuses. *)
Lemma save_contacts_interrupted :
  let old := [Contacts.contact "Ann" "+1 555 0100" "ann@example.org"] in
  let new := old ++ [Contacts.contact "Bob" "+1 555 0101" "bob@example.org"] in
  let fs : filesystem := {[ "contacts.json" := File (Json.dumps (Json.Arr old)) ]} in
  let fs' := interrupted 1 (Contacts.save_contacts_script "contacts.json" new) fs in
  fs' !! "contacts.json" = Some (File EmptyString) ∧
  fs' !! "contacts.json" ≠ fs !! "contacts.json" ∧
  fs' !! "contacts.json" ≠ Some (File (Json.dumps (Json.Arr new))) ∧
  Contacts.load_contacts "contacts.json" fs = Some (fs, Returned old) ∧
  Contacts.load_contacts "contacts.json" fs' = Some (fs', Raised Contacts.DatabaseError).
Proof.
  split; [reflexivity|]. split; [by vm_compute|]. split; [by vm_compute|].
  split; reflexivity.
Qed.

(** C1, as amended.  [save_tasks] of the CSV storage writes the tasks to
    the temporary file and installs it with one rename as its last call:
    killed before that call it leaves the canonical file as it was, so
    that at any point the canonical file is the old one or the complete
    new one, and [load_tasks] reads the old or the new state; a save that
    returns has installed the new text.  [_save_contacts] of the contact
    manager has no temporary file: it opens the canonical file for
    writing, and killed right after that it leaves the file empty. *)
Theorem save_tasks_atomic :
  (∀ file_path tasks (fs : filesystem) k,
      let script := save_tasks_script file_path tasks in
      let fs' := interrupted k script fs in
      (k < length script → fs' !! file_path = fs !! file_path) ∧
      (fs' !! file_path = fs !! file_path ∨
       fs' !! file_path = Some (File (csv_text tasks))) ∧
      (csv_load_tasks file_path fs' = csv_load_tasks file_path fs ∨
       csv_load_tasks file_path fs'
       = csv_load_tasks file_path (<[file_path := File (csv_text tasks)]> fs))) ∧
  (∀ file_path tasks (fs : filesystem),
      (csv_save_tasks file_path tasks fs).2 = Returned () →
      (csv_save_tasks file_path tasks fs).1 !! file_path = Some (File (csv_text tasks))) ∧
  (∀ path l (fs : filesystem),
      fs !! path ≠ Some Dir →
      interrupted 1 (Contacts.save_contacts_script path l) fs !! path
      = Some (File EmptyString)).
Proof.
  split; [|split].
  - intros file_path tasks fs k script fs'.
    assert (fs' !! file_path = fs !! file_path ∨
            fs' !! file_path = Some (File (csv_text tasks))) as Hcases.
    { destruct (decide (k < length script)) as [Hk|Hk].
      - left. by apply interrupted_before_install.
      - unfold fs', interrupted. rewrite take_ge by lia. unfold script.
        rewrite <- csv_save_tasks_run, csv_save_tasks_spec.
        destruct (fs !! temp_file file_path) as [[]|], (fs !! file_path) as [[]|] eqn:Hp;
          simpl; rewrite ?lookup_insert_eq, ?Hp; auto.
        all: left; by rewrite lookup_insert_ne by (apply not_eq_sym, tmp_ne). }
    split; [by apply interrupted_before_install|]. split; [exact Hcases|].
    destruct Hcases as [H|H]; [left|right]; apply csv_load_tasks_ext; [done|].
    by rewrite lookup_insert_eq.
  - intros file_path tasks fs. rewrite csv_save_tasks_spec.
    destruct (fs !! temp_file file_path) as [[]|], (fs !! file_path) as [[]|];
      simpl; try done; intros _; apply lookup_insert_eq.
  - intros path l fs Hp. unfold interrupted. simpl. unfold open_w.
    destruct (fs !! path) as [[]|]; simpl; try done; apply lookup_insert_eq.
Qed.
End atomic_save.

Lemma save_tasks_atomic_witness :
  let t := TaskPlanner.mkTask (Some "1") (Some "Buy milk") (Some EmptyString) (Some "high")
             (Some "2099-01-01") (Some "home") (Some "t0") (Some "t0") (Some "pending") in
  (TaskPlanner.csv_save_tasks "tasks.csv" [t] ∅).2 = Returned () ∧
  (TaskPlanner.csv_save_tasks "tasks.csv" [t] ∅).1 !! "tasks.csv"
  = Some (FS.File (TaskPlanner.csv_text [t])).
Proof.
  intros t.
  assert ((TaskPlanner.csv_save_tasks "tasks.csv" [t] ∅).2 = Returned ()) as H by reflexivity.
  split; [exact H|].
  exact (proj1 (proj2 save_tasks_atomic) "tasks.csv" [t] ∅ H).
Defined.

(** ** A save that fails *)

(** C7, the counterexample.  The temporary file name is taken by a
    directory, so [save_tasks] raises.  [create_task] passes the failure
    on, and the task it appended stays in the cache. *)
Lemma create_task_not_rolled_back :
  let storage := TaskPlanner.CSVTaskStorage "tasks.csv" in
  let fs : FS.filesystem := {[ "tasks.csv.tmp" := FS.Dir ]} in
  let r := TaskPlanner.Repository [] fs in
  let result := TaskPlanner.create_task "a" "2024-01-01T10:00:00" [("title", Some "one")] r in
  result.2 = Raised TaskPlanner.TaskPlannerError ∧
  TaskPlanner.tasks result.1 = [TaskPlanner.new_task "a" "2024-01-01T10:00:00"
                                  [("title", Some "one")]] ∧
  TaskPlanner.tasks result.1 ≠ TaskPlanner.tasks r ∧
  TaskPlanner.load_tasks (TaskPlanner.world result.1) = Returned [].
Proof. split; [reflexivity|]. split; [reflexivity|]. split; [discriminate | reflexivity]. Qed.

(** C7, as amended.  When the storage's save raises, [create_task],
    [update_task] and [delete_task] of the CSV repository raise the same
    error, and [add_contact] and [delete_contact] of the contact manager
    raise [DatabaseError]; the cache is not rolled back: it holds the
    appended, changed or shortened list. *)
Theorem save_failure_reported_not_rolled_back :
  (∀ (W : Type) (storage : TaskPlanner.TaskStorage W) other_attr (r : TaskPlanner.repository) e,
      (∀ ts, (TaskPlanner.save_tasks ts (TaskPlanner.world r)).2 = Raised e) →
      (∀ task_id now task_data,
          ∃ r', TaskPlanner.create_task task_id now task_data r = (r', Raised e)
                ∧ TaskPlanner.tasks r'
                  = TaskPlanner.tasks r ++ [TaskPlanner.new_task task_id now task_data]) ∧
      (∀ task_id now update_data t t1,
          TaskPlanner.get_task task_id r = Some t →
          TaskPlanner.apply_update other_attr update_data t = Some t1 →
          ∃ r', TaskPlanner.update_task other_attr task_id now update_data r
                = Some (r', Raised e)
                ∧ TaskPlanner.tasks r'
                  = TaskPlanner.replace_first task_id
                      (TaskPlanner.setfield t1 TaskPlanner.UPDATED_AT (Some now))
                      (TaskPlanner.tasks r)) ∧
      (∀ task_id t,
          TaskPlanner.get_task task_id r = Some t →
          ∃ r', TaskPlanner.delete_task task_id r = (r', Raised e)
                ∧ TaskPlanner.tasks r'
                  = filter (λ t, TaskPlanner.id t ≠ Some task_id) (TaskPlanner.tasks r))) ∧
  (∀ (m : Contacts.ContactManager) (fs : FS.filesystem),
      fs !! Contacts.db_path m = Some FS.Dir →
      (∀ name phone email,
          Contacts.validate_contact (Json.Str name) (Json.Str phone) (Json.Str email)
          = Returned () →
          Contacts.find_contact_index name m = Returned None →
          Contacts.add_contact name phone email m fs
          = (Contacts.Manager (Contacts.db_path m)
               (Contacts.contacts m ++ [Contacts.contact name phone email]),
             fs, Raised Contacts.DatabaseError)) ∧
      (∀ name index,
          Contacts.find_contact_index name m = Returned (Some index) →
          Contacts.delete_contact name m fs
          = (Contacts.Manager (Contacts.db_path m) (delete index (Contacts.contacts m)),
             fs, Raised Contacts.DatabaseError))).
Proof.
  split.
  - intros W storage other_attr r e Hfail. split; [|split].
    + intros task_id now task_data. unfold TaskPlanner.create_task, TaskPlanner.repo_save_tasks.
      simpl. specialize (Hfail (TaskPlanner.tasks r ++ [TaskPlanner.new_task task_id now task_data])).
      destruct (TaskPlanner.save_tasks _ _) as [w' o]. simpl in Hfail. subst o. eauto.
    + intros task_id now update_data t t1 Hget Ha.
      unfold TaskPlanner.get_task in Hget.
      unfold TaskPlanner.update_task, TaskPlanner.repo_save_tasks. rewrite Hget, Ha. simpl.
      specialize (Hfail (TaskPlanner.replace_first task_id
                           (TaskPlanner.setfield t1 TaskPlanner.UPDATED_AT (Some now))
                           (TaskPlanner.tasks r))).
      destruct (TaskPlanner.save_tasks _ _) as [w' o]. simpl in Hfail. subst o. eauto.
    + intros task_id t Hget. unfold TaskPlanner.get_task in Hget.
      destruct (find_split _ _ _ Hget) as (l1 & l2 & Hl & Hid & _).
      unfold TaskPlanner.delete_task, TaskPlanner.repo_save_tasks. simpl.
      assert (length (filter (λ t, TaskPlanner.id t ≠ Some task_id) (TaskPlanner.tasks r))
              < length (TaskPlanner.tasks r)) as Hlt.
      { apply (length_filter_lt _ _ t); [|by intros H; apply H].
        rewrite Hl. apply elem_of_app. right. by left. }
      apply Nat.ltb_lt in Hlt. rewrite Hlt.
      specialize (Hfail (filter (λ t, TaskPlanner.id t ≠ Some task_id) (TaskPlanner.tasks r))).
      destruct (TaskPlanner.save_tasks _ _) as [w' o]. simpl in Hfail. subst o. eauto.
  - intros m fs Hdir. split.
    + intros name phone email Hv Hf. unfold Contacts.add_contact. rewrite Hv, Hf.
      unfold Contacts.save_contacts. simpl. unfold FS.open_w. by rewrite Hdir.
    + intros name index Hf. unfold Contacts.delete_contact. rewrite Hf.
      unfold Contacts.save_contacts. simpl. unfold FS.open_w. by rewrite Hdir.
Qed.

Lemma save_failure_reported_not_rolled_back_witness :
  let m := Contacts.Manager "contacts.json" [] in
  let fs : FS.filesystem := {[ "contacts.json" := FS.Dir ]} in
  fs !! Contacts.db_path m = Some FS.Dir ∧
  Contacts.validate_contact (Json.Str "Ann") (Json.Str "+1 555 0100")
    (Json.Str "ann@example.org") = Returned () ∧
  Contacts.find_contact_index "Ann" m = Returned None ∧
  Contacts.add_contact "Ann" "+1 555 0100" "ann@example.org" m fs
  = (Contacts.Manager "contacts.json" [Contacts.contact "Ann" "+1 555 0100" "ann@example.org"],
     fs, Raised Contacts.DatabaseError).
Proof.
  intros m fs.
  assert (fs !! Contacts.db_path m = Some FS.Dir) as H1 by reflexivity.
  assert (Contacts.validate_contact (Json.Str "Ann") (Json.Str "+1 555 0100")
            (Json.Str "ann@example.org") = Returned ()) as H2 by reflexivity.
  assert (Contacts.find_contact_index "Ann" m = Returned None) as H3 by reflexivity.
  split; [exact H1|]. split; [exact H2|]. split; [exact H3|].
  exact (proj1 (proj2 save_failure_reported_not_rolled_back m fs H1) _ _ _ H2 H3).
Defined.

(** ** Creating next to equal values *)

Lemma find_from_spec (i : nat) (name_lower : string) (l : list Json.value) :
  Forall (λ c, ∃ n, Contacts.getitem c "name" = Returned (Json.Str n)) l →
  (Contacts.find_from i name_lower l = Returned None ∧
   ∀ c n, c ∈ l → Contacts.getitem c "name" = Returned (Json.Str n) → Py.lower n ≠ name_lower)
  ∨ (∃ j c n, Contacts.find_from i name_lower l = Returned (Some j) ∧ c ∈ l ∧
              Contacts.getitem c "name" = Returned (Json.Str n) ∧ Py.lower n = name_lower).
Proof.
  intros Hwf. revert i. induction Hwf as [|c l [n Hn] _ IH]; intros i.
  - left. split; [done|]. by intros ?? ?%elem_of_nil.
  - simpl. rewrite Hn. destruct (String.eqb_spec (Py.lower n) name_lower) as [Heq|Hne].
    + right. exists i, c, n. split; [done|]. split; [by left|done].
    + destruct (IH (S i)) as [[Hf Hall]|(j & c' & n' & Hf & Hin & Hn' & Hl)].
      * left. split; [done|]. intros c' n' [->|Hin]%elem_of_cons Hn'; [|by eauto].
        rewrite Hn in Hn'. by simplify_eq.
      * right. exists j, c', n'. split; [done|]. split; [by right|done].
Qed.

(** C9, the counterexample.  A contact named [Ann] is stored; adding a
    contact with the name [ANN], another phone number and another address
    raises [ContactExistsError] and stores nothing. *)
Lemma add_contact_rejects_known_name :
  let m := Contacts.Manager "contacts.json"
             [Contacts.contact "Ann" "+1 555 0100" "ann@example.org"] in
  Contacts.validate_contact (Json.Str "ANN") (Json.Str "+1 555 0199")
    (Json.Str "other@example.org") = Returned () ∧
  Contacts.add_contact "ANN" "+1 555 0199" "other@example.org" m ∅
  = (m, ∅, Raised Contacts.ContactExistsError).
Proof. split; reflexivity. Qed.

(** C9, as amended.  Creating a task never looks at the fields of the
    tasks already present.  In the CSV repository [create_task] returns
    exactly when the file can be written (neither the temporary name nor
    the canonical name is a directory); in the database repository exactly
    when the new row meets the column constraints and its id is not taken.
    The contact manager does constrain one field: [add_contact] of a valid
    contact raises [ContactExistsError] when a stored contact has the same
    name up to case, and otherwise, the file being writable, returns,
    whatever the phone numbers and addresses stored. *)
Theorem create_uniqueness :
  (∀ file_path task_id now task_data (r : TaskPlanner.repository (W:=FS.filesystem)),
      is_returned (TaskPlanner.create_task (storage:=TaskPlanner.CSVTaskStorage file_path)
                     task_id now task_data r).2 = true ↔
      TaskPlanner.world r !! TaskPlanner.temp_file file_path ≠ Some FS.Dir ∧
      TaskPlanner.world r !! file_path ≠ Some FS.Dir) ∧
  (∀ task_id now task_data (db : TodoApp.table),
      is_returned (TodoApp.create_task task_id now task_data db).2 = true ↔
      TodoApp.row_ok (TodoApp.new_task task_id now task_data) = true ∧
      Some task_id ∉ TodoApp.id <$> db) ∧
  (∀ name phone email (m : Contacts.ContactManager) (fs : FS.filesystem),
      Contacts.validate_contact (Json.Str name) (Json.Str phone) (Json.Str email)
      = Returned () →
      Forall (λ c, ∃ n, Contacts.getitem c "name" = Returned (Json.Str n))
        (Contacts.contacts m) →
      ((∃ c n, c ∈ Contacts.contacts m ∧ Contacts.getitem c "name" = Returned (Json.Str n)
               ∧ Py.lower n = Py.lower name) →
       Contacts.add_contact name phone email m fs
       = (m, fs, Raised Contacts.ContactExistsError)) ∧
      ((∀ c n, c ∈ Contacts.contacts m → Contacts.getitem c "name" = Returned (Json.Str n) →
               Py.lower n ≠ Py.lower name) →
       fs !! Contacts.db_path m ≠ Some FS.Dir →
       (Contacts.add_contact name phone email m fs).2 = Returned ())).
Proof.
  split; [|split].
  - intros file_path task_id now task_data r.
    unfold TaskPlanner.create_task, TaskPlanner.repo_save_tasks. simpl.
    rewrite csv_save_tasks_spec.
    destruct (TaskPlanner.world r !! TaskPlanner.temp_file file_path) as [[]|],
             (TaskPlanner.world r !! file_path) as [[]|]; simpl; split; try done.
    all: by intros [? ?].
  - intros task_id now task_data db. unfold TodoApp.create_task, TodoApp.insert.
    destruct (TodoApp.row_ok _); simpl; [|by split; [|intros [? ?]]].
    case_bool_decide as Hin; simpl.
    + split; [done|]. intros [_ H]. by destruct Hin as [_ Hin].
    + split; [|done]. intros _. split; [done|]. intros H. apply Hin. by split.
  - intros name phone email m fs Hv Hwf. unfold Contacts.add_contact. rewrite Hv.
    unfold Contacts.find_contact_index.
    destruct (find_from_spec 0 (Py.lower name) _ Hwf)
      as [[Hf Hall]|(j & c & n & Hf & Hin & Hn & Hl)]; rewrite Hf; split.
    + intros (c & n & Hin & Hn & Hl). by destruct (Hall c n).
    + intros _ Hp. unfold Contacts.save_contacts. simpl. unfold FS.open_w.
      destruct (fs !! Contacts.db_path m) as [[]|] eqn:Hd; try done.
      all: simpl; unfold FS.write; by rewrite lookup_insert_eq.
    + done.
    + intros Hall. by destruct (Hall c n).
Qed.

Lemma create_uniqueness_witness :
  let m := Contacts.Manager "contacts.json"
             [Contacts.contact "Ann" "+1 555 0100" "ann@example.org"] in
  Contacts.validate_contact (Json.Str "Bob") (Json.Str "+1 555 0100")
    (Json.Str "ann@example.org") = Returned () ∧
  (Contacts.add_contact "Bob" "+1 555 0100" "ann@example.org" m ∅).2 = Returned ().
Proof.
  intros m.
  assert (Contacts.validate_contact (Json.Str "Bob") (Json.Str "+1 555 0100")
            (Json.Str "ann@example.org") = Returned ()) as Hv by reflexivity.
  split; [exact Hv|].
  apply (proj2 (proj2 (proj2 create_uniqueness) "Bob" "+1 555 0100" "ann@example.org" m ∅ Hv
                  ltac:(repeat constructor; by eexists))).
  - intros c n [->|[]%elem_of_nil]%elem_of_cons [= <-]. discriminate.
  - rewrite lookup_empty. discriminate.
Defined.

(** ** Backups *)

(** *** Sorting names, newest first *)

Section newest_first.

Local Instance flip_le_trans : Transitive (flip String.le).
Proof. intros x y z Hxy Hyz. unfold flip in *. by etrans. Qed.

Local Instance flip_le_antisym : AntiSymm (=) (flip String.le).
Proof. intros x y Hxy Hyx. unfold flip in *. by apply (anti_symm String.le). Qed.

Local Instance flip_le_total : Total (flip String.le).
Proof. intros x y. unfold flip. destruct (total String.le x y); auto. Qed.

Lemma newest_first_perm (l : list string) : Spec.newest_first l ≡ₚ l.
Proof. apply merge_sort_Permutation. Qed.

Lemma newest_first_sorted (l : list string) : Sorted (flip String.le) (Spec.newest_first l).
Proof. apply (Sorted_merge_sort _). Qed.

Lemma newest_first_proper (l1 l2 : list string) :
  l1 ≡ₚ l2 → Spec.newest_first l1 = Spec.newest_first l2.
Proof.
  intros H. apply (Sorted_unique (flip String.le)); try apply newest_first_sorted.
  by rewrite !newest_first_perm.
Qed.


Lemma insert_name_perm (x : string) (l : list string) : insert_name x l ≡ₚ x :: l.
Proof.
  induction l as [|y l IH]; [done|]. simpl. case_decide; [done|].
  by rewrite IH, Permutation_swap.
Qed.

Lemma insert_name_sorted (x : string) (l : list string) :
  Sorted (flip String.le) l → Sorted (flip String.le) (insert_name x l).
Proof.
  induction 1 as [|y l Hs IH Hhd]; simpl.
  - by repeat constructor.
  - case_decide as Hyx.
    + constructor; [by constructor|]. by constructor.
    + constructor; [done|].
      assert (String.le x y) as Hxy by (destruct (total String.le x y); done).
      destruct Hhd as [|z l Hzy]; simpl; [by constructor|].
      case_decide; by constructor.
Qed.

Lemma newest_first_cons (x : string) (l : list string) :
  Spec.newest_first (x :: l) = insert_name x (Spec.newest_first l).
Proof.
  apply (Sorted_unique (flip String.le)).
  - apply newest_first_sorted.
  - apply insert_name_sorted, newest_first_sorted.
  - by rewrite insert_name_perm, !newest_first_perm.
Qed.

Lemma take_insert_take (n : nat) (x : string) (l : list string) :
  take n (insert_name x (take n l)) = take n (insert_name x l).
Proof.
  revert n. induction l as [|y l IH]; intros [|n]; try done.
  simpl. case_decide.
  - simpl. f_equal. change (y :: take n l) with (take (S n) (y :: l)).
    rewrite take_take. f_equal. lia.
  - simpl. by rewrite IH.
Qed.

Lemma sorted_take (n : nat) (l : list string) :
  Sorted (flip String.le) l → Sorted (flip String.le) (take n l).
Proof.
  intros Hs. revert n. induction Hs as [|y l Hs IH Hhd]; intros [|n]; simpl; try by constructor.
  constructor; [apply IH|]. destruct Hhd; destruct n; simpl; by constructor.
Qed.

(** The newest [n] of a name together with the newest [n] of a list are
    the newest [n] of the whole. *)
Lemma newest_take_cons (n : nat) (x : string) (l : list string) :
  take n (Spec.newest_first (x :: take n (Spec.newest_first l)))
  = take n (Spec.newest_first (x :: l)).
Proof.
  rewrite !newest_first_cons.
  assert (Spec.newest_first (take n (Spec.newest_first l)) = take n (Spec.newest_first l))
    as ->.
  { apply (Sorted_unique (flip String.le)).
    - apply newest_first_sorted.
    - apply sorted_take, newest_first_sorted.
    - apply newest_first_perm. }
  apply take_insert_take.
Qed.
End newest_first.

(** *** The policy on a directory *)

Section retention_generic.
Context {A : Type}.
Variable prefix : string.
Variable N : nat.

Abbreviation names := (Spec.backup_names (A:=A) prefix).

Lemma prefix_app (s t : string) : String.prefix s (s +:+ t) = true.
Proof.
  induction s as [|c s IH]; [by destruct t|].
  rewrite app_cons. simpl. destruct (ascii_dec c c); [exact IH | done].
Qed.

Lemma elem_of_names (dir : gmap string A) (k : string) :
  k ∈ names dir ↔ String.prefix prefix k = true ∧ is_Some (dir !! k).
Proof.
  unfold Spec.backup_names. rewrite list_elem_of_filter, list_elem_of_fmap.
  apply and_iff_compat_l. split.
  - intros ([k' v] & -> & Hin). apply elem_of_map_to_list in Hin. by exists v.
  - intros [v Hv]. exists (k, v). split; [done|]. by apply elem_of_map_to_list.
Qed.

Lemma NoDup_names (dir : gmap string A) : NoDup (names dir).
Proof. apply NoDup_filter, NoDup_fst_map_to_list. Qed.

Lemma names_insert_fresh (dir : gmap string A) (k : string) (v : A) :
  String.prefix prefix k = true → dir !! k = None →
  names (<[k := v]> dir) ≡ₚ k :: names dir.
Proof.
  intros Hp Hk. apply NoDup_Permutation.
  - apply NoDup_names.
  - apply NoDup_cons. split; [|apply NoDup_names].
    rewrite elem_of_names, Hk. by intros [_ [? ?]].
  - intros x. rewrite elem_of_cons, !elem_of_names. destruct (decide (x = k)) as [->|Hx].
    + rewrite lookup_insert_eq. split; [by left | by intros _; eauto].
    + rewrite lookup_insert_ne by done. split; [by right | by intros [?|?]].
Qed.

Lemma lookup_foldl_delete (dir : gmap string A) (l : list string) (k : string) :
  foldl (λ d name, delete name d) dir l !! k = if decide (k ∈ l) then None else dir !! k.
Proof.
  revert dir. induction l as [|x l IH]; intros dir; cbn [foldl].
  - rewrite decide_False; [done | apply not_elem_of_nil].
  - rewrite IH. destruct (decide (k ∈ l)) as [Hl|Hl].
    + rewrite decide_True; [done | by right].
    + destruct (decide (k = x)) as [->|Hx].
      * rewrite decide_True by by left. apply lookup_delete_eq.
      * rewrite decide_False by (by intros [?|?]%elem_of_cons).
        by apply lookup_delete_ne.
Qed.

(** What [prune] keeps: the newest [N] backups. *)
Lemma names_prune (dir : gmap string A) :
  names (Spec.prune prefix N dir) ≡ₚ take N (Spec.newest_first (names dir)).
Proof.
  pose proof (newest_first_perm (names dir)) as Hperm.
  assert (NoDup (Spec.newest_first (names dir))) as Hnd
      by (rewrite Hperm; apply NoDup_names).
  rewrite <- (take_drop N (Spec.newest_first (names dir))) in Hnd, Hperm.
  apply NoDup_app in Hnd as (Hk & Hkd & Hd).
  apply NoDup_Permutation; [apply NoDup_names | done |].
  intros x. rewrite elem_of_names. unfold Spec.prune. rewrite lookup_foldl_delete.
  split.
  - intros [Hp Hs]. case_decide as Hx; [by destruct Hs|].
    assert (x ∈ names dir) as Hin by by apply elem_of_names.
    rewrite <- Hperm in Hin. apply elem_of_app in Hin as [?|?]; done.
  - intros Hx. rewrite decide_False by (by apply Hkd).
    apply elem_of_names. rewrite <- Hperm. apply elem_of_app. by left.
Qed.

Lemma lookup_prune (dir : gmap string A) (k : string) (v : A) :
  Spec.prune prefix N dir !! k = Some v → dir !! k = Some v.
Proof. unfold Spec.prune. rewrite lookup_foldl_delete. by case_decide. Qed.

Lemma lookup_prune_other (dir : gmap string A) (k : string) :
  String.prefix prefix k = false → Spec.prune prefix N dir !! k = dir !! k.
Proof.
  intros Hk. unfold Spec.prune. rewrite lookup_foldl_delete. case_decide as Hin; [|done].
  apply list_elem_of_lookup in Hin as [i Hi]. rewrite lookup_drop in Hi.
  assert (k ∈ names dir) as Hk'.
  { rewrite <- (newest_first_perm (names dir)). by eapply list_elem_of_lookup_2. }
  apply elem_of_names in Hk' as [Hk' _]. congruence.
Qed.

(** After any number of backups at distinct times, starting without
    backups, the directory holds the newest [N] of them. *)
Lemma names_backup_steps (dir0 : gmap string A) (calls : list (string * A)) :
  names dir0 = [] →
  NoDup calls.*1 →
  names (foldl (Spec.backup_step prefix N) dir0 calls)
  ≡ₚ take N (Spec.newest_first ((λ ts, prefix +:+ ts) <$> calls.*1)).
Proof.
  intros H0. induction calls as [|[ts v] calls IH] using rev_ind; intros Hnd.
  - simpl. rewrite H0. by destruct N.
  - rewrite fmap_app in Hnd. apply NoDup_app in Hnd as (Hnd & Hts & _).
    specialize (IH Hnd). rewrite foldl_app. simpl.
    set (dir := foldl (Spec.backup_step prefix N) dir0 calls) in *.
    unfold Spec.backup_step at 1. simpl. rewrite names_prune.
    assert (dir !! (prefix +:+ ts) = None) as Hfresh.
    { destruct (dir !! (prefix +:+ ts)) as [w|] eqn:Hw; [|done]. exfalso.
      assert (prefix +:+ ts ∈ names dir) as Hin
          by (apply elem_of_names; split; [apply prefix_app | eauto]).
      rewrite IH in Hin. apply elem_of_take in Hin as (i & Hi & _).
      apply list_elem_of_lookup_2 in Hi. rewrite newest_first_perm in Hi.
      apply list_elem_of_fmap in Hi as (ts' & Heq & Hin').
      apply (inj (String.app prefix)) in Heq as <-.
      apply (Hts ts); [done | simpl; by left]. }
    rewrite (newest_first_proper _ ((prefix +:+ ts) :: names dir))
      by (apply names_insert_fresh; [apply prefix_app | done]).
    rewrite (newest_first_proper _ ((prefix +:+ ts) :: take N (Spec.newest_first
               ((λ ts, prefix +:+ ts) <$> calls.*1)))) by (by rewrite IH).
    rewrite newest_take_cons.
    rewrite (newest_first_proper _ ((λ ts, prefix +:+ ts) <$> (calls ++ [(ts, v)]).*1));
      [done|].
    rewrite !fmap_app. simpl. by rewrite (comm (++)).
Qed.
End retention_generic.

(** *** The two implementations *)

Section listing.
Import FS.

Lemma has_sep_app (s t : string) : has_sep (s +:+ t) = has_sep s || has_sep t.
Proof.
  unfold has_sep. induction s as [|c s IH]; [done|].
  rewrite app_cons. cbn [Py.string_exists]. by rewrite IH, orb_assoc.
Qed.

Lemma has_sep_prefix (p k : string) :
  String.prefix p k = true → has_sep p = true → has_sep k = true.
Proof.
  unfold has_sep. revert k. induction p as [|a p IH]; intros k Hp Hs; [done|].
  destruct k as [|b k]; [done|]. simpl in Hp.
  destruct (ascii_dec a b) as [<-|]; [|done]. cbn [Py.string_exists] in *.
  destruct (Ascii.eqb "/" a); [done|]. by apply IH.
Qed.

Lemma timestamp_no_sep (ts : string) : timestamp_text ts = true → has_sep ts = false.
Proof.
  unfold timestamp_text, has_sep. induction ts as [|c ts IH]; [done|].
  cbn [Py.string_forall Py.string_exists]. intros [Hc Hts]%andb_true_iff.
  rewrite (IH Hts), orb_false_r. destruct (Ascii.eqb_spec "/" c) as [<-|]; [|done].
  by vm_compute in Hc.
Qed.

Lemma is_entry_backup_file (file_path timestamp : string) :
  has_sep file_path = false → timestamp_text timestamp = true →
  is_entry (TaskPlanner.backup_file file_path timestamp) = true.
Proof.
  intros Hp Hts. unfold is_entry, TaskPlanner.backup_file, TaskPlanner.backup_prefix.
  rewrite !has_sep_app, Hp, (timestamp_no_sep _ Hts). cbn [negb orb andb].
  change (has_sep ".backup_") with false. cbn [negb orb andb].
  rewrite bool_decide_eq_false_2; [done|]. intros Hin.
  assert (String.length ((file_path +:+ ".backup_") +:+ timestamp) ≤ 2) as Hlen.
  { repeat (apply elem_of_cons in Hin as [->|Hin]; [simpl; lia|]).
    by apply elem_of_nil in Hin. }
  rewrite !app_length in Hlen. simpl in Hlen. lia.
Qed.

Lemma filter_within {A} (P Q : A → Prop) `{∀ x, Decision (P x)} `{∀ x, Decision (Q x)}
    (l : list A) :
  (∀ x, x ∈ l → P x → Q x) → filter P (filter Q l) = filter P l.
Proof.
  induction l as [|x l IH]; intros Himp; [done|].
  assert (filter P (filter Q l) = filter P l) as IH'
    by (apply IH; intros y Hy; apply Himp; by right).
  destruct (decide (P x)) as [HP|HP].
  - rewrite (filter_cons_True Q) by (apply Himp; [by left|done]).
    rewrite !filter_cons_True by done. by rewrite IH'.
  - rewrite (filter_cons_False P x l) by done.
    destruct (decide (Q x)).
    + rewrite (filter_cons_True Q) by done. by rewrite filter_cons_False.
    + by rewrite (filter_cons_False Q).
Qed.

Lemma filter_iff_on {A} (P Q : A → Prop) `{∀ x, Decision (P x)} `{∀ x, Decision (Q x)}
    (l : list A) :
  (∀ x, x ∈ l → P x ↔ Q x) → filter P l = filter Q l.
Proof.
  induction l as [|x l IH]; intros Hiff; [done|].
  assert (filter P l = filter Q l) as IH' by (apply IH; intros y Hy; apply Hiff; by right).
  destruct (decide (P x)) as [HP|HP].
  - rewrite !filter_cons_True; [by rewrite IH'|by apply (Hiff x); [left|]|done].
  - rewrite !filter_cons_False; [done| |done]. intros HQ. apply HP, (Hiff x); [by left|done].
Qed.

Lemma elem_of_keys {A} (dir : gmap string A) (k : string) :
  k ∈ (map_to_list dir).*1 → is_Some (dir !! k).
Proof.
  intros ([k' v] & -> & Hin)%list_elem_of_fmap. apply elem_of_map_to_list in Hin. by exists v.
Qed.

Lemma after_prefix_app (p s : string) : TodoApp.after_prefix p (p +:+ s) = Some s.
Proof.
  induction p as [|a p IH]; [done|]. rewrite app_cons. cbn [TodoApp.after_prefix].
  by rewrite Ascii.eqb_refl.
Qed.

Lemma after_prefix_prefix (p k rest : string) :
  TodoApp.after_prefix p k = Some rest → String.prefix p k = true.
Proof.
  revert k. induction p as [|a p IH]; intros k; [by destruct k|].
  destruct k as [|b k]; [done|]. cbn [TodoApp.after_prefix]. simpl.
  destruct (Ascii.eqb_spec a b) as [<-|]; [|done].
  destruct (ascii_dec a a); [apply IH | done].
Qed.

Lemma is_backup_prefix (db_file k : string) :
  TodoApp.is_backup db_file k = true →
  String.prefix (TodoApp.backup_prefix db_file) k = true.
Proof.
  unfold TodoApp.is_backup.
  destruct (TodoApp.after_prefix _ k) as [rest|] eqn:Hk; [|done].
  intros _. by eapply after_prefix_prefix.
Qed.

Lemma is_backup_backup_file (db_file timestamp : string) :
  has_sep timestamp = false →
  TodoApp.is_backup db_file (TodoApp.backup_file db_file timestamp) = true.
Proof.
  intros Hts. unfold TodoApp.is_backup, TodoApp.backup_file.
  by rewrite after_prefix_app, Hts.
Qed.

End listing.

Section retention_csv.
Import FS TaskPlanner.
Variable file_path : string.

Abbreviation bp := (backup_prefix file_path).

Lemma run_remove (l : list string) (fs : filesystem) :
  NoDup l → (∀ k, k ∈ l → ∃ c, fs !! k = Some (File c)) →
  run (remove <$> l) fs = (foldl (λ d name, delete name d) fs l, None).
Proof.
  revert fs. induction l as [|x l IH]; intros fs Hnd Hfiles; [done|].
  apply NoDup_cons in Hnd as [Hx Hnd]. rewrite fmap_cons. cbn [run foldl].
  destruct (Hfiles x) as [c Hc]; [by left|]. unfold remove at 1. rewrite Hc.
  apply IH; [done|]. intros k Hk. destruct (Hfiles k) as [c' Hc']; [by right|].
  exists c'. rewrite lookup_delete_ne; [done|]. by intros ->.
Qed.

(** The files that [_cleanup_old_backups] finds are the backups of the
    specification when these are entries of the working directory. *)
Lemma listed_backups (fs : filesystem) :
  backups_are_entries file_path fs →
  filter (λ f, is_backup file_path f = true) (listdir fs) = Spec.backup_names bp fs.
Proof.
  intros He. unfold listdir, Spec.backup_names.
  apply (filter_within (λ f, is_backup file_path f = true) (λ name, is_entry name = true)).
  intros k Hk Hp. apply He; [done|]. by apply elem_of_keys.
Qed.

(** With a separator in [file_path] no entry of the working directory
    begins with the backup prefix: nothing is found, and nothing is
    removed. *)
Lemma cleanup_old_backups_below (fs : filesystem) :
  has_sep file_path = true → cleanup_old_backups file_path fs = fs.
Proof.
  intros Hs. unfold cleanup_old_backups.
  assert (filter (λ f, is_backup file_path f = true) (listdir fs) = []) as ->; [|done].
  rewrite (filter_iff_on _ (λ _, False)); [by induction (listdir fs)|].
  intros k [Hk _]%list_elem_of_filter. split; [|done]. intros Hp.
  apply andb_true_iff in Hk as [Hk _]. apply negb_true_iff in Hk.
  rewrite (has_sep_prefix bp k) in Hk; [done|exact Hp|].
  unfold bp, backup_prefix. by rewrite has_sep_app, Hs.
Qed.

Lemma cleanup_old_backups_prune (fs : filesystem) :
  backups_are_files file_path fs → backups_are_entries file_path fs →
  cleanup_old_backups file_path fs = Spec.prune bp MAX_BACKUP_FILES fs.
Proof.
  intros Hq He. unfold cleanup_old_backups, Spec.prune.
  rewrite (listed_backups fs He).
  change (sort_reverse (Spec.backup_names bp fs))
    with (Spec.newest_first (Spec.backup_names bp fs)).
  pose proof (newest_first_perm (Spec.backup_names bp fs)) as Hperm.
  destruct (Nat.ltb_spec MAX_BACKUP_FILES (length (Spec.backup_names bp fs))) as [Hlt|Hge].
  - rewrite run_remove; [done| |].
    + apply (NoDup_app (take MAX_BACKUP_FILES (Spec.newest_first (Spec.backup_names bp fs)))).
      rewrite take_drop, Hperm. apply NoDup_names.
    + intros k Hk. assert (k ∈ Spec.backup_names bp fs) as Hin.
      { rewrite <- Hperm, <- (take_drop MAX_BACKUP_FILES). apply elem_of_app. by right. }
      apply elem_of_names in Hin as [Hp [v Hv]]. specialize (Hq k Hp).
      destruct v; [eauto | done].
  - rewrite drop_ge; [done|]. by rewrite Hperm.
Qed.

Lemma backup_script_run (timestamp : string) (tasks : list Task) (fs : filesystem) :
  fs !! backup_file file_path timestamp ≠ Some Dir →
  run (backup_script file_path timestamp tasks) fs
  = (<[backup_file file_path timestamp := File (csv_text tasks)]> fs, None).
Proof.
  intros Hbf. unfold backup_script.
  change ([open_w (backup_file file_path timestamp);
           write_header (backup_file file_path timestamp)]
            ++ (write_task (backup_file file_path timestamp) <$> tasks))
    with (open_w (backup_file file_path timestamp)
            :: write_header (backup_file file_path timestamp)
            :: (write_task (backup_file file_path timestamp) <$> tasks)).
  cbn [run]. unfold open_w at 1.
  assert (∀ fs1 : filesystem,
             fs1 = <[backup_file file_path timestamp := File EmptyString]> fs →
             match write_header (backup_file file_path timestamp) fs1 with
             | Returned fs' =>
                 run (write_task (backup_file file_path timestamp) <$> tasks) fs'
             | Raised e => (fs1, Some e)
             end
             = (<[backup_file file_path timestamp := File (csv_text tasks)]> fs, None))
    as Hrun.
  { intros fs1 ->. unfold write_header, write at 1.
    rewrite lookup_insert_eq, insert_insert_eq, app_nil_l.
    rewrite (run_write_tasks _ _ _ (Csv.writeheader fieldnames)) by apply lookup_insert_eq.
    by rewrite insert_insert_eq. }
  destruct (fs !! backup_file file_path timestamp) as [[]|]; [|done|]; by rewrite (Hrun _ eq_refl).
Qed.

Lemma csv_backup_tasks_step (timestamp : string) (tasks : list Task) (fs : filesystem) :
  backups_are_files file_path fs → backups_are_entries file_path fs →
  is_entry (backup_file file_path timestamp) = true →
  csv_backup_tasks file_path timestamp tasks fs
  = (Spec.backup_step bp MAX_BACKUP_FILES fs (timestamp, File (csv_text tasks)), Returned ())
  ∧ backups_are_files file_path (Spec.backup_step bp MAX_BACKUP_FILES fs
                         (timestamp, File (csv_text tasks)))
  ∧ backups_are_entries file_path (Spec.backup_step bp MAX_BACKUP_FILES fs
                           (timestamp, File (csv_text tasks))).
Proof.
  intros Hq He Hnew.
  assert (backups_are_files file_path
            (<[backup_file file_path timestamp := File (csv_text tasks)]> fs))
    as Hq1.
  { intros k Hk. destruct (decide (k = backup_file file_path timestamp)) as [->|Hne].
    - by rewrite lookup_insert_eq.
    - rewrite lookup_insert_ne by done. by apply Hq. }
  assert (backups_are_entries file_path
            (<[backup_file file_path timestamp := File (csv_text tasks)]> fs))
    as He1.
  { intros k Hk. destruct (decide (k = backup_file file_path timestamp)) as [->|Hne]; [done|].
    rewrite lookup_insert_ne by done. by apply He. }
  split; [|split].
  - unfold csv_backup_tasks. rewrite backup_script_run by apply Hq, prefix_app.
    by rewrite cleanup_old_backups_prune.
  - intros k Hk Hdir. apply lookup_prune in Hdir. by apply (Hq1 k).
  - intros k Hk [v Hv]. apply lookup_prune in Hv. apply (He1 k Hk). by exists v.
Qed.

Lemma csv_backups_steps (calls : list (string * list Task)) (fs : filesystem) :
  backups_are_files file_path fs → backups_are_entries file_path fs →
  Forall (λ ts, is_entry (backup_file file_path ts) = true) calls.*1 →
  foldl (λ fs call, (csv_backup_tasks file_path call.1 call.2 fs).1) fs calls
  = foldl (Spec.backup_step bp MAX_BACKUP_FILES) fs
      ((λ call, (call.1, File (csv_text call.2))) <$> calls).
Proof.
  revert fs. induction calls as [|[ts tasks] calls IH]; intros fs Hq He Hts; [done|].
  rewrite fmap_cons in Hts. apply Forall_cons in Hts as [Hnew Hts].
  rewrite fmap_cons. cbn [foldl fst snd].
  destruct (csv_backup_tasks_step ts tasks fs Hq He Hnew) as (-> & Hq' & He'). by apply IH.
Qed.
End retention_csv.

Section retention_db.
Import TodoApp.
Variable db_file : string.

Abbreviation dbp := (backup_prefix db_file).
Abbreviation directory := (gmap string (option table)).

Lemma foldl_try_remove (l : list string) (dir : directory) :
  NoDup l → (∀ k, k ∈ l → ∃ image, dir !! k = Some (Some image)) →
  foldl try_remove dir l = foldl (λ d name, delete name d) dir l.
Proof.
  revert dir. induction l as [|x l IH]; intros dir Hnd Himg; [done|].
  apply NoDup_cons in Hnd as [Hx Hnd]. cbn [foldl].
  destruct (Himg x) as [image Hi]; [by left|]. unfold try_remove at 2. rewrite Hi.
  apply IH; [done|]. intros k Hk. destruct (Himg k) as [image' Hi']; [by right|].
  exists image'. rewrite lookup_delete_ne; [done|]. by intros ->.
Qed.

(** The paths that [glob] returns are the backups of the specification
    when these continue the prefix without a separator. *)
Lemma globbed_backups (dir : directory) :
  glob_literal db_file = true → backups_are_siblings db_file dir →
  glob_backups db_file dir = Some (Spec.backup_names dbp dir).
Proof.
  intros Hl Hs. unfold glob_backups. rewrite Hl. f_equal. unfold Spec.backup_names.
  apply filter_iff_on. intros k Hk. split; [apply is_backup_prefix|].
  intros Hp. apply Hs; [done|]. by apply elem_of_keys.
Qed.

Lemma cleanup_old_backups_db_prune (dir : directory) :
  glob_literal db_file = true →
  backups_are_images db_file dir → backups_are_siblings db_file dir →
  cleanup_old_backups db_file dir = Some (Spec.prune dbp MAX_BACKUPS dir).
Proof.
  intros Hl Hq Hs. unfold cleanup_old_backups, Spec.prune.
  rewrite (globbed_backups dir Hl Hs). f_equal.
  change (merge_sort (flip String.le) (Spec.backup_names dbp dir))
    with (Spec.newest_first (Spec.backup_names dbp dir)).
  pose proof (newest_first_perm (Spec.backup_names dbp dir)) as Hperm.
  apply foldl_try_remove.
  - apply (NoDup_app (take MAX_BACKUPS (Spec.newest_first (Spec.backup_names dbp dir)))).
    rewrite take_drop, Hperm. apply NoDup_names.
  - intros k Hk. assert (k ∈ Spec.backup_names dbp dir) as Hin.
    { rewrite <- Hperm, <- (take_drop MAX_BACKUPS). apply elem_of_app. by right. }
    apply elem_of_names in Hin as [Hp [v Hv]]. specialize (Hq k Hp).
    destruct v; [eauto | done].
Qed.

Lemma backup_database_step (timestamp : string) (db : table) (dir : directory) :
  glob_literal db_file = true →
  backups_are_images db_file dir → backups_are_siblings db_file dir →
  FS.has_sep timestamp = false →
  backup_database db_file timestamp db dir
  = Some (Spec.backup_step dbp MAX_BACKUPS dir (timestamp, Some db), Returned ())
  ∧ backups_are_images db_file (Spec.backup_step dbp MAX_BACKUPS dir (timestamp, Some db))
  ∧ backups_are_siblings db_file (Spec.backup_step dbp MAX_BACKUPS dir (timestamp, Some db)).
Proof.
  intros Hl Hq Hs Hts.
  assert (backups_are_images db_file (<[backup_file db_file timestamp := Some db]> dir))
    as Hq1.
  { intros k Hk. destruct (decide (k = backup_file db_file timestamp)) as [->|Hne].
    - by rewrite lookup_insert_eq.
    - rewrite lookup_insert_ne by done. by apply Hq. }
  assert (backups_are_siblings db_file (<[backup_file db_file timestamp := Some db]> dir))
    as Hs1.
  { intros k Hk. destruct (decide (k = backup_file db_file timestamp)) as [->|Hne].
    - intros _. by apply is_backup_backup_file.
    - rewrite lookup_insert_ne by done. by apply Hs. }
  split; [|split].
  - unfold backup_database.
    assert (dir !! backup_file db_file timestamp ≠ Some None) as Hbf
        by apply Hq, prefix_app.
    destruct (dir !! backup_file db_file timestamp) as [[]|]; [|done|];
      by rewrite cleanup_old_backups_db_prune.
  - intros k Hk Hdir. apply lookup_prune in Hdir. by apply (Hq1 k).
  - intros k Hk [v Hv]. apply lookup_prune in Hv. apply (Hs1 k Hk). by exists v.
Qed.

Lemma db_backups_steps (calls : list (string * table)) (dir : directory) :
  glob_literal db_file = true →
  backups_are_images db_file dir → backups_are_siblings db_file dir →
  Forall (λ ts, FS.has_sep ts = false) calls.*1 →
  db_backups db_file calls dir
  = Some (foldl (Spec.backup_step dbp MAX_BACKUPS) dir
            ((λ call, (call.1, Some call.2)) <$> calls)).
Proof.
  intros Hl. revert dir. induction calls as [|[ts db] calls IH]; intros dir Hq Hs Hts; [done|].
  rewrite fmap_cons in Hts. apply Forall_cons in Hts as [Hnew Hts].
  rewrite fmap_cons. cbn [foldl db_backups fst snd].
  destruct (backup_database_step ts db dir Hl Hq Hs Hnew) as (-> & Hq' & Hs'). by apply IH.
Qed.
End retention_db.

Lemma no_names_no_entry {A} (prefix : string) (dir : gmap string A) (k : string) :
  Spec.backup_names prefix dir = [] → String.prefix prefix k = true → dir !! k = None.
Proof.
  intros H0 Hk. destruct (dir !! k) as [v|] eqn:Hv; [|done].
  assert (k ∈ Spec.backup_names prefix dir) as Hin by (apply elem_of_names; eauto).
  rewrite H0 in Hin. by apply elem_of_nil in Hin.
Qed.

Lemma fst_fmap_pair {A B} (g : A → B) (calls : list (string * A)) :
  ((λ call, (call.1, g call.2)) <$> calls).*1 = calls.*1.
Proof. induction calls as [|c calls IH]; [done|]. rewrite !fmap_cons, IH. done. Qed.

(** C8, the counterexample.  Two backups are made within the same second:
    the second one overwrites the file of the first, and one backup is
    retained where the claim counts two. *)
Lemma backups_in_the_same_second :
  let backup := λ fs, (TaskPlanner.csv_backup_tasks "tasks.csv" "20240101_120000" [] fs).1 in
  let fs := backup (backup ∅) in
  Spec.backup_names (TaskPlanner.backup_prefix "tasks.csv") fs
  = ["tasks.csv.backup_20240101_120000"] ∧
  length (Spec.backup_names (TaskPlanner.backup_prefix "tasks.csv") fs)
  ≠ 2 `min` TaskPlanner.MAX_BACKUP_FILES.
Proof. split; [by vm_compute | by vm_compute]. Qed.

(** What the amended claim leaves out.  With a directory in front of the
    file name the CSV storage finds no backup to remove, since
    [os.listdir()] gives the names of the working directory without any
    path: six backups at six different seconds leave six files. *)
Lemma backups_below_a_directory_are_kept :
  let calls : list (string * list TaskPlanner.Task) :=
    [("20240101_120000", []); ("20240102_120000", []); ("20240103_120000", []);
     ("20240104_120000", []); ("20240105_120000", []); ("20240106_120000", [])] in
  let fs := foldl (λ fs call,
                     (TaskPlanner.csv_backup_tasks "data/tasks.csv" call.1 call.2 fs).1)
              (∅ : FS.filesystem) calls in
  length (Spec.backup_names (TaskPlanner.backup_prefix "data/tasks.csv") fs) = 6.
Proof. by vm_compute. Qed.

(** C8, as amended.  Take a canonical path that the cleanup can follow:
    for the CSV storage a file name of the working directory, without
    [/]; for the database manager a path without the wildcard characters
    of [glob].  Take a directory without backups of that path and any
    sequence of backup calls whose time stamps, as they appear in the file
    names, are pairwise distinct.  After the calls the backups retained
    are the first [N] of the backup file names sorted newest first, so
    their number is [min] of the number of calls and [N], with [N = 5] in
    both programs. *)
Theorem backup_retention :
  (∀ file_path (fs0 : FS.filesystem) (calls : list (string * list TaskPlanner.Task)),
      FS.has_sep file_path = false →
      Forall (λ ts, timestamp_text ts = true) calls.*1 →
      Spec.backup_names (TaskPlanner.backup_prefix file_path) fs0 = [] →
      NoDup calls.*1 →
      let fs := foldl (λ fs call,
                         (TaskPlanner.csv_backup_tasks file_path call.1 call.2 fs).1)
                  fs0 calls in
      Spec.backup_names (TaskPlanner.backup_prefix file_path) fs
      ≡ₚ take TaskPlanner.MAX_BACKUP_FILES
           (Spec.newest_first (TaskPlanner.backup_file file_path <$> calls.*1))
      ∧ length (Spec.backup_names (TaskPlanner.backup_prefix file_path) fs)
        = length calls `min` TaskPlanner.MAX_BACKUP_FILES) ∧
  (∀ db_file (dir0 : gmap string (option TodoApp.table))
     (calls : list (string * TodoApp.table)),
      TodoApp.glob_literal db_file = true →
      Forall (λ ts, timestamp_text ts = true) calls.*1 →
      Spec.backup_names (TodoApp.backup_prefix db_file) dir0 = [] →
      NoDup calls.*1 →
      ∃ dir, db_backups db_file calls dir0 = Some dir
             ∧ Spec.backup_names (TodoApp.backup_prefix db_file) dir
               ≡ₚ take TodoApp.MAX_BACKUPS
                    (Spec.newest_first (TodoApp.backup_file db_file <$> calls.*1))
             ∧ length (Spec.backup_names (TodoApp.backup_prefix db_file) dir)
               = length calls `min` TodoApp.MAX_BACKUPS).
Proof.
  split.
  - intros file_path fs0 calls Hplain Hts H0 Hnd fs.
    assert (Spec.backup_names (TaskPlanner.backup_prefix file_path) fs
            ≡ₚ take TaskPlanner.MAX_BACKUP_FILES
                 (Spec.newest_first (TaskPlanner.backup_file file_path <$> calls.*1))) as Hp.
    { unfold fs. rewrite csv_backups_steps.
      - rewrite names_backup_steps;
          by rewrite ?(fst_fmap_pair (λ tasks, FS.File (TaskPlanner.csv_text tasks))).
      - intros k Hk. by rewrite (no_names_no_entry _ _ _ H0 Hk).
      - intros k Hk [v Hv]. by rewrite (no_names_no_entry _ _ _ H0 Hk) in Hv.
      - eapply Forall_impl; [exact Hts|]. intros ts Hok. by apply is_entry_backup_file. }
    split; [exact Hp|].
    rewrite Hp, length_take, newest_first_perm, !length_fmap. lia.
  - intros db_file dir0 calls Hl Hts H0 Hnd. eexists. split.
    { apply db_backups_steps; [done| | |].
      - intros k Hk. by rewrite (no_names_no_entry _ _ _ H0 Hk).
      - intros k Hk [v Hv]. by rewrite (no_names_no_entry _ _ _ H0 Hk) in Hv.
      - eapply Forall_impl; [exact Hts|]. intros ts Hok. by apply timestamp_no_sep. }
    assert (Spec.backup_names (TodoApp.backup_prefix db_file)
              (foldl (Spec.backup_step (TodoApp.backup_prefix db_file) TodoApp.MAX_BACKUPS)
                 dir0 ((λ call, (call.1, Some call.2)) <$> calls))
            ≡ₚ take TodoApp.MAX_BACKUPS
                 (Spec.newest_first (TodoApp.backup_file db_file <$> calls.*1))) as Hp.
    { rewrite names_backup_steps; by rewrite ?(fst_fmap_pair Some). }
    split; [exact Hp|].
    rewrite Hp, length_take, newest_first_perm, !length_fmap. lia.
Qed.

Lemma backup_retention_witness :
  let stamps := ["20240101_120000"; "20240102_120000"; "20240103_120000";
                 "20240104_120000"; "20240105_120000"; "20240106_120000"] in
  let calls : list (string * list TaskPlanner.Task) := (λ ts, (ts, [])) <$> stamps in
  let db_calls : list (string * TodoApp.table) := (λ ts, (ts, [])) <$> stamps in
  let fs := foldl (λ fs call,
                     (TaskPlanner.csv_backup_tasks "tasks.csv" call.1 call.2 fs).1)
              (∅ : FS.filesystem) calls in
  FS.has_sep "tasks.csv" = false ∧
  TodoApp.glob_literal "todo.db" = true ∧
  Forall (λ ts, timestamp_text ts = true) stamps ∧
  NoDup stamps ∧
  length (Spec.backup_names (TaskPlanner.backup_prefix "tasks.csv") fs)
  = 6 `min` TaskPlanner.MAX_BACKUP_FILES ∧
  ∃ dir, db_backups "todo.db" db_calls ∅ = Some dir
         ∧ length (Spec.backup_names (TodoApp.backup_prefix "todo.db") dir)
           = 6 `min` TodoApp.MAX_BACKUPS.
Proof.
  intros stamps calls db_calls fs.
  assert (FS.has_sep "tasks.csv" = false) as Hplain by reflexivity.
  assert (TodoApp.glob_literal "todo.db" = true) as Hl by reflexivity.
  assert (Forall (λ ts, timestamp_text ts = true) stamps) as Hts by (repeat constructor).
  assert (NoDup stamps) as Hnd by (apply (bool_decide_unpack _); vm_compute; exact I).
  split; [exact Hplain|]. split; [exact Hl|]. split; [exact Hts|]. split; [exact Hnd|].
  split.
  - exact (proj2 (proj1 backup_retention "tasks.csv" ∅ calls Hplain Hts eq_refl Hnd)).
  - assert (Spec.backup_names (TodoApp.backup_prefix "todo.db")
              (∅ : gmap string (option TodoApp.table)) = []) as H0 by reflexivity.
    destruct (proj2 backup_retention "todo.db" ∅ db_calls Hl Hts H0 Hnd)
      as (dir & Hdir & _ & Hlen).
    exists dir. split; [exact Hdir | exact Hlen].
Defined.

(** ** Round trip *)

(** *** The reader, character by character *)

Section csv_reader.
Import Csv.


Lemma feed_feed_chars (p : parser) (line : string) :
  feed p line = feed_chars p line ≫= λ q, parse_process_char q None.
Proof.
  revert p. induction line as [|c line IH]; intros p; [done|].
  simpl. destruct (parse_process_char p (Some c)); [apply IH | done].
Qed.

Lemma feed_chars_app (p : parser) (s t : string) :
  feed_chars p (s +:+ t) = feed_chars p s ≫= λ q, feed_chars q t.
Proof.
  revert p. induction s as [|c s IH]; intros p; [done|].
  rewrite app_cons. simpl. destruct (parse_process_char p (Some c)); [apply IH | done].
Qed.

Lemma rev_app_app (s t : string) : String.rev_app s t = String.rev s +:+ t.
Proof.
  unfold String.rev. revert t. induction s as [|c s IH]; intros t; [done|].
  simpl. rewrite (IH (String c t)), (IH (String c EmptyString)). by rewrite app_assoc.
Qed.

Lemma rev_cons (c : ascii) (s : string) :
  String.rev (String c s) = String.rev s +:+ String c EmptyString.
Proof. unfold String.rev at 1. simpl. apply rev_app_app. Qed.

Lemma records_cons (p : parser) (l : string) (ls : list string) :
  records p (l :: ls) = feed_chars p l ≫= λ q, end_line q (λ q', records q' ls).
Proof.
  simpl. rewrite feed_feed_chars. destruct (feed_chars p l) as [q|]; [|done]. simpl.
  unfold end_line. destruct (parse_process_char q None) as [p'|]; [|done].
  by destruct (state p').
Qed.

(** Splitting the text into lines first and running the reader over the
    text directly give the same records. *)
Lemma records_splitlines (s : string) (p : parser) (cur : string) :
  records p (splitlines cur s)
  = feed_chars p (String.rev cur)
      ≫= λ q, drive q (match cur with EmptyString => false | _ => true end) s.
Proof.
  revert p cur. induction s as [|c s IH]; intros p cur.
  - simpl. destruct cur as [|c cur]; [done|]. rewrite records_cons.
    by destruct (feed_chars p _).
  - assert (∀ q, records q (splitlines EmptyString s) = drive q false s) as IH0
        by (intros q; by rewrite IH).
    assert (∀ s', s' = s →
                  records p (String.rev (String c cur) :: splitlines EmptyString s')
                  = feed_chars p (String.rev cur)
                      ≫= λ q, match parse_process_char q (Some c) with
                              | None => None
                              | Some p1 => end_line p1 (λ q', drive q' false s')
                              end) as Hend.
    { intros s' ->. rewrite records_cons, rev_cons, feed_chars_app.
      destruct (feed_chars p (String.rev cur)) as [q|]; [|done]. simpl.
      destruct (parse_process_char q (Some c)) as [p1|]; [|done]. simpl.
      unfold end_line. destruct (parse_process_char p1 None) as [p2|]; [|done].
      destruct (state p2); by rewrite IH0. }
    assert (records p (splitlines (String c cur) s)
            = feed_chars p (String.rev cur)
                ≫= λ q, match parse_process_char q (Some c) with
                        | None => None
                        | Some p1 => drive p1 true s
                        end) as Hmid.
    { rewrite IH, rev_cons, feed_chars_app.
      destruct (feed_chars p (String.rev cur)) as [q|]; [|done]. simpl.
      by destruct (parse_process_char q (Some c)). }
    cbn [splitlines drive]. unfold line_ends.
    destruct (Ascii.eqb c LF) eqn:Hlf; cbn [orb andb].
    + rewrite Hend by done. by destruct cur.
    + destruct (Ascii.eqb c CR) eqn:Hcr; cbn [orb andb].
      * destruct s as [|c' s'].
        -- rewrite Hend by done. by destruct cur.
        -- destruct (Ascii.eqb c' LF) eqn:Hlf'; cbn [negb].
           ++ rewrite Hmid. by destruct cur.
           ++ rewrite Hend by done. by destruct cur.
      * rewrite Hmid. by destruct cur.
Qed.

Lemma reader_drive (text : string) : reader text = drive parse_reset false text.
Proof. unfold reader, lines. by rewrite records_splitlines. Qed.
End csv_reader.

(** *** What the writer writes, the reader reads *)

Section csv_round_trip.
Import Csv.

Lemma special_false (c : ascii) :
  special c = false →
  Ascii.eqb c delimiter = false ∧ Ascii.eqb c quotechar = false
  ∧ Ascii.eqb c CR = false ∧ Ascii.eqb c LF = false.
Proof.
  unfold special. intros H.
  apply orb_false_iff in H as [H Hlf]. apply orb_false_iff in H as [H Hcr].
  apply orb_false_iff in H as [Hd Hq]. done.
Qed.

Lemma add_char_ok (st : pstate) (acc : string) (flds : list string) (c : ascii) :
  (N.of_nat (String.length acc) < field_size_limit)%N →
  parse_add_char (Parser st acc flds) c = Some (Parser st (String c acc) flds).
Proof.
  intros H. unfold parse_add_char. simpl.
  destruct (N.ltb_spec (N.of_nat (String.length acc)) field_size_limit); [done | lia].
Qed.

Lemma rev_app_length (s t : string) :
  String.length (String.rev_app s t) = String.length s + String.length t.
Proof.
  revert t. induction s as [|c s IH]; intros t; [done|]. simpl. rewrite IH. simpl. lia.
Qed.

Lemma rev_rev_app (s : string) : String.rev (String.rev_app s EmptyString) = s.
Proof.
  assert (∀ s t u, String.rev_app (String.rev_app s t) u = String.rev_app t (s +:+ u)) as H.
  { clear s. induction s as [|c s IH]; intros t u; [done|]. simpl. rewrite IH. done. }
  unfold String.rev. rewrite H. simpl. apply app_nil_r.
Qed.


Lemma feed_in_field (f acc : string) (flds : list string) :
  Py.string_exists special f = false →
  within_limit (String.length acc + String.length f) →
  feed_chars (Parser IN_FIELD acc flds) f
  = Some (Parser IN_FIELD (String.rev_app f acc) flds).
Proof.
  unfold within_limit. revert acc. induction f as [|c f IH]; intros acc Hs Hl; [done|].
  simpl in Hs. apply orb_false_iff in Hs as [Hc Hs].
  apply special_false in Hc as (Hd & Hq & Hcr & Hlf).
  cbn [feed_chars]. unfold parse_process_char. cbn [state]. unfold is_newline.
  rewrite Hlf, Hcr, Hd. cbn [orb]. rewrite add_char_ok by (simpl in Hl; lia).
  apply IH; [done|]. simpl in *. lia.
Qed.

Lemma feed_plain_field (st : pstate) (c : ascii) (f : string) (flds : list string) :
  at_start st →
  Py.string_exists special (String c f) = false →
  within_limit (String.length (String c f)) →
  feed_chars (Parser st EmptyString flds) (String c f)
  = Some (Parser IN_FIELD (String.rev_app (String c f) EmptyString) flds).
Proof.
  intros Hst Hs Hl. pose proof Hs as Hs'. simpl in Hs'.
  apply orb_false_iff in Hs' as [Hc Hf].
  apply special_false in Hc as (Hd & Hq & Hcr & Hlf).
  assert (parse_process_char (Parser st EmptyString flds) (Some c)
          = Some (Parser IN_FIELD (String c EmptyString) flds)) as Hstep.
  { unfold parse_process_char, is_newline. cbn [state].
    destruct Hst as [-> | ->]; rewrite Hlf, Hcr, Hq, Hd; cbn [orb];
      by rewrite add_char_ok by done. }
  cbn [feed_chars]. rewrite Hstep. simpl.
  apply feed_in_field; [done|]. unfold within_limit in *. simpl in *. lia.
Qed.

Lemma not_special_not_newline (f : string) :
  Py.string_exists special f = false → Py.string_exists is_newline f = false.
Proof.
  induction f as [|c f IH]; [done|]. simpl. intros [Hc Hf]%orb_false_iff.
  apply special_false in Hc as (_ & _ & Hcr & Hlf). rewrite IH by done.
  unfold is_newline. by rewrite Hlf, Hcr.
Qed.

(** A stretch of text without line breaks is fed as it stands. *)
Lemma drive_plain (f : string) (p : parser) (mid : bool) (rest : string) :
  Py.string_exists is_newline f = false →
  drive p mid (f +:+ rest)
  = feed_chars p f
      ≫= λ q, drive q (mid || match f with EmptyString => false | _ => true end) rest.
Proof.
  revert p mid. induction f as [|c f IH]; intros p mid Hn.
  - by rewrite app_nil_l, orb_false_r.
  - simpl in Hn. apply orb_false_iff in Hn as [Hc Hf].
    unfold is_newline in Hc. apply orb_false_iff in Hc as [Hlf Hcr].
    rewrite app_cons. cbn [drive feed_chars].
    destruct (parse_process_char p (Some c)) as [p1|]; [|done].
    unfold line_ends. rewrite Hlf, Hcr. cbn [orb andb]. rewrite IH by done.
    rewrite orb_true_r. destruct (feed_chars p1 f); [|done]. simpl. by destruct f.
Qed.

(** The body of a quoted field, up to and including the closing quote. *)
Lemma drive_quoted_body (f acc : string) (flds : list string) (mid : bool) (rest : string) :
  within_limit (String.length acc + String.length f) →
  drive (Parser IN_QUOTED_FIELD acc flds) mid
    (double_quotes f +:+ String quotechar rest)
  = drive (Parser QUOTE_IN_QUOTED_FIELD (String.rev_app f acc) flds) true rest.
Proof.
  unfold within_limit. revert acc mid. induction f as [|c f IH]; intros acc mid Hl.
  - rewrite app_nil_l. cbn [drive]. unfold parse_process_char. cbn [state].
    rewrite Ascii.eqb_refl. reflexivity.
  - cbn [double_quotes]. destruct (Ascii.eqb c quotechar) eqn:Hq.
    + apply Ascii.eqb_eq in Hq as ->. rewrite !app_cons. cbn [drive].
      unfold parse_process_char at 1. cbn [state]. rewrite Ascii.eqb_refl.
      replace (line_ends quotechar _) with false by reflexivity.
      unfold set_state. cbn [field fields drive].
      unfold parse_process_char at 1. cbn [state]. rewrite Ascii.eqb_refl.
      rewrite add_char_ok by (simpl in Hl; lia). cbn [fmap option_fmap option_map].
      unfold set_state. cbn [field fields].
      replace (line_ends quotechar _) with false by reflexivity.
      apply IH. simpl in *. lia.
    + rewrite app_cons. cbn [drive]. unfold parse_process_char at 1. cbn [state].
      rewrite Hq, add_char_ok by (simpl in Hl; lia).
      assert (within_limit (String.length (String c acc) + String.length f)) as Hl'
          by (unfold within_limit; simpl in *; lia).
      destruct (line_ends c _).
      * unfold end_line, parse_process_char. cbn [state]. by apply IH.
      * by apply IH.
Qed.

Lemma step_delimiter (st : pstate) (acc : string) (flds : list string) :
  at_start st ∨ field_read st →
  parse_process_char (Parser st acc flds) (Some delimiter)
  = Some (Parser START_FIELD EmptyString (String.rev acc :: flds)).
Proof. intros [[-> | ->]|[-> | [-> | ->]]]; reflexivity. Qed.

(** The line terminator after the last field of a record. *)
Lemma drive_end_record (st : pstate) (acc : string) (flds : list string) (mid : bool)
  (rest : string) :
  field_read st →
  drive (Parser st acc flds) mid (lineterminator +:+ rest)
  = cons (reverse (String.rev acc :: flds)) <$> drive parse_reset false rest.
Proof.
  intros Hst.
  assert (parse_process_char (Parser st acc flds) (Some CR)
          = Some (Parser EAT_CRNL EmptyString (String.rev acc :: flds))) as Hcr
      by (destruct Hst as [-> | [-> | ->]]; reflexivity).
  unfold lineterminator. rewrite !app_cons, app_nil_l. cbn [drive]. rewrite Hcr.
  replace (line_ends CR (String LF rest)) with false by reflexivity.
  replace (parse_process_char (Parser EAT_CRNL EmptyString (String.rev acc :: flds)) (Some LF))
    with (Some (Parser EAT_CRNL EmptyString (String.rev acc :: flds))) by reflexivity.
  by replace (line_ends LF rest) with true by reflexivity.
Qed.

Lemma field_text_plain (f : string) :
  Py.string_exists special f = false → field_text f = f.
Proof. intros H. unfold field_text. by rewrite H. Qed.

Lemma field_text_quoted (f : string) :
  Py.string_exists special f = true →
  field_text f = String quotechar (double_quotes f +:+ String quotechar EmptyString).
Proof. intros H. unfold field_text. by rewrite H. Qed.

(** One field as the writer emits it, from a state in which a field can
    start: afterwards the field is read, or nothing has moved if the field
    is empty and unquoted. *)
Lemma drive_field (st : pstate) (f : string) (flds : list string) (mid : bool) :
  at_start st →
  within_limit (String.length f) →
  ∃ st' acc mid',
    (∀ rest, drive (Parser st EmptyString flds) mid (field_text f +:+ rest)
             = drive (Parser st' acc flds) mid' rest)
    ∧ String.rev acc = f
    ∧ (field_read st' ∨ (st' = st ∧ f = EmptyString)).
Proof.
  intros Hst Hl. destruct (Py.string_exists special f) eqn:Hs.
  - exists QUOTE_IN_QUOTED_FIELD, (String.rev_app f EmptyString), true.
    split; [|split; [apply rev_rev_app | left; unfold field_read; auto]].
    intros rest. rewrite field_text_quoted by done. rewrite app_cons, app_assoc, app_cons.
    rewrite app_nil_l. cbn [drive].
    assert (parse_process_char (Parser st EmptyString flds) (Some quotechar)
            = Some (Parser IN_QUOTED_FIELD EmptyString flds)) as ->
        by (destruct Hst as [-> | ->]; reflexivity).
    replace (line_ends quotechar _) with false by reflexivity.
    apply drive_quoted_body. by simpl.
  - destruct f as [|c f].
    + exists st, EmptyString, mid. split; [|split; [done | by right]].
      intros rest. by rewrite field_text_plain.
    + exists IN_FIELD, (String.rev_app (String c f) EmptyString), true.
      split; [|split; [apply rev_rev_app | left; unfold field_read; auto]].
      intros rest. rewrite field_text_plain by done.
      rewrite drive_plain by by apply not_special_not_newline.
      rewrite feed_plain_field by done. simpl. by rewrite orb_true_r.
Qed.

(** The fields of a record and its line terminator. *)
Lemma drive_join (fs : list string) (f : string) (st : pstate) (flds : list string)
  (mid : bool) (rest : string) :
  st = START_FIELD ∨ (st = START_RECORD ∧ (f :: fs) ≠ [EmptyString]) →
  Forall (λ f, within_limit (String.length f)) (f :: fs) →
  drive (Parser st EmptyString flds) mid (join (f :: fs) +:+ lineterminator +:+ rest)
  = cons (reverse flds ++ f :: fs) <$> drive parse_reset false rest.
Proof.
  revert f st flds mid. induction fs as [|f' fs IH]; intros f st flds mid Hst Hl.
  - apply Forall_cons in Hl as [Hf _].
    destruct (drive_field st f flds mid) as (st' & acc & mid' & Hd & Hacc & Hst');
      [unfold at_start; destruct Hst as [->|[-> _]]; auto | done |].
    cbn [join]. rewrite Hd.
    assert (field_read st') as Hfr.
    { destruct Hst' as [?|[-> ->]]; [done|].
      destruct Hst as [->|[_ Hne]]; [unfold field_read; auto | done]. }
    rewrite drive_end_record by done. by rewrite Hacc, reverse_cons.
  - apply Forall_cons in Hl as [Hf Hl].
    destruct (drive_field st f flds mid) as (st' & acc & mid' & Hd & Hacc & Hst');
      [unfold at_start; destruct Hst as [->|[-> _]]; auto | done |].
    change (join (f :: f' :: fs)) with (field_text f +:+ String delimiter (join (f' :: fs))).
    rewrite app_assoc, Hd, app_cons. cbn [drive].
    rewrite step_delimiter.
    + replace (line_ends delimiter _) with false by reflexivity.
      rewrite IH; [|by left | done]. rewrite Hacc, reverse_cons, <- (assoc_L (++)). done.
    + destruct Hst' as [?|[-> _]]; [by right|]. left. unfold at_start.
      destruct Hst as [->|[-> _]]; auto.
Qed.

Lemma join_nonempty (f f' : string) (fs : list string) : join (f :: f' :: fs) ≠ EmptyString.
Proof.
  change (join (f :: f' :: fs)) with (field_text f +:+ String delimiter (join (f' :: fs))).
  by destruct (field_text f).
Qed.

Lemma field_text_empty (f : string) : field_text f = EmptyString → f = EmptyString.
Proof. unfold field_text. by destruct (Py.string_exists special f). Qed.

(** One record written by [writerow] is read back as it was. *)
Lemma drive_writerow (row : list string) (mid : bool) (rest : string) :
  Forall (λ f, within_limit (String.length f)) row →
  drive parse_reset mid (writerow row +:+ rest)
  = cons row <$> drive parse_reset false rest.
Proof.
  intros Hl. destruct row as [|f fs].
  - reflexivity.
  - destruct (decide (f :: fs = [EmptyString])) as [Heq|Hne].
    + injection Heq as -> ->. reflexivity.
    + assert (writerow (f :: fs) = join (f :: fs) +:+ lineterminator) as ->.
      { unfold writerow. destruct (join (f :: fs)) eqn:Hj; [|done]. exfalso.
        destruct fs as [|f' fs]; [|by apply join_nonempty in Hj].
        cbn [join] in Hj. apply field_text_empty in Hj as ->. done. }
      rewrite app_assoc. unfold parse_reset. rewrite drive_join; [done| |done]. by right.
Qed.

Lemma drive_rows (rows : list (list string)) :
  Forall (Forall (λ f, within_limit (String.length f))) rows →
  drive parse_reset false (foldr (λ row text, writerow row +:+ text) EmptyString rows)
  = Some rows.
Proof.
  induction 1 as [|row rows Hrow _ IH]; [done|].
  cbn [foldr]. by rewrite drive_writerow, IH.
Qed.
End csv_round_trip.

Section csv_tasks_round_trip.
Import FS TaskPlanner.

Lemma rows_text_foldr (tasks : list Task) :
  csv_text tasks
  = foldr (λ row text, Csv.writerow row +:+ text) EmptyString
      (fieldnames :: (task_row <$> tasks)).
Proof.
  unfold csv_text, Csv.writeheader. cbn [foldr]. f_equal.
  induction tasks as [|t tasks IH]; [done|]. rewrite fmap_cons. cbn [foldr rows_text].
  by rewrite <- IH.
Qed.

Lemma task_row_within_limit (t : Task) :
  Spec.valid_task t → Forall (λ f, within_limit (String.length f)) (task_row t).
Proof.
  intros Hv. unfold task_row. apply Forall_fmap, Forall_forall. intros f _. simpl.
  destruct (Hv f) as (s & -> & Hs). exact Hs.
Qed.

Lemma reader_csv_text (tasks : list Task) :
  Forall Spec.valid_task tasks →
  Csv.reader (csv_text tasks) = Some (fieldnames :: (task_row <$> tasks)).
Proof.
  intros Hv. rewrite reader_drive, rows_text_foldr. apply drive_rows.
  constructor.
  - repeat constructor; by vm_compute.
  - apply Forall_fmap. eapply Forall_impl; [exact Hv|]. apply task_row_within_limit.
Qed.

Lemma task_of_row_dict (t : Task) :
  Spec.valid_task t → task_of_row (Csv.row_dict fieldnames (task_row t)) = t.
Proof.
  intros Hv.
  destruct (Hv ID) as (v1 & H1 & _), (Hv TITLE) as (v2 & H2 & _),
    (Hv DESCRIPTION) as (v3 & H3 & _), (Hv PRIORITY) as (v4 & H4 & _),
    (Hv DUE_DATE) as (v5 & H5 & _), (Hv CATEGORY) as (v6 & H6 & _),
    (Hv CREATED_AT) as (v7 & H7 & _), (Hv UPDATED_AT) as (v8 & H8 & _),
    (Hv STATUS) as (v9 & H9 & _).
  destruct t. simpl in *. subst. reflexivity.
Qed.

Lemma dict_reader_csv_text (tasks : list Task) :
  Forall Spec.valid_task tasks →
  Csv.dict_reader (csv_text tasks)
  = Some (Csv.row_dict fieldnames <$> (task_row <$> tasks)).
Proof.
  intros Hv. unfold Csv.dict_reader. rewrite reader_csv_text by done. do 2 f_equal.
  clear Hv. induction tasks as [|t tasks IH]; [done|].
  rewrite fmap_cons, filter_cons_True by done. by rewrite IH.
Qed.

(** Loading a file that holds the text of valid tasks gives the tasks. *)
Lemma csv_load_tasks_csv_text (file_path : string) (tasks : list Task) (fs : filesystem) :
  Forall Spec.valid_task tasks →
  fs !! file_path = Some (File (csv_text tasks)) →
  csv_load_tasks file_path fs = Returned tasks.
Proof.
  intros Hv Hfs. unfold csv_load_tasks, exists_, read. rewrite Hfs. cbn [negb].
  rewrite dict_reader_csv_text by done. f_equal.
  clear Hfs. induction Hv as [|t tasks Ht _ IH]; [done|].
  rewrite !fmap_cons, task_of_row_dict by done. by f_equal.
Qed.
End csv_tasks_round_trip.

(** *** The JSON document of the contact manager *)

Section json_round_trip.
Import Json.

Lemma scanstring_escape_char (c : ascii) (rest : string) :
  scanstring (escape_char c +:+ rest)
  = match scanstring rest with
    | Ok (str, rest') => Ok (String c str, rest')
    | JSONDecodeError => JSONDecodeError
    | Unsupported => Unsupported
    end.
Proof. destruct c as [[] [] [] [] [] [] [] []]; reflexivity. Qed.

Lemma scanstring_escape (s rest : string) :
  scanstring (escape s +:+ String quote rest) = Ok (s, rest).
Proof.
  induction s as [|c s IH]; [reflexivity|].
  cbn [escape]. by rewrite app_assoc, scanstring_escape_char, IH.
Qed.

Lemma scan_once_string (fuel : nat) (s rest : string) :
  scan_once (S fuel) (encode_string s +:+ rest) = Ok (Str s, rest).
Proof.
  unfold encode_string. rewrite app_cons, app_assoc, app_cons, app_nil_l.
  cbn [scan_once]. replace (Ascii.eqb quote quote) with true by reflexivity.
  by rewrite scanstring_escape.
Qed.

Lemma encode_arr_cons (level : nat) (x : value) (xs : list value) :
  encode level (Arr (x :: xs))
  = "[" +:+ newline_indent (S level) +:+ encode (S level) x +:+ arr_tail level xs.
Proof. reflexivity. Qed.

Lemma encode_string_cons (s rest : string) :
  encode_string s +:+ rest = String quote (escape s +:+ String quote rest).
Proof. unfold encode_string. by rewrite app_cons, app_assoc, app_cons, app_nil_l. Qed.

Lemma skip_ws_nonws (c : ascii) (s : string) :
  is_ws c = false → skip_ws (String c s) = String c s.
Proof. intros H. simpl. by rewrite H. Qed.

Lemma skip_ws_spaces (n : nat) (s : string) : skip_ws (spaces n +:+ s) = skip_ws s.
Proof. induction n as [|n IH]; [done|]. cbn [spaces]. rewrite app_cons. exact IH. Qed.

Lemma skip_ws_indent (level : nat) (s : string) :
  skip_ws (newline_indent level +:+ s) = skip_ws s.
Proof. unfold newline_indent. rewrite app_cons. cbn [skip_ws]. apply skip_ws_spaces.
Qed.

(** One member with a string value, and what follows it. *)
Lemma members_string (fuel : nat) (acc : list (string * value)) (key s rest : string) :
  members (S (S fuel)) acc
    (String quote (escape key +:+ String quote
       (String ":" (String " " (String quote (escape s +:+ String quote rest))))))
  = match skip_ws rest with
    | String c rest' =>
        if Ascii.eqb c ","
        then members (S fuel) (Py.dict_set acc key (Str s)) (skip_ws rest')
        else if Ascii.eqb c "}" then Ok (Obj (Py.dict_set acc key (Str s)), rest')
        else JSONDecodeError
    | EmptyString => JSONDecodeError
    end.
Proof.
  cbn [members]. replace (Ascii.eqb quote quote) with true by reflexivity.
  rewrite scanstring_escape.
  rewrite (skip_ws_nonws ":") by reflexivity.
  replace (Ascii.eqb ":" ":") with true by reflexivity.
  change (skip_ws (String " " ?x)) with (skip_ws x).
  rewrite (skip_ws_nonws quote) by reflexivity.
  cbn [scan_once]. replace (Ascii.eqb quote quote) with true by reflexivity.
  rewrite scanstring_escape. reflexivity.
Qed.

Lemma scan_once_object_open (fuel level : nat) (s : string) :
  scan_once (S fuel) (String "{" (newline_indent level +:+ String quote s))
  = members fuel [] (String quote s).
Proof.
  cbn [scan_once]. replace (Ascii.eqb "{" quote) with false by reflexivity.
  replace (Ascii.eqb "{" "{") with true by reflexivity.
  rewrite skip_ws_indent, (skip_ws_nonws quote) by reflexivity.
  by replace (Ascii.eqb quote "}") with false by reflexivity.
Qed.

Lemma scan_once_contact (fuel : nat) (name phone email rest : string) :
  5 ≤ fuel →
  scan_once fuel (encode 1 (Contacts.contact name phone email) +:+ rest)
  = Ok (Contacts.contact name phone email, rest).
Proof.
  intros Hf. do 5 (destruct fuel as [|fuel]; [lia|]). clear Hf.
  unfold Contacts.contact. cbn [encode].
  repeat (rewrite app_assoc || rewrite encode_string_cons || rewrite app_cons
          || rewrite app_nil_l).
  rewrite scan_once_object_open.
  rewrite members_string, (skip_ws_nonws ",") by reflexivity.
  replace (Ascii.eqb "," ",") with true by reflexivity.
  rewrite skip_ws_indent, (skip_ws_nonws quote) by reflexivity.
  rewrite members_string, (skip_ws_nonws ",") by reflexivity.
  replace (Ascii.eqb "," ",") with true by reflexivity.
  rewrite skip_ws_indent, (skip_ws_nonws quote) by reflexivity.
  rewrite members_string, skip_ws_indent, (skip_ws_nonws "}") by reflexivity.
  reflexivity.
Qed.

Lemma arr_tail_length (cs : list value) : length cs + 2 ≤ String.length (arr_tail 0 cs).
Proof.
  induction cs as [|c cs IH]; [simpl; lia|].
  cbn [arr_tail]. rewrite !app_length. simpl in *. lia.
Qed.

(** The items of the list after the opening bracket. *)
Lemma items_contacts (cs : list value) (fuel : nat) (acc : list value) (c : value)
  (rest : string) :
  Forall Spec.valid_contact (c :: cs) →
  length cs + 6 ≤ fuel →
  items fuel acc (encode 1 c +:+ arr_tail 0 cs +:+ rest) = Ok (Arr (acc ++ c :: cs), rest).
Proof.
  revert fuel acc c. induction cs as [|c' cs IH]; intros fuel acc c Hv Hf.
  - destruct fuel as [|fuel]; [lia|]. apply Forall_cons in Hv as [(n & p & e & ->) _].
    cbn [items]. rewrite scan_once_contact by (simpl in Hf; lia).
    cbn [arr_tail]. rewrite app_assoc, skip_ws_indent.
    rewrite app_cons, app_nil_l, (skip_ws_nonws "]") by reflexivity. reflexivity.
  - destruct fuel as [|fuel]; [lia|]. apply Forall_cons in Hv as [(n & p & e & ->) Hv].
    cbn [items]. rewrite scan_once_contact by (simpl in Hf; lia).
    cbn [arr_tail]. rewrite !app_assoc, app_cons, app_nil_l.
    rewrite (skip_ws_nonws ",") by reflexivity.
    replace (Ascii.eqb "," ",") with true by reflexivity.
    rewrite skip_ws_indent.
    assert (∀ s, skip_ws (encode 1 c' +:+ s) = encode 1 c' +:+ s) as ->.
    { intros s. apply Forall_cons in Hv as [(n' & p' & e' & ->) _]. reflexivity. }
    rewrite IH; [|done | simpl in Hf; lia]. by rewrite <- (assoc_L (++)).
Qed.

(** [json.load] of what [json.dump] wrote for a list of contacts. *)
Lemma loads_dumps_contacts (cs : list value) :
  Forall Spec.valid_contact cs → loads (dumps (Arr cs)) = Ok (Arr cs).
Proof.
  intros Hv. destruct cs as [|c cs]; [reflexivity|].
  unfold loads, dumps. rewrite encode_arr_cons.
  rewrite app_cons, app_nil_l. rewrite (skip_ws_nonws "[") by reflexivity.
  cbn [scan_once]. replace (Ascii.eqb "[" quote) with false by reflexivity.
  replace (Ascii.eqb "[" "{") with false by reflexivity.
  replace (Ascii.eqb "[" "[") with true by reflexivity.
  rewrite skip_ws_indent.
  assert (∀ s, ∃ s', encode 1 c +:+ s = String "{" s') as Hopen.
  { intros s. apply Forall_cons in Hv as [(n & p & e & ->) _]. by eexists. }
  destruct (Hopen (arr_tail 0 cs)) as [s' Hs'].
  rewrite Hs', (skip_ws_nonws "{") by reflexivity.
  replace (Ascii.eqb "{" "]") with false by reflexivity.
  rewrite <- Hs', <- (app_nil_r (arr_tail 0 cs)).
  rewrite items_contacts; [done..|].
  pose proof (arr_tail_length cs). cbn [String.length]. rewrite !app_length. simpl. lia.
Qed.
End json_round_trip.

(** C2.  What a store saves it loads again, in the same order and hence
    as the same set.  For the CSV storage: valid tasks, a directory in
    which the temporary and the canonical file can be written; [save_tasks]
    then returns and [load_tasks] returns the tasks saved.  For the JSON
    storage of the contact manager: valid contacts and a writable database
    file; [_save_contacts] then returns and [_load_contacts] returns the
    contacts saved.  (The database program has no save and load of a
    record set.) *)
Theorem save_load_round_trip :
  (∀ file_path (tasks : list TaskPlanner.Task) (fs : FS.filesystem),
      Forall Spec.valid_task tasks →
      fs !! TaskPlanner.temp_file file_path ≠ Some FS.Dir →
      fs !! file_path ≠ Some FS.Dir →
      ∃ fs', TaskPlanner.csv_save_tasks file_path tasks fs = (fs', Returned ())
             ∧ TaskPlanner.csv_load_tasks file_path fs' = Returned tasks) ∧
  (∀ (m : Contacts.ContactManager) (fs : FS.filesystem),
      Forall Spec.valid_contact (Contacts.contacts m) →
      fs !! Contacts.db_path m ≠ Some FS.Dir →
      ∃ fs', Contacts.save_contacts m fs = (fs', Returned ())
             ∧ Contacts.load_contacts (Contacts.db_path m) fs'
               = Some (fs', Returned (Contacts.contacts m))).
Proof.
  split.
  - intros file_path tasks fs Hv Htmp Hpath. rewrite csv_save_tasks_spec.
    eexists. split.
    + destruct (fs !! TaskPlanner.temp_file file_path) as [[]|],
        (fs !! file_path) as [[]|]; done.
    + apply csv_load_tasks_csv_text; [done|]. apply lookup_insert_eq.
  - intros m fs Hv Hpath. unfold Contacts.save_contacts, Contacts.save_contacts_script.
    cbn [FS.run]. unfold FS.open_w.
    assert (FS.write (Contacts.db_path m) (Json.dumps (Json.Arr (Contacts.contacts m)))
              (<[Contacts.db_path m := FS.File EmptyString]> fs)
            = Returned (<[Contacts.db_path m :=
                            FS.File (Json.dumps (Json.Arr (Contacts.contacts m)))]> fs)) as Hw.
    { unfold FS.write. by rewrite lookup_insert_eq, insert_insert_eq, app_nil_l. }
    exists (<[Contacts.db_path m :=
                FS.File (Json.dumps (Json.Arr (Contacts.contacts m)))]> fs).
    split.
    + destruct (fs !! Contacts.db_path m) as [[]|]; [|done|]; by rewrite Hw.
    + unfold Contacts.load_contacts, FS.exists_, FS.read. rewrite lookup_insert_eq.
      cbn [negb]. by rewrite loads_dumps_contacts.
Qed.

Lemma save_load_round_trip_witness :
  let t := TaskPlanner.mkTask (Some "1") (Some "Buy milk, eggs") (Some EmptyString)
             (Some "high") (Some "2099-01-01") (Some "home") (Some "t0") (Some "t0")
             (Some "pending") in
  Forall Spec.valid_task [t] ∧
  (∅ : FS.filesystem) !! TaskPlanner.temp_file "tasks.csv" ≠ Some FS.Dir ∧
  (∅ : FS.filesystem) !! "tasks.csv" ≠ Some FS.Dir ∧
  ∃ fs', TaskPlanner.csv_save_tasks "tasks.csv" [t] ∅ = (fs', Returned ())
         ∧ TaskPlanner.csv_load_tasks "tasks.csv" fs' = Returned [t].
Proof.
  intros t.
  assert (Forall Spec.valid_task [t]) as Hv.
  { repeat constructor. intros f. destruct f; eexists; (split; [reflexivity|]); by vm_compute. }
  assert ((∅ : FS.filesystem) !! TaskPlanner.temp_file "tasks.csv" ≠ Some FS.Dir) as H1
      by discriminate.
  assert ((∅ : FS.filesystem) !! "tasks.csv" ≠ Some FS.Dir) as H2 by discriminate.
  split; [exact Hv|]. split; [exact H1|]. split; [exact H2|].
  exact (proj1 save_load_round_trip "tasks.csv" [t] ∅ Hv H1 H2).
Defined.

(** * Further properties *)

(** ** The contact manager *)

Section contact_book.
Import Contacts.

Lemma valid_contact_name (c : Json.value) :
  Spec.valid_contact c → ∃ n, getitem c "name" = Returned (Json.Str n) ∧ name_key c = Py.lower n.
Proof. intros (n & p & e & ->). by exists n. Qed.

Lemma valid_contacts_names (l : list Json.value) :
  Forall Spec.valid_contact l →
  Forall (λ c, ∃ n, getitem c "name" = Returned (Json.Str n)) l.
Proof.
  intros H. eapply Forall_impl; [exact H|].
  intros c Hc. destruct (valid_contact_name c Hc) as (n & Hn & _). eauto.
Qed.

(** [_find_contact_index] on a list of contact dicts: the first position
    whose key is the one looked for. *)
Lemma find_from_keys (i : nat) (key : string) (l : list Json.value) :
  Forall Spec.valid_contact l →
  (find_from i key l = Returned None ∧ key ∉ name_key <$> l)
  ∨ (∃ k c, find_from i key l = Returned (Some (i + k)) ∧ l !! k = Some c ∧ name_key c = key
            ∧ key ∉ name_key <$> take k l).
Proof.
  intros Hv. revert i. induction Hv as [|c l Hc _ IH]; intros i.
  - left. split; [done|]. by intros ?%elem_of_nil.
  - destruct (valid_contact_name c Hc) as (n & Hn & Hk). cbn [find_from]. rewrite Hn.
    destruct (String.eqb_spec (Py.lower n) key) as [Heq|Hne].
    + right. exists 0, c. rewrite Nat.add_0_r. split; [done|]. split; [done|].
      split; [congruence|]. by intros ?%elem_of_nil.
    + destruct (IH (S i)) as [[Hf Hnot]|(k & c' & Hf & Hl & Hkey & Hnot)].
      * left. split; [done|]. rewrite fmap_cons. intros [?|?]%elem_of_cons; congruence.
      * right. exists (S k), c'. rewrite Nat.add_succ_r. split; [done|]. split; [done|].
        split; [done|]. cbn [take]. rewrite fmap_cons.
        intros [?|?]%elem_of_cons; congruence.
Qed.

Lemma NoDup_insert_fresh {A} (l : list A) (i : nat) (x : A) :
  NoDup l → x ∉ l → NoDup (<[i := x]> l).
Proof.
  intros Hnd Hx. destruct (l !! i) as [y|] eqn:Hy.
  - rewrite insert_take_drop by (by eapply lookup_lt_Some).
    rewrite <- (take_drop_middle l i y Hy) in Hnd, Hx.
    apply NoDup_app in Hnd as (H1 & H2 & H3). apply NoDup_cons in H3 as [H3 H4].
    apply NoDup_app. split; [done|]. split.
    + intros z Hz [->|Hz']%elem_of_cons.
      * apply Hx, elem_of_app. by left.
      * apply (H2 z Hz). by right.
    + apply NoDup_cons. split; [|done]. intros Hin. apply Hx, elem_of_app. right. by right.
  - by rewrite list_insert_ge by (by apply lookup_ge_None).
Qed.

Lemma contact_book_insert (l : list Json.value) (i : nat) (c0 c : Json.value) :
  contact_book l → l !! i = Some c0 → Spec.valid_contact c →
  name_key c = name_key c0 ∨ name_key c ∉ name_key <$> l →
  contact_book (<[i := c]> l).
Proof.
  intros [Hv Hnd] Hi Hc Hk. split.
  - by apply Forall_insert.
  - rewrite list_fmap_insert. destruct Hk as [Hk|Hk].
    + rewrite Hk, list_insert_id; [done|]. by rewrite list_lookup_fmap, Hi.
    + by apply NoDup_insert_fresh.
Qed.

End contact_book.

Section contact_ops.
Import FS Contacts.

Lemma manager_eta (m : ContactManager) : Manager (db_path m) (contacts m) = m.
Proof. by destruct m. Qed.

Lemma find_from_snoc (i : nat) (l : list Json.value) (name phone email : string) :
  find_from i (Py.lower name) l = Returned None →
  find_from i (Py.lower name) (l ++ [contact name phone email])
  = Returned (Some (i + length l)).
Proof.
  revert i. induction l as [|c l IH]; intros i.
  - intros _. simpl. by rewrite String.eqb_refl, Nat.add_0_r.
  - cbn [find_from app]. destruct (getitem c "name") as [[]|]; try done.
    destruct (String.eqb _ _); [done|]. intros H. rewrite (IH _ H). simpl.
    do 2 f_equal. lia.
Qed.

(** X1.  A contact that has just been added is found under its name,
    whatever the case of the letters, at the end of the list. *)
Theorem add_contact_then_find (name phone email : string) (m : ContactManager)
    (fs : filesystem) (m' : ContactManager) (fs' : filesystem) (name' : string) :
  add_contact name phone email m fs = (m', fs', Returned ()) →
  Py.lower name' = Py.lower name →
  find_contact_index name' m' = Returned (Some (length (contacts m)))
  ∧ contacts m' !! length (contacts m) = Some (contact name phone email).
Proof.
  unfold add_contact. destruct (validate_contact _ _ _); [|done].
  destruct (find_contact_index name m) as [[j|]|] eqn:Hf; try done.
  destruct (save_contacts _ fs) as [fs1 [[]|]]; [|done]. intros [= <- <-] Hl.
  cbn [contacts]. split.
  - unfold find_contact_index in *. cbn [contacts]. rewrite Hl.
    by rewrite find_from_snoc.
  - rewrite lookup_app_r by done. by rewrite Nat.sub_diag.
Qed.

End contact_ops.

Section contact_ops2.
Import FS Contacts.

Lemma filter_id {A} (P : A → Prop) `{∀ x, Decision (P x)} (l : list A) :
  Forall P l → filter P l = l.
Proof.
  induction 1 as [|x l Hx _ IH]; [done|]. by rewrite filter_cons_True, IH.
Qed.

Lemma delete_unique_key (l : list Json.value) (k : nat) (c : Json.value) :
  NoDup (name_key <$> l) → l !! k = Some c →
  delete k l = filter (λ c', name_key c' ≠ name_key c) l.
Proof.
  intros Hnd Hk. rewrite <- (take_drop_middle l k c Hk) in Hnd |- * at 2.
  rewrite fmap_app, fmap_cons in Hnd.
  apply NoDup_app in Hnd as (_ & H2 & H3). apply NoDup_cons in H3 as [H3 _].
  rewrite filter_app, filter_cons_False by (by intros H; apply H).
  rewrite !filter_id.
  - rewrite delete_take_drop. done.
  - apply Forall_forall. intros c' Hc' Heq. apply H3. rewrite <- Heq.
    by apply list_elem_of_fmap_2.
  - apply Forall_forall. intros c' Hc' Heq. apply (H2 (name_key c')).
    + by apply list_elem_of_fmap_2.
    + rewrite Heq. by left.
Qed.

Lemma delete_contact_found (name : string) (m : ContactManager) (fs : filesystem) (k : nat) :
  find_from 0 (Py.lower name) (contacts m) = Returned (Some (0 + k)) →
  contacts (delete_contact name m fs).1.1 = delete k (contacts m).
Proof.
  intros Hf. unfold delete_contact, find_contact_index. rewrite Hf. simpl.
  by destruct (save_contacts _ _) as [? [|]].
Qed.

(** X2.  In a contact book, [delete_contact] removes exactly the contact
    stored under the name, case ignored, and keeps the others in place;
    the name is not found afterwards.  This holds whether or not the save
    that follows succeeds.  When no contact has the name, the call raises
    [ContactNotFoundError] and changes nothing. *)
Theorem delete_contact_by_name (name : string) (m : ContactManager) (fs : filesystem) :
  contact_book (contacts m) →
  let m' := (delete_contact name m fs).1.1 in
  (Py.lower name ∈ name_key <$> contacts m →
   contacts m' = filter (λ c, name_key c ≠ Py.lower name) (contacts m)
   ∧ length (contacts m') + 1 = length (contacts m)
   ∧ find_contact_index name m' = Returned None)
  ∧ (Py.lower name ∉ name_key <$> contacts m →
     delete_contact name m fs = (m, fs, Raised ContactNotFoundError)).
Proof.
  intros [Hv Hnd] m'. unfold m'. clear m'.
  destruct (find_from_keys 0 (Py.lower name) _ Hv)
    as [[Hf Hnot]|(k & c & Hf & Hk & Hkey & _)].
  - split; [done|]. intros _. unfold delete_contact, find_contact_index. by rewrite Hf.
  - split.
    + intros _. rewrite (delete_contact_found _ _ _ _ Hf).
      rewrite (delete_unique_key _ _ _ Hnd Hk), Hkey. split; [done|]. split.
      * rewrite <- Hkey, <- (delete_unique_key _ _ _ Hnd Hk), length_delete by done.
        apply lookup_lt_Some in Hk. lia.
      * unfold find_contact_index.
        rewrite (delete_contact_found _ _ _ _ Hf), (delete_unique_key _ _ _ Hnd Hk), Hkey.
        destruct (find_from_keys 0 (Py.lower name)
                    (filter (λ c0, name_key c0 ≠ Py.lower name) (contacts m)))
          as [[Hf' _]|(k' & c' & _ & Hk' & Hkey' & _)].
        -- apply Forall_forall. intros x [_ Hx]%list_elem_of_filter.
           by apply (proj1 (Forall_forall _ _) Hv).
        -- done.
        -- apply list_elem_of_lookup_2, list_elem_of_filter in Hk' as [Hne _]. done.
    + intros Hnot. destruct Hnot. rewrite <- Hkey. apply list_elem_of_fmap_2.
      by eapply list_elem_of_lookup_2.
Qed.

End contact_ops2.

Section contact_update.
Import FS Contacts.

Lemma update_field_cases (key : string) (new : option string)
    (check : Json.value → outcome exn ()) (c c' : Json.value) (o : outcome exn bool) :
  update_field key new check c = (c', o) →
  c' = c ∨ ∃ v, new = Some v ∧ check c = Returned () ∧ c' = setitem c key (Json.Str v).
Proof.
  unfold update_field. destruct new as [v|]; [|intros [= <- <-]; by left].
  destruct (getitem c key) as [old|]; [|intros [= <- <-]; by left].
  destruct (Json.is_str old v); [intros [= <- <-]; by left|].
  destruct (check c) as [[]|] eqn:Hc; intros [= <- <-]; [|by left].
  right. by exists v.
Qed.

Lemma add_contact_contacts (name phone email : string) (m : ContactManager) (fs : filesystem) :
  contacts (add_contact name phone email m fs).1.1 = contacts m
  ∨ (find_contact_index name m = Returned None
     ∧ contacts (add_contact name phone email m fs).1.1
       = contacts m ++ [contact name phone email]).
Proof.
  unfold add_contact. destruct (validate_contact _ _ _); [|by left].
  destruct (find_contact_index name m) as [[j|]|]; [by left| |by left].
  right. split; [done|]. by destruct (save_contacts _ _) as [? [|]].
Qed.

(** The entry under update after any of the three guarded assignments:
    the fields of a contact, its key the old one or that of a new name
    that is not taken. *)
Lemma update_contact_contacts (name : string) (new_name phone email : option string)
    (m : ContactManager) (fs : filesystem) :
  Forall Spec.valid_contact (contacts m) →
  contacts (update_contact name new_name phone email m fs).1.1 = contacts m
  ∨ ∃ k c0 c, contacts m !! k = Some c0 ∧ Spec.valid_contact c
      ∧ (name_key c = name_key c0 ∨ name_key c ∉ name_key <$> contacts m)
      ∧ contacts (update_contact name new_name phone email m fs).1.1
        = <[k := c]> (contacts m).
Proof.
  intros Hv. unfold update_contact.
  destruct (find_contact_index name m) as [[k|]|]; [|by left..].
  destruct (contacts m !! k) as [c0|] eqn:Hk; [|by left].
  right. exists k, c0.
  assert (Spec.valid_contact c0) as (n & p & e & ->)
    by (eapply (proj1 (Forall_forall _ _) Hv), list_elem_of_lookup_2, Hk).
  match goal with
  | |- context [update_field "name" new_name ?chk ?c] =>
      destruct (update_field "name" new_name chk c) as [c1 o1] eqn:H1
  end.
  assert (∃ n1, c1 = contact n1 p e
                ∧ (n1 = n ∨ Py.lower n1 ∉ name_key <$> contacts m)) as (n1 & -> & Hn1).
  { apply update_field_cases in H1 as [->|(v & -> & Hc & ->)]; [by eauto|].
    exists v. split; [done|]. right. change (default EmptyString (Some v)) with v in Hc.
    unfold find_contact_index in Hc.
    destruct (find_from_keys 0 (Py.lower v) _ Hv) as [[Hf Hnot]|(j & c' & Hf & _)];
      rewrite Hf in Hc; done. }
  assert (∀ c (o : outcome exn ()) (fs0 : filesystem),
             c = contact n1 p e ∨ (∃ p' e', c = contact n1 p' e') →
             ∃ c', contacts m !! k = Some (contact n p e) ∧ Spec.valid_contact c'
                   ∧ (name_key c' = name_key (contact n p e)
                      ∨ name_key c' ∉ name_key <$> contacts m)
                   ∧ contacts (Manager (db_path m) (<[k := c]> (contacts m)), fs0, o).1.1
                     = <[k := c']> (contacts m)) as Hput.
  { intros c o fs0 Hc. exists c. destruct Hc as [->|(p' & e' & ->)].
    - split; [done|]. split; [by do 3 eexists|]. split; [|done].
      destruct Hn1 as [->|Hn1]; [by left|by right].
    - split; [done|]. split; [by do 3 eexists|]. split; [|done].
      destruct Hn1 as [->|Hn1]; [by left|by right]. }
  destruct o1 as [u1|e1]; [|apply Hput; by left].
  match goal with
  | |- context [update_field "phone" phone ?chk ?c] =>
      destruct (update_field "phone" phone chk c) as [c2 o2] eqn:H2
  end.
  assert (∃ p2, c2 = contact n1 p2 e) as (p2 & ->).
  { apply update_field_cases in H2 as [->|(v & -> & _ & ->)]; by eauto. }
  destruct o2 as [u2|e2]; [|apply Hput; right; by eauto].
  match goal with
  | |- context [update_field "email" email ?chk ?c] =>
      destruct (update_field "email" email chk c) as [c3 o3] eqn:H3
  end.
  assert (∃ e3, c3 = contact n1 p2 e3) as (e3 & ->).
  { apply update_field_cases in H3 as [->|(v & -> & _ & ->)]; by eauto. }
  destruct o3 as [u3|e3']; [|apply Hput; right; by eauto].
  destruct (u1 || u2 || u3); [|apply Hput; right; by eauto].
  destruct (save_contacts _ fs) as [fs1 [[]|]]; apply Hput; right; by eauto.
Qed.

(** X3.  The operations of the contact manager keep a contact book a
    contact book: after [add_contact], [delete_contact] and
    [update_contact], with any arguments and whether the call returns or
    raises, every stored entry is a contact dict and no two stored names
    are equal up to case. *)
Theorem contact_book_kept (m : ContactManager) (fs : filesystem) :
  contact_book (contacts m) →
  (∀ name phone email, contact_book (contacts (add_contact name phone email m fs).1.1))
  ∧ (∀ name, contact_book (contacts (delete_contact name m fs).1.1))
  ∧ (∀ name new_name phone email,
        contact_book (contacts (update_contact name new_name phone email m fs).1.1)).
Proof.
  intros Hb. split; [|split].
  - intros name phone email.
    destruct (add_contact_contacts name phone email m fs) as [->|[Hf ->]]; [done|].
    destruct Hb as [Hv Hnd]. split.
    + apply Forall_app. split; [done|]. repeat constructor. by do 3 eexists.
    + rewrite fmap_app. apply NoDup_app. split; [done|]. split; [|apply NoDup_singleton].
      intros key Hkey ->%list_elem_of_singleton. revert Hkey.
      unfold find_contact_index in Hf.
      destruct (find_from_keys 0 (Py.lower name) _ Hv) as [[_ Hnot]|(j & c' & Hf' & _)];
        [done|congruence].
  - intros name. destruct Hb as [Hv Hnd].
    destruct (find_from_keys 0 (Py.lower name) _ Hv)
      as [[Hf Hnot]|(k & c & Hf & Hk & Hkey & _)].
    + unfold delete_contact, find_contact_index. by rewrite Hf.
    + rewrite (delete_contact_found _ _ _ _ Hf), (delete_unique_key _ _ _ Hnd Hk). split.
      * apply Forall_forall. intros x [_ Hx]%list_elem_of_filter.
        by apply (proj1 (Forall_forall _ _) Hv).
      * apply NoDup_fmap_2_strong; [|by apply NoDup_filter, (NoDup_fmap_1 name_key)].
        intros x y [_ Hx]%list_elem_of_filter [_ Hy]%list_elem_of_filter Hxy.
        apply list_elem_of_lookup in Hx as [i Hi], Hy as [j Hj].
        assert (i = j) as ->; [|congruence].
        apply (NoDup_lookup _ _ _ (name_key x) Hnd); rewrite list_lookup_fmap.
        -- by rewrite Hi.
        -- by rewrite Hj, Hxy.
  - intros name new_name phone email.
    destruct (update_contact_contacts name new_name phone email m fs (proj1 Hb))
      as [->|(k & c0 & c & Hk & Hc & Hkey & ->)]; [done|].
    by eapply contact_book_insert.
Qed.

End contact_update.

Section contact_update2.
Import FS Contacts.

Lemma update_field_changed (key v : string) (check : Json.value → outcome exn ())
    (c old : Json.value) :
  getitem c key = Returned old → Json.is_str old v = false →
  update_field key (Some v) check c
  = match check c with
    | Raised e => (c, Raised e)
    | Returned _ => (setitem c key (Json.Str v), Returned true)
    end.
Proof. intros Hg Hs. unfold update_field. by rewrite Hg, Hs. Qed.

Lemma is_str_ne (s v : string) : v ≠ s → Json.is_str (Json.Str s) v = false.
Proof. intros H. simpl. apply String.eqb_neq. congruence. Qed.

(** X4.  A contact cannot be renamed to another spelling of its own
    name: when the new name differs from the stored one but is equal to
    it up to case, [update_contact] finds the contact itself under the new
    name, raises [ContactExistsError] and changes nothing. *)
Theorem update_contact_same_name_other_case (name new_name : string)
    (phone email : option string) (m : ContactManager) (fs : filesystem)
    (k : nat) (c : Json.value) (n : string) :
  find_contact_index name m = Returned (Some k) →
  contacts m !! k = Some c →
  getitem c "name" = Returned (Json.Str n) →
  new_name ≠ n →
  Py.lower new_name = Py.lower name →
  update_contact name (Some new_name) phone email m fs = (m, fs, Raised ContactExistsError).
Proof.
  intros Hf Hk Hn Hne Hl. unfold update_contact. rewrite Hf, Hk.
  rewrite (update_field_changed "name" new_name _ c _ Hn (is_str_ne _ _ Hne)).
  change (default EmptyString (Some new_name)) with new_name.
  unfold find_contact_index in *. rewrite Hl, Hf.
  by rewrite list_insert_id, manager_eta.
Qed.

(** X5.  [update_contact] changes the stored dict field by field.  When
    the new phone number is accepted and the new address is then refused,
    the call raises [ValidationError] after the phone number has been
    replaced in the cache; nothing is written to the file. *)
Theorem update_contact_phone_kept_when_email_refused (name phone email : string)
    (m : ContactManager) (fs : filesystem) (k : nat) (n p e : string) :
  find_contact_index name m = Returned (Some k) →
  contacts m !! k = Some (contact n p e) →
  validate_contact (Json.Str n) (Json.Str phone) (Json.Str e) = Returned () →
  phone ≠ p →
  email ≠ e →
  email_ok email = false →
  update_contact name None (Some phone) (Some email) m fs
  = (Manager (db_path m) (<[k := contact n phone e]> (contacts m)), fs,
     Raised ValidationError).
Proof.
  intros Hf Hk Hv Hp He Hbad. unfold update_contact. rewrite Hf, Hk.
  change (update_field "name" None ?chk ?c) with (c, @Returned exn _ false). cbn iota.
  rewrite (update_field_changed "phone" phone _ (contact n p e) (Json.Str p))
    by (done || by apply is_str_ne).
  change (default EmptyString (Some phone)) with phone.
  change (getitem (contact n p e) "name") with (@Returned exn _ (Json.Str n)).
  change (getitem (contact n p e) "email") with (@Returned exn _ (Json.Str e)).
  cbn [validate_args]. rewrite Hv.
  change (setitem (contact n p e) "phone" (Json.Str phone)) with (contact n phone e).
  rewrite (update_field_changed "email" email _ (contact n phone e) (Json.Str e))
    by (done || by apply is_str_ne).
  change (default EmptyString (Some email)) with email.
  change (getitem (contact n phone e) "name") with (@Returned exn _ (Json.Str n)).
  change (getitem (contact n phone e) "phone") with (@Returned exn _ (Json.Str phone)).
  cbn [validate_args]. unfold validate_contact in *.
  destruct (negb (Py.string_exists _ n)); [done|].
  destruct (negb (phone_ok phone)); [done|]. by rewrite Hbad.
Qed.

(** X6.  The first start on a path that does not exist creates an empty
    file there and begins with no contacts.  A start on that empty file
    fails: an empty file is not a JSON document, and [_load_contacts]
    raises [DatabaseError]. *)
Theorem init_on_a_new_path (path : string) (fs : filesystem) :
  fs !! path = None →
  init path fs = Some (<[path := File EmptyString]> fs, Returned (Manager path []))
  ∧ init path (<[path := File EmptyString]> fs)
    = Some (<[path := File EmptyString]> fs, Raised DatabaseError).
Proof.
  intros Hp. unfold init, load_contacts, exists_, read. rewrite Hp, lookup_insert_eq. done.
Qed.

End contact_update2.

Section contact_transfer.
Import FS Contacts.

Lemma save_script_run (path : string) (l : list Json.value) (fs : filesystem) :
  run (save_contacts_script path l) fs
  = match fs !! path with
    | Some Dir => (fs, Some IsADirectoryError)
    | _ => (<[path := File (Json.dumps (Json.Arr l))]> fs, None)
    end.
Proof.
  unfold save_contacts_script. cbn [run]. unfold open_w.
  assert (write path (Json.dumps (Json.Arr l)) (<[path := File EmptyString]> fs)
          = Returned (<[path := File (Json.dumps (Json.Arr l))]> fs)) as Hw.
  { unfold write. by rewrite lookup_insert_eq, insert_insert_eq, app_nil_l. }
  destruct (fs !! path) as [[]|]; [|done|]; by rewrite Hw.
Qed.

Lemma check_all_accepted (l : list Json.value) :
  Forall accepted_contact l → check_all l = Returned ().
Proof.
  induction 1 as [|c l (n & p & e & -> & Hv) _ IH]; [done|].
  cbn [check_all]. unfold check_imported.
  change (has_keys (contact n p e) ["name"; "phone"; "email"]) with (@Returned exn _ true).
  change (getitem (contact n p e) "name") with (@Returned exn _ (Json.Str n)).
  change (getitem (contact n p e) "phone") with (@Returned exn _ (Json.Str p)).
  change (getitem (contact n p e) "email") with (@Returned exn _ (Json.Str e)).
  cbn [validate_args]. by rewrite Hv.
Qed.

Lemma names_lower_keys (l : list Json.value) :
  Forall Spec.valid_contact l → names_lower l = Returned (name_key <$> l).
Proof.
  induction 1 as [|c l (n & p & e & ->) _ IH]; [done|].
  cbn [names_lower]. change (getitem (contact n p e) "name") with (@Returned exn _ (Json.Str n)).
  by rewrite IH.
Qed.

Lemma accepted_valid (l : list Json.value) :
  Forall accepted_contact l → Forall Spec.valid_contact l.
Proof.
  intros H. eapply Forall_impl; [exact H|]. intros c (n & p & e & -> & _). by do 3 eexists.
Qed.

(** X7.  What [export_contacts] writes, [import_contacts] reads: when
    the exported contacts pass the validation and none of their names is
    stored in the importing manager, case ignored, the import returns,
    appends the exported contacts in their order and saves the longer
    list.  The names of the file are not compared with each other. *)
Theorem export_then_import (file_path : string) (m0 m : ContactManager)
    (fs0 fs : filesystem) :
  export_contacts file_path m0 fs0 = (fs, Returned ()) →
  Forall accepted_contact (contacts m0) →
  Forall Spec.valid_contact (contacts m) →
  (∀ key, key ∈ name_key <$> contacts m0 → key ∉ name_key <$> contacts m) →
  fs !! db_path m ≠ Some Dir →
  import_contacts file_path m fs
  = Some (Manager (db_path m) (contacts m ++ contacts m0),
          <[db_path m := File (Json.dumps (Json.Arr (contacts m ++ contacts m0)))]> fs,
          Returned ()).
Proof.
  intros Hex Hacc Hv Hdis Hdb. unfold export_contacts in Hex.
  rewrite save_script_run in Hex.
  assert (fs = <[file_path := File (Json.dumps (Json.Arr (contacts m0)))]> fs0) as Hfs
    by (destruct (fs0 !! file_path) as [[]|]; by simplify_eq).
  unfold import_contacts, read. rewrite Hfs at 1. rewrite lookup_insert_eq.
  rewrite loads_dumps_contacts by by apply accepted_valid.
  rewrite check_all_accepted by done.
  rewrite !names_lower_keys by (done || by apply accepted_valid).
  assert (existsb (λ n, bool_decide (n ∈ name_key <$> contacts m0)) (name_key <$> contacts m)
          = false) as ->.
  { apply not_true_is_false. intros (key & Hin & Hb)%existsb_exists.
    apply bool_decide_eq_true in Hb. apply (Hdis key Hb). by apply list_elem_of_In. }
  unfold save_contacts. rewrite save_script_run. cbn [db_path contacts].
  by destruct (fs !! db_path m) as [[]|].
Qed.


(** X9.  [export_contacts] fails only on a path it cannot open, with
    [FileError] and without touching a file.  Otherwise it writes the
    document to the path and touches no other file; a manager started on
    the exported file holds the same contacts in the same order. *)
Theorem export_contacts_then_init (file_path : string) (m : ContactManager) (fs : filesystem) :
  Forall Spec.valid_contact (contacts m) →
  (fs !! file_path = Some Dir → export_contacts file_path m fs = (fs, Raised FileError))
  ∧ (fs !! file_path ≠ Some Dir →
     ∃ fs', export_contacts file_path m fs = (fs', Returned ())
            ∧ (∀ p, p ≠ file_path → fs' !! p = fs !! p)
            ∧ init file_path fs' = Some (fs', Returned (Manager file_path (contacts m)))).
Proof.
  intros Hv. unfold export_contacts. rewrite save_script_run. split.
  - by intros ->.
  - intros Hp. eexists. split; [by destruct (fs !! file_path) as [[]|]|]. split.
    + intros p Hne. by rewrite lookup_insert_ne.
    + unfold init, load_contacts, exists_, read. rewrite lookup_insert_eq. cbn [negb].
      by rewrite loads_dumps_contacts.
Qed.

End contact_transfer.

(** ** The CSV repository *)

Section csv_repository.
Import TaskPlanner.
Context {W : Type} {storage : TaskStorage W}.
Variable other_attr : string → option Py.value.

Lemma repository_eta (r : repository (W:=W)) : Repository (tasks r) (world r) = r.
Proof. by destruct r. Qed.

Lemma find_app_id (task_id : string) (l1 l2 : list Task) :
  find (has_id task_id) (l1 ++ l2)
  = match find (has_id task_id) l1 with
    | Some t => Some t
    | None => find (has_id task_id) l2
    end.
Proof.
  induction l1 as [|x l1 IH]; [done|]. simpl. by destruct (has_id task_id x).
Qed.

Lemma create_task_tasks task_id now task_data (r : repository) :
  tasks (create_task task_id now task_data r).1
  = tasks r ++ [new_task task_id now task_data].
Proof.
  unfold create_task.
  pose proof (repo_save_tasks_tasks
                (Repository (tasks r ++ [new_task task_id now task_data]) (world r))) as H.
  by destruct (repo_save_tasks _) as [r' [|]].
Qed.

(** X10.  [create_task] appends the new task to the cached list.  It is
    then found under its id when the id was free; a task that held the id
    before is still the one found, and the lookup of any other id is
    unchanged.  All this holds also when the save that follows raises. *)
Theorem create_task_then_get task_id now task_data (r : repository) :
  let r' := (create_task task_id now task_data r).1 in
  tasks r' = tasks r ++ [new_task task_id now task_data]
  ∧ get_task task_id r'
    = Some (default (new_task task_id now task_data) (get_task task_id r))
  ∧ ∀ other_id, other_id ≠ task_id → get_task other_id r' = get_task other_id r.
Proof.
  intros r'. unfold r', get_task. rewrite create_task_tasks. split; [done|]. split.
  - rewrite find_app_id. destruct (find (has_id task_id) (tasks r)); [done|].
    simpl. unfold has_id. simpl. by rewrite bool_decide_eq_true_2.
  - intros other_id Hne. rewrite find_app_id.
    destruct (find (has_id other_id) (tasks r)); [done|].
    simpl. unfold has_id. simpl. rewrite bool_decide_eq_false_2; [done|]. congruence.
Qed.

Lemma find_filter_other (task_id other_id : string) (l : list Task) :
  other_id ≠ task_id →
  find (has_id other_id) (filter (λ t, id t ≠ Some task_id) l) = find (has_id other_id) l.
Proof.
  intros Hne. induction l as [|x l IH]; [done|].
  destruct (decide (id x = Some task_id)) as [Hx|Hx].
  - rewrite filter_cons_False by (by intros H; apply H). simpl.
    unfold has_id at 2. rewrite bool_decide_eq_false_2; [done|]. congruence.
  - rewrite filter_cons_True by done. simpl. by rewrite IH.
Qed.

Lemma delete_task_tasks task_id (r : repository) :
  tasks (delete_task task_id r).1 = filter (λ t, id t ≠ Some task_id) (tasks r).
Proof.
  unfold delete_task. cbn [tasks]. destruct (_ <? _)%nat; [|done].
  pose proof (repo_save_tasks_tasks
                (Repository (filter (λ t, id t ≠ Some task_id) (tasks r)) (world r))) as H.
  by destruct (repo_save_tasks _) as [r' [|]].
Qed.

(** X11.  [delete_task] removes every task that has the id, so the id is
    not found afterwards, and the lookup of any other id is unchanged.
    It answers [False] exactly when no task had the id; the repository is
    then left as it was and nothing is saved. *)
Theorem delete_task_then_get task_id (r : repository) :
  let r' := (delete_task task_id r).1 in
  get_task task_id r' = None
  ∧ (∀ other_id, other_id ≠ task_id → get_task other_id r' = get_task other_id r)
  ∧ ((delete_task task_id r).2 = Returned false ↔ get_task task_id r = None)
  ∧ (get_task task_id r = None → r' = r).
Proof.
  intros r'. unfold r', get_task. rewrite delete_task_tasks. split; [|split; [|split]].
  - apply find_none. by intros u [Hu _]%list_elem_of_filter.
  - intros other_id Hne. by apply find_filter_other.
  - unfold delete_task. cbn [tasks].
    destruct (find (has_id task_id) (tasks r)) as [t|] eqn:Hf.
    + destruct (find_split _ _ _ Hf) as (l1 & l2 & Hl & Hid & _).
      assert (length (filter (λ t, id t ≠ Some task_id) (tasks r)) < length (tasks r)) as Hlt.
      { apply (length_filter_lt _ _ t); [|by intros H; apply H].
        rewrite Hl. apply elem_of_app. right. by left. }
      apply Nat.ltb_lt in Hlt. rewrite Hlt.
      by destruct (repo_save_tasks _) as [r1 [[]|]].
    + rewrite filter_id by (by apply Forall_forall, find_none).
      by rewrite Nat.ltb_irrefl.
  - intros Hf. unfold delete_task. cbn [tasks].
    rewrite filter_id by (by apply Forall_forall, find_none).
    rewrite Nat.ltb_irrefl. apply repository_eta.
Qed.

Lemma field_of_name_inv (name : string) (f : TaskField) :
  field_of_name name = Some f → name = TaskField_value f.
Proof.
  unfold field_of_name. intros [_ H]%find_some. symmetry. by apply String.eqb_eq.
Qed.

Lemma apply_update_getfield update_data (t t1 : Task) (f : TaskField) :
  apply_update other_attr update_data t = Some t1 →
  TaskField_value f ∉ update_data.*1 →
  getfield t1 f = getfield t f.
Proof.
  revert t. induction update_data as [|[name value] ud IH]; intros t; [by intros [= <-]|].
  cbn [apply_update]. rewrite fmap_cons. intros Ha Hnot.
  apply not_elem_of_cons in Hnot as [Hne Hnot]. cbn [fst] in Hne.
  destruct (field_of_name name) as [g|] eqn:Hg.
  - rewrite (IH _ Ha Hnot). apply getfield_setfield_ne. intros ->.
    apply field_of_name_inv in Hg. congruence.
  - destruct (other_attr name); [done|]. by apply IH.
Qed.

Lemma fmap_replace_first {B} (g : Task → B) (task_id : string) (t' : Task) (l : list Task)
    (t : Task) :
  find (has_id task_id) l = Some t → g t' = g t →
  g <$> replace_first task_id t' l = g <$> l.
Proof.
  intros Hf Hg. destruct (find_split _ _ _ Hf) as (l1 & l2 & -> & _ & _ & ->).
  by rewrite !fmap_app, !fmap_cons, Hg.
Qed.

(** X12.  [update_task] keeps what the update data does not name: when
    no key of the data is [id], the ids of the cached tasks are the same
    list before and after, so the lookup of every id finds a task at the
    same place; when no key is [created_at], so are the creation times.
    The number of tasks never changes. *)
Theorem update_task_keeps_unnamed_fields task_id now update_data (r r' : repository)
    (o : outcome exn (option Task)) :
  update_task other_attr task_id now update_data r = Some (r', o) →
  length (tasks r') = length (tasks r)
  ∧ ("id" ∉ update_data.*1 → id <$> tasks r' = id <$> tasks r)
  ∧ ("created_at" ∉ update_data.*1 → created_at <$> tasks r' = created_at <$> tasks r).
Proof.
  unfold update_task.
  destruct (find (has_id task_id) (tasks r)) as [t|] eqn:Hf; [|by intros [= <- <-]].
  destruct (apply_update other_attr update_data t) as [t1|] eqn:Ha; [|done].
  pose proof (repo_save_tasks_tasks
                (Repository (replace_first task_id (setfield t1 UPDATED_AT (Some now))
                               (tasks r)) (world r))) as Ht.
  intros Hr.
  assert (tasks r' = replace_first task_id (setfield t1 UPDATED_AT (Some now)) (tasks r))
    as -> by (destruct (repo_save_tasks _) as [r1 [|]]; by simplify_eq).
  clear Hr Ht. split; [|split].
  - destruct (find_split _ _ _ Hf) as (l1 & l2 & Hl & _ & _ & ->). rewrite Hl.
    by rewrite !length_app.
  - intros Hnot. apply (fmap_replace_first id _ _ _ t Hf).
    change (getfield (setfield t1 UPDATED_AT (Some now)) ID = getfield t ID).
    rewrite getfield_setfield_ne by done. by apply (apply_update_getfield update_data).
  - intros Hnot. apply (fmap_replace_first created_at _ _ _ t Hf).
    change (getfield (setfield t1 UPDATED_AT (Some now)) CREATED_AT = getfield t CREATED_AT).
    rewrite getfield_setfield_ne by done. by apply (apply_update_getfield update_data).
Qed.

End csv_repository.

(** ** The CSV file behind the repository *)

Section csv_persistence.
Import FS TaskPlanner.
Variable file_path : string.
Variable other_attr : string → option Py.value.

Abbreviation csv := (CSVTaskStorage file_path).

Lemma repo_save_then_init (r0 r1 : repository (W:=filesystem)) :
  repo_save_tasks (storage:=csv) r0 = (r1, Returned ()) →
  Forall Spec.valid_task (tasks r0) →
  init (storage:=csv) (world r1) = Returned r1.
Proof.
  unfold repo_save_tasks. cbn [save_tasks csv]. rewrite csv_save_tasks_spec.
  intros Hs Hv.
  assert (r1 = Repository (tasks r0)
                 (<[file_path := File (csv_text (tasks r0))]>
                    (delete (temp_file file_path) (world r0)))) as ->.
  { destruct (world r0 !! temp_file file_path) as [[]|],
      (world r0 !! file_path) as [[]|]; by simplify_eq. }
  unfold init. cbn [load_tasks csv world].
  by rewrite (csv_load_tasks_csv_text file_path (tasks r0)) by (done || apply lookup_insert_eq).
Qed.

(** X13.  What the repository has saved, a repository opened on the same
    file loads: after a [create_task] or an [update_task] that returns the
    task, or a [delete_task] that returns [True], [TaskRepository(storage)]
    on the file system left behind holds the same tasks in the same order,
    provided every field of every task is a string within the reader's
    field size limit. *)
Theorem reopen_after_mutation (r r' : repository (W:=filesystem)) :
  Forall Spec.valid_task (tasks r') →
  (∃ task_id now task_data t,
      create_task (storage:=csv) task_id now task_data r = (r', Returned t))
  ∨ (∃ task_id now update_data t,
        update_task (storage:=csv) other_attr task_id now update_data r
        = Some (r', Returned (Some t)))
  ∨ (∃ task_id, delete_task (storage:=csv) task_id r = (r', Returned true)) →
  init (storage:=csv) (world r') = Returned r'.
Proof.
  intros Hv [(task_id & now & task_data & t & H)|[(task_id & now & ud & t & H)|(task_id & H)]].
  - unfold create_task in H.
    destruct (repo_save_tasks _) as [r1 [[]|]] eqn:Hs; [|done]. simplify_eq.
    apply (repo_save_then_init _ _ Hs).
    by rewrite <- (repo_save_tasks_tasks (storage:=csv)), Hs.
  - unfold update_task in H.
    destruct (find _ _); [|done]. destruct (apply_update _ _ _); [|done].
    destruct (repo_save_tasks _) as [r1 [[]|]] eqn:Hs; [|done]. simplify_eq.
    apply (repo_save_then_init _ _ Hs).
    by rewrite <- (repo_save_tasks_tasks (storage:=csv)), Hs.
  - unfold delete_task in H. destruct (_ <? _)%nat; [|done].
    destruct (repo_save_tasks _) as [r1 [[]|]] eqn:Hs; [|done]. simplify_eq.
    apply (repo_save_then_init _ _ Hs).
    by rewrite <- (repo_save_tasks_tasks (storage:=csv)), Hs.
Qed.

End csv_persistence.

(** ** Backups and the other files *)

Section prune_newest.
Context {A : Type}.
Variable prefix : string.
Variable N : nat.

Lemma sorted_head_greatest (x : string) (l : list string) :
  Sorted (flip String.le) (x :: l) → ∀ y, y ∈ x :: l → String.le y x.
Proof.
  intros Hs. apply Sorted_StronglySorted in Hs.
  - apply StronglySorted_inv in Hs as [_ Hall]. intros y [->|Hy]%elem_of_cons; [done|].
    by apply (proj1 (Forall_forall _ _) Hall).
  - intros a b c Hab Hbc. unfold flip in *. by etrans.
Qed.

(** The newest backup is never pruned. *)
Lemma prune_keeps_newest (dir : gmap string A) (k : string) (v : A) :
  0 < N → String.prefix prefix k = true → dir !! k = Some v →
  (∀ k', k' ∈ Spec.backup_names prefix dir → String.le k' k) →
  Spec.prune prefix N dir !! k = Some v.
Proof.
  intros HN Hp Hk Hmax. unfold Spec.prune. rewrite lookup_foldl_delete.
  rewrite decide_False; [done|].
  assert (k ∈ Spec.backup_names prefix dir) as Hin by (apply elem_of_names; eauto).
  pose proof (newest_first_perm (Spec.backup_names prefix dir)) as Hperm.
  pose proof (newest_first_sorted (Spec.backup_names prefix dir)) as Hsorted.
  assert (NoDup (Spec.newest_first (Spec.backup_names prefix dir))) as Hnd
      by (rewrite Hperm; apply NoDup_names).
  rewrite <- Hperm in Hin.
  destruct (Spec.newest_first (Spec.backup_names prefix dir)) as [|h l] eqn:Hl;
    [by apply elem_of_nil in Hin|].
  assert (h = k) as ->.
  { apply (anti_symm String.le).
    - apply Hmax. rewrite <- Hperm. by left.
    - by apply (sorted_head_greatest h l). }
  apply NoDup_cons in Hnd as [Hk' _]. destruct N as [|n]; [lia|]. simpl.
  intros Hd. apply Hk'. apply list_elem_of_lookup in Hd as [i Hi].
  rewrite lookup_drop in Hi. by eapply list_elem_of_lookup_2.
Qed.

End prune_newest.

Section backup_files.
Import FS.

Lemma run_frame (P : string → Prop) (steps : script) (fs : filesystem) :
  (∀ step fs1 fs2, step ∈ steps → step fs1 = Returned fs2 →
                   ∀ k, ¬ P k → fs2 !! k = fs1 !! k) →
  ∀ k, ¬ P k → (run steps fs).1 !! k = fs !! k.
Proof.
  intros Hstep k Hk.
  apply (run_invariant (λ fs1, fs1 !! k = fs !! k)); [|done].
  intros step fs1 fs2 Hin H1 Hs. by rewrite (Hstep step fs1 fs2 Hin Hs k Hk).
Qed.

Lemma write_frame (path text : string) (fs1 fs2 : filesystem) (k : string) :
  write path text fs1 = Returned fs2 → k ≠ path → fs2 !! k = fs1 !! k.
Proof.
  unfold write. destruct (fs1 !! path) as [[]|]; intros [= <-] Hne.
  by rewrite lookup_insert_ne.
Qed.

Lemma prefix_longer (s t : string) : t ≠ EmptyString → String.prefix (s +:+ t) s = false.
Proof.
  intros Ht. induction s as [|c s IH]; [by destruct t|].
  rewrite app_cons. simpl. by destruct (ascii_dec c c).
Qed.

Lemma backup_script_frame (file_path timestamp : string) (tasks : list TaskPlanner.Task)
    (fs : filesystem) (k : string) :
  TaskPlanner.is_backup file_path k = false →
  (run (TaskPlanner.backup_script file_path timestamp tasks) fs).1 !! k = fs !! k.
Proof.
  intros Hk. apply (run_frame (λ k, TaskPlanner.is_backup file_path k = true));
    [|by rewrite Hk].
  intros step fs1 fs2 Hin Hs k' Hk'.
  assert (k' ≠ TaskPlanner.backup_file file_path timestamp) as Hne.
  { intros ->. apply Hk'. apply prefix_app. }
  unfold TaskPlanner.backup_script in Hin. apply elem_of_app in Hin as [Hin|Hin].
  - apply elem_of_cons in Hin as [->|Hin].
    + unfold open_w in Hs. destruct (fs1 !! _) as [[]|]; simplify_eq;
        by rewrite lookup_insert_ne.
    + apply list_elem_of_singleton in Hin as ->. by eapply write_frame.
  - apply list_elem_of_fmap in Hin as (task & -> & _).
    unfold TaskPlanner.write_task in Hs. destruct (Csv.dict_to_list _ _); [|done].
    by eapply write_frame.
Qed.

Lemma cleanup_old_backups_frame (file_path : string) (fs : filesystem) (k : string) :
  TaskPlanner.is_backup file_path k = false →
  TaskPlanner.cleanup_old_backups file_path fs !! k = fs !! k.
Proof.
  intros Hk. unfold TaskPlanner.cleanup_old_backups. destruct (_ <? _)%nat; [|done].
  apply (run_frame (λ k, TaskPlanner.is_backup file_path k = true)); [|by rewrite Hk].
  intros step fs1 fs2 Hin Hs k' Hk'.
  apply list_elem_of_fmap in Hin as (name & -> & Hin).
  assert (TaskPlanner.is_backup file_path name = true) as Hname.
  { apply list_elem_of_lookup in Hin as [i Hi]. rewrite lookup_drop in Hi.
    apply list_elem_of_lookup_2 in Hi. unfold TaskPlanner.sort_reverse in Hi.
    rewrite merge_sort_Permutation in Hi. by apply list_elem_of_filter in Hi as [Hi _]. }
  unfold remove in Hs. destruct (fs1 !! name) as [[]|]; simplify_eq.
  apply lookup_delete_ne. by intros ->.
Qed.

Lemma foldl_try_remove_frame (l : list string) (dir : gmap string (option TodoApp.table))
    (k : string) :
  k ∉ l → foldl TodoApp.try_remove dir l !! k = dir !! k.
Proof.
  revert dir. induction l as [|name l IH]; intros dir Hk; [done|].
  apply not_elem_of_cons in Hk as [Hne Hk]. cbn [foldl]. rewrite IH by done.
  unfold TodoApp.try_remove. destruct (dir !! name) as [[]|]; [|done..].
  by apply lookup_delete_ne.
Qed.

Lemma run_remove_frame (l : list string) (fs : filesystem) (k : string) :
  k ∉ l → (run (remove <$> l) fs).1 !! k = fs !! k.
Proof.
  intros Hk. apply (run_frame (λ x, x ∈ l)); [|done].
  intros step fs1 fs2 Hin Hs k' Hk'. apply list_elem_of_fmap in Hin as (name & -> & Hin).
  unfold remove in Hs. destruct (fs1 !! name) as [[]|]; simplify_eq.
  apply lookup_delete_ne. by intros ->.
Qed.

Lemma cleanup_old_backups_db_frame (db_file : string)
    (dir dir' : gmap string (option TodoApp.table)) (k : string) :
  TodoApp.cleanup_old_backups db_file dir = Some dir' →
  String.prefix (TodoApp.backup_prefix db_file) k = false →
  dir' !! k = dir !! k.
Proof.
  unfold TodoApp.cleanup_old_backups, TodoApp.glob_backups.
  destruct (TodoApp.glob_literal db_file); [|done]. intros [= <-] Hk.
  apply foldl_try_remove_frame. intros Hin.
  apply list_elem_of_lookup in Hin as [i Hi]. rewrite lookup_drop in Hi.
  apply list_elem_of_lookup_2 in Hi. rewrite merge_sort_Permutation in Hi.
  apply list_elem_of_filter in Hi as [Hi _]. apply is_backup_prefix in Hi. congruence.
Qed.

(** The newest of the names that a cleanup sorts is among those it
    keeps. *)
Lemma newest_not_dropped (l : list string) (k : string) (n : nat) :
  0 < n → NoDup l → (∀ k', k' ∈ l → String.le k' k) →
  k ∉ drop n (Spec.newest_first l).
Proof.
  intros Hn Hnd Hmax Hin.
  pose proof (newest_first_perm l) as Hperm.
  pose proof (newest_first_sorted l) as Hsorted.
  rewrite <- Hperm in Hnd.
  destruct (Spec.newest_first l) as [|h t] eqn:Hl;
    [rewrite drop_nil in Hin; by apply elem_of_nil in Hin|].
  assert (k ∈ h :: t) as Hk.
  { apply list_elem_of_lookup in Hin as [i Hi]. rewrite lookup_drop in Hi.
    by eapply list_elem_of_lookup_2. }
  assert (h = k) as ->.
  { apply (anti_symm String.le).
    - apply Hmax. rewrite <- Hperm. by left.
    - by apply (sorted_head_greatest h t). }
  apply NoDup_cons in Hnd as [Hk' _]. destruct n as [|n]; [lia|]. simpl in Hin.
  apply Hk'. apply list_elem_of_lookup in Hin as [i Hi]. rewrite lookup_drop in Hi.
  by eapply list_elem_of_lookup_2.
Qed.

Lemma cleanup_old_backups_keeps (file_path : string) (fs : filesystem) (k : string) :
  (∀ k', k' ∈ Spec.backup_names (TaskPlanner.backup_prefix file_path) fs → String.le k' k) →
  TaskPlanner.cleanup_old_backups file_path fs !! k = fs !! k.
Proof.
  intros Hmax. unfold TaskPlanner.cleanup_old_backups. destruct (_ <? _)%nat; [|done].
  apply run_remove_frame, newest_not_dropped.
  - unfold TaskPlanner.MAX_BACKUP_FILES. lia.
  - unfold listdir. apply NoDup_filter, NoDup_filter, NoDup_fst_map_to_list.
  - intros k' [Hp [_ Hk']%list_elem_of_filter]%list_elem_of_filter.
    apply Hmax, elem_of_names. split; [done|]. by apply elem_of_keys.
Qed.

Lemma cleanup_old_backups_db_keeps (db_file : string)
    (dir : gmap string (option TodoApp.table)) (k : string) :
  TodoApp.glob_literal db_file = true →
  (∀ k', k' ∈ Spec.backup_names (TodoApp.backup_prefix db_file) dir → String.le k' k) →
  ∃ dir', TodoApp.cleanup_old_backups db_file dir = Some dir' ∧ dir' !! k = dir !! k.
Proof.
  intros Hl Hmax. unfold TodoApp.cleanup_old_backups, TodoApp.glob_backups. rewrite Hl.
  eexists. split; [done|]. apply foldl_try_remove_frame, newest_not_dropped.
  - unfold TodoApp.MAX_BACKUPS. lia.
  - apply NoDup_filter, NoDup_fst_map_to_list.
  - intros k' [Hp Hk']%list_elem_of_filter.
    apply Hmax, elem_of_names. split; [by apply is_backup_prefix|]. by apply elem_of_keys.
Qed.

(** X14.  A backup touches backup files only.  Whatever [backup_tasks]
    and [backup_database] return or raise, every path that does not begin
    with the backup prefix of the canonical path is left as it was, the
    canonical CSV file among them.  (For the database manager this is
    stated where [glob] is described: for a database path without
    wildcard characters.) *)
Theorem backup_touches_backups_only :
  (∀ file_path timestamp tasks (fs : filesystem),
      let fs' := (TaskPlanner.csv_backup_tasks file_path timestamp tasks fs).1 in
      (∀ k, TaskPlanner.is_backup file_path k = false → fs' !! k = fs !! k)
      ∧ fs' !! file_path = fs !! file_path) ∧
  (∀ db_file timestamp db (dir dir' : gmap string (option TodoApp.table)) o,
      TodoApp.backup_database db_file timestamp db dir = Some (dir', o) →
      ∀ k, String.prefix (TodoApp.backup_prefix db_file) k = false → dir' !! k = dir !! k) ∧
  (∀ db_file timestamp db (dir : gmap string (option TodoApp.table)),
      TodoApp.glob_literal db_file = true →
      is_Some (TodoApp.backup_database db_file timestamp db dir)).
Proof.
  split; [|split].
  - intros file_path timestamp tasks fs fs'.
    assert (∀ k, TaskPlanner.is_backup file_path k = false → fs' !! k = fs !! k) as Hframe.
    { intros k Hk. unfold fs', TaskPlanner.csv_backup_tasks.
      pose proof (backup_script_frame file_path timestamp tasks fs k Hk) as Hrun.
      destruct (run (TaskPlanner.backup_script file_path timestamp tasks) fs) as [fs1 [e|]];
        cbn [fst] in *; [done|]. by rewrite cleanup_old_backups_frame. }
    split; [done|]. apply Hframe. by apply prefix_longer.
  - intros db_file timestamp db dir dir' o Hb k Hk. unfold TodoApp.backup_database in Hb.
    assert (k ≠ TodoApp.backup_file db_file timestamp) as Hne.
    { intros ->. unfold TodoApp.backup_file in Hk. by rewrite prefix_app in Hk. }
    assert (∀ d, TodoApp.cleanup_old_backups db_file
                   (<[TodoApp.backup_file db_file timestamp := Some db]> dir) = Some d →
                 d !! k = dir !! k) as Hclean.
    { intros d Hd. rewrite (cleanup_old_backups_db_frame _ _ _ _ Hd Hk).
      by apply lookup_insert_ne. }
    destruct (dir !! TodoApp.backup_file db_file timestamp) as [[]|]; [|by simplify_eq|].
    all: destruct (TodoApp.cleanup_old_backups _ _) as [d|] eqn:Hd; [|done].
    all: simplify_eq; by apply Hclean.
  - intros db_file timestamp db dir Hl.
    unfold TodoApp.backup_database, TodoApp.cleanup_old_backups, TodoApp.glob_backups.
    rewrite Hl. by destruct (dir !! TodoApp.backup_file db_file timestamp) as [[]|].
Qed.

(** X15.  The newest backup holds what was backed up.  When no backup
    name is taken by a directory and the new backup file name is not below
    the name of any backup present, [backup_tasks] returns and a CSV
    storage opened on the new backup file loads the tasks backed up, their
    fields being strings within the reader's limit; [backup_database], for
    a database path without wildcard characters, returns and the new
    backup file holds the database. *)
Theorem newest_backup_holds_the_data :
  (∀ file_path timestamp tasks (fs : filesystem),
      backups_are_files file_path fs →
      (∀ k, k ∈ Spec.backup_names (TaskPlanner.backup_prefix file_path) fs →
            String.le k (TaskPlanner.backup_file file_path timestamp)) →
      Forall Spec.valid_task tasks →
      ∃ fs', TaskPlanner.csv_backup_tasks file_path timestamp tasks fs = (fs', Returned ())
             ∧ TaskPlanner.csv_load_tasks (TaskPlanner.backup_file file_path timestamp) fs'
               = Returned tasks) ∧
  (∀ db_file timestamp db (dir : gmap string (option TodoApp.table)),
      TodoApp.glob_literal db_file = true →
      backups_are_images db_file dir →
      (∀ k, k ∈ Spec.backup_names (TodoApp.backup_prefix db_file) dir →
            String.le k (TodoApp.backup_file db_file timestamp)) →
      ∃ dir', TodoApp.backup_database db_file timestamp db dir = Some (dir', Returned ())
              ∧ dir' !! TodoApp.backup_file db_file timestamp = Some (Some db)).
Proof.
  split.
  - intros file_path timestamp tasks fs Hq Hmax Hv.
    unfold TaskPlanner.csv_backup_tasks.
    rewrite backup_script_run by apply Hq, prefix_app.
    eexists. split; [done|]. apply csv_load_tasks_csv_text; [done|].
    rewrite cleanup_old_backups_keeps; [apply lookup_insert_eq|].
    intros k [Hp [v Hk]]%elem_of_names.
    destruct (decide (k = TaskPlanner.backup_file file_path timestamp)) as [->|Hne]; [done|].
    rewrite lookup_insert_ne in Hk by done. apply Hmax, elem_of_names. eauto.
  - intros db_file timestamp db dir Hl Hq Hmax.
    destruct (cleanup_old_backups_db_keeps db_file
                (<[TodoApp.backup_file db_file timestamp := Some db]> dir)
                (TodoApp.backup_file db_file timestamp) Hl) as (dir' & Hclean & Hk).
    { intros k [Hp [v Hk]]%elem_of_names.
      destruct (decide (k = TodoApp.backup_file db_file timestamp)) as [->|Hne]; [done|].
      rewrite lookup_insert_ne in Hk by done. apply Hmax, elem_of_names. eauto. }
    exists dir'. rewrite lookup_insert_eq in Hk. split; [|done].
    unfold TodoApp.backup_database. rewrite Hclean.
    assert (dir !! TodoApp.backup_file db_file timestamp ≠ Some None) as Hbf
        by apply Hq, prefix_app.
    by destruct (dir !! TodoApp.backup_file db_file timestamp) as [[]|].
Qed.

End backup_files.

(** ** The database repository *)

Section db_repository.
Import TodoApp.

Lemma assign_column (sets : list (string * option string)) (t : Task) (name : string) :
  name ∉ sets.*1 → column (assign sets t) name = column t name.
Proof.
  revert t. induction sets as [|[n v] sets IH]; intros t H; [done|].
  rewrite fmap_cons in H. apply not_elem_of_cons in H as [Hne Hnot].
  unfold assign in *. cbn [foldl fst snd]. rewrite IH by done.
  by apply column_set_column_ne.
Qed.

Lemma sets_keep_created_at update_data now :
  "created_at" ∉ (update_fields update_data ++ [("updated_at", Some now)]).*1.
Proof.
  rewrite fmap_app. intros [H|H]%elem_of_app.
  - apply list_elem_of_fmap in H as (fv & Heq & Hin).
    apply update_fields_elem in Hin as (_ & _ & _ & Hne). congruence.
  - apply list_elem_of_singleton in H. done.
Qed.

Lemma sets_keep_id_column update_data now :
  "id" ∉ (update_fields update_data ++ [("updated_at", Some now)]).*1.
Proof.
  intros H. apply list_elem_of_fmap in H as (fv & Heq & Hin).
  by apply (sets_keep_id update_data now fv).
Qed.

(** The table after [update_task]: the table before, or the table with
    the assignments made on the rows of the id, each of which then meets
    the column constraints. *)
Lemma update_task_table task_id now update_data (db : table) :
  let sets := update_fields update_data ++ [("updated_at", Some now)] in
  let db' := (λ t, if has_id task_id t then assign sets t else t) <$> db in
  (update_task task_id now update_data db).1 = db
  ∨ ((update_task task_id now update_data db).1 = db'
     ∧ ∀ t, t ∈ db → has_id task_id t = true → row_ok (assign sets t) = true).
Proof.
  intros sets db'. rewrite update_task_db_cases. fold sets. fold db'.
  destruct (get_task task_id db) as [t|]; [|by left].
  case_bool_decide; [by left|].
  destruct (forallb row_ok _) eqn:Hok; [|by left].
  right. split; [done|]. intros u Hu Hid.
  rewrite forallb_forall in Hok. apply Hok. apply list_elem_of_In.
  apply list_elem_of_filter. split.
  - unfold has_id in *. rewrite assign_id; [done|].
    intros fv Hfv. by apply (sets_keep_id update_data now).
  - unfold db'. apply list_elem_of_fmap. exists u. by rewrite Hid.
Qed.

(** X16.  The repository keeps the table within its constraints: after
    [create_task], [update_task] and [delete_task], with any arguments and
    whether the call returns or raises, every row meets the [NOT NULL] and
    [CHECK] constraints and has an id, and no id occurs twice.
    [update_task] moreover changes no id and no creation time. *)
Theorem table_constraints_kept (db : table) :
  table_ok db →
  (∀ task_id now task_data, table_ok (create_task task_id now task_data db).1)
  ∧ (∀ task_id now update_data,
        let db' := (update_task task_id now update_data db).1 in
        table_ok db' ∧ id <$> db' = id <$> db ∧ created_at <$> db' = created_at <$> db)
  ∧ (∀ task_id, table_ok (delete_task task_id db).1).
Proof.
  intros [Hrows Hnd]. split; [|split].
  - intros task_id now task_data. unfold create_task, insert.
    destruct (row_ok (new_task task_id now task_data)) eqn:Hok; [|done].
    case_bool_decide as Hin; [done|]. cbn [andb negb fst]. split.
    + apply Forall_app. split; [done|]. repeat constructor; [done|]. by eexists.
    + rewrite fmap_app. apply NoDup_app. split; [done|]. split; [|apply NoDup_singleton].
      intros x Hx ->%list_elem_of_singleton. apply Hin. by split.
  - intros task_id now update_data db'. unfold db'.
    destruct (update_task_table task_id now update_data db) as [->|[-> Hok]]; [done|].
    set (sets := update_fields update_data ++ [("updated_at", Some now)]) in *.
    assert (id <$> ((λ t, if has_id task_id t then assign sets t else t) <$> db) = id <$> db)
      as Hid.
    { rewrite <- list_fmap_compose. apply list_fmap_ext. intros i t _. simpl.
      destruct (has_id task_id t); [|done]. apply assign_id.
      intros fv Hfv. by apply (sets_keep_id update_data now). }
    split; [|split; [done|]].
    + split; [|by rewrite Hid].
      apply Forall_fmap. eapply Forall_impl; [apply Forall_and; split; [exact Hrows|]|].
      * apply Forall_forall. intros t Ht. exact (Hok t Ht).
      * intros t [[Hrow Hsome] Hok']. simpl. destruct (has_id task_id t) eqn:Ht; [|done].
        split; [by apply Hok'|]. rewrite assign_id; [done|].
        intros fv Hfv. by apply (sets_keep_id update_data now).
    + rewrite <- list_fmap_compose. apply list_fmap_ext. intros i t _. simpl.
      destruct (has_id task_id t); [|done].
      apply (assign_column sets t "created_at"), sets_keep_created_at.
  - intros task_id. unfold delete_task. cbn [fst]. split.
    + apply Forall_forall. intros t [_ Ht]%list_elem_of_filter.
      by apply (proj1 (Forall_forall _ _) Hrows).
    + apply NoDup_fmap_2_strong; [|by apply NoDup_filter, (NoDup_fmap_1 id)].
      intros x y [_ Hx]%list_elem_of_filter [_ Hy]%list_elem_of_filter Hxy.
      apply list_elem_of_lookup in Hx as [i Hi], Hy as [j Hj].
      assert (i = j) as ->; [|congruence].
      apply (NoDup_lookup _ _ _ (id x) Hnd); rewrite list_lookup_fmap.
      * by rewrite Hi.
      * by rewrite Hj, Hxy.
Qed.

End db_repository.

Section db_lookup.
Import TodoApp.

Lemma where_ineffective (filters : list (string * option string)) (t : Task) :
  (∀ name value, (name, value) ∈ filters →
     Py.truthy value = false
     ∨ name ∉ ["title"; "description"; "category"; "status"; "priority"]) →
  where_ filters t = Some true.
Proof.
  induction filters as [|[name value] filters IH]; intros H; [done|].
  cbn [where_].
  assert (condition name value = None) as ->.
  { destruct (H name value) as [Hv|Hn]; [by left| |].
    - by destruct value as [[|]|].
    - unfold condition. destruct value as [[|c v]|]; try done.
      rewrite !bool_decide_eq_false_2; [done| |].
      all: intros Hin; apply Hn;
        repeat (apply elem_of_cons in Hin as [->|Hin]; [apply list_elem_of_In; simpl; tauto|]);
        by apply elem_of_nil in Hin. }
  apply IH. intros n v Hin. apply H. by right.
Qed.

(** X17.  [get_all_tasks] returns the rows of the table, each once,
    ordered by creation time with the latest first.  [search_tasks]
    returns the same list when no filter is effective, that is when every
    filter has an empty value or names a column that is not searched. *)
Theorem get_all_tasks_newest_first (db : table) :
  get_all_tasks db ≡ₚ db
  ∧ Sorted created_desc (get_all_tasks db)
  ∧ ∀ filters,
      (∀ name value, (name, value) ∈ filters →
         Py.truthy value = false
         ∨ name ∉ ["title"; "description"; "category"; "status"; "priority"]) →
      search_tasks filters db = Some (get_all_tasks db).
Proof.
  split; [apply merge_sort_Permutation|]. split; [apply (Sorted_merge_sort _)|].
  intros filters H. unfold search_tasks, get_all_tasks.
  assert (forallb (λ t, bool_decide (is_Some (where_ filters t))) db = true) as ->.
  { apply forallb_forall. intros t _. apply bool_decide_eq_true.
    rewrite where_ineffective by done. by eexists. }
  do 2 f_equal. apply filter_id, Forall_forall. intros t _. by apply where_ineffective.
Qed.

Lemma find_app_db (task_id : string) (l1 l2 : list Task) :
  find (has_id task_id) (l1 ++ l2)
  = match find (has_id task_id) l1 with
    | Some t => Some t
    | None => find (has_id task_id) l2
    end.
Proof.
  induction l1 as [|x l1 IH]; [done|]. simpl. by destruct (has_id task_id x).
Qed.

Lemma find_none_db (task_id : string) (l : list Task) :
  find (has_id task_id) l = None ↔ Some task_id ∉ id <$> l.
Proof.
  induction l as [|x l IH]; simpl.
  - split; [by intros _ ?%elem_of_nil|done].
  - unfold has_id at 1. rewrite not_elem_of_cons. case_bool_decide as Hx.
    + split; [done|]. intros [? _]. congruence.
    + rewrite IH. split; [by intros ?; split; [congruence|]|by intros [_ ?]].
Qed.

(** X18.  A task that [create_task] has stored is the one [get_task]
    returns for its id, the lookup of every other id is unchanged, and
    the table has grown by this one row. *)
Theorem db_create_then_get task_id now task_data (db db' : table) (t : Task) :
  create_task task_id now task_data db = (db', Returned t) →
  db' = db ++ [t]
  ∧ get_task task_id db' = Some t
  ∧ ∀ other_id, other_id ≠ task_id → get_task other_id db' = get_task other_id db.
Proof.
  unfold create_task, insert. destruct (row_ok _); [|done].
  case_bool_decide as Hin; [done|]. cbn [andb negb]. intros [= <- <-].
  split; [done|]. unfold get_task. split.
  - rewrite find_app_db.
    assert (find (has_id task_id) db = None) as ->.
    { apply find_none_db. intros H. apply Hin. by split. }
    simpl. unfold has_id. simpl. by rewrite bool_decide_eq_true_2.
  - intros other_id Hne. rewrite find_app_db. destruct (find (has_id other_id) db); [done|].
    simpl. unfold has_id. simpl. rewrite bool_decide_eq_false_2; [done|congruence].
Qed.

Lemma find_filter_other_db (task_id other_id : string) (l : list Task) :
  other_id ≠ task_id →
  find (has_id other_id) (filter (λ t, id t ≠ Some task_id) l) = find (has_id other_id) l.
Proof.
  intros Hne. induction l as [|x l IH]; [done|].
  destruct (decide (id x = Some task_id)) as [Hx|Hx].
  - rewrite filter_cons_False by (by intros H; apply H). simpl.
    unfold has_id at 2. rewrite bool_decide_eq_false_2; [done|]. congruence.
  - rewrite filter_cons_True by done. simpl. by rewrite IH.
Qed.

(** X19.  [delete_task] removes the rows of the id: the id is not found
    afterwards and the lookup of every other id is unchanged.  It returns
    [True] exactly when a row had the id, and otherwise leaves the table
    as it was. *)
Theorem db_delete_then_get task_id (db : table) :
  let db' := (delete_task task_id db).1 in
  get_task task_id db' = None
  ∧ (∀ other_id, other_id ≠ task_id → get_task other_id db' = get_task other_id db)
  ∧ ((delete_task task_id db).2 = Returned true ↔ is_Some (get_task task_id db))
  ∧ (get_task task_id db = None → db' = db).
Proof.
  intros db'. unfold db', delete_task, get_task. cbn [fst snd]. split; [|split; [|split]].
  - apply find_none_db. intros (t & Ht & [Hne _]%list_elem_of_filter)%list_elem_of_fmap.
    congruence.
  - intros other_id Hne. by apply find_filter_other_db.
  - destruct (find (has_id task_id) db) as [t|] eqn:Hf.
    + split; [by eauto|]. intros _. f_equal. apply Nat.ltb_lt.
      apply find_some in Hf as [Hin Hid]. apply bool_decide_eq_true in Hid.
      apply (length_filter_lt _ _ t); [by apply list_elem_of_In|]. by intros H; apply H.
    + rewrite filter_id.
      * rewrite Nat.ltb_irrefl. split; [done|]. by intros [? ?].
      * apply Forall_forall. intros t Ht Hid. apply find_none_db in Hf. apply Hf.
        rewrite <- Hid. by apply list_elem_of_fmap_2.
  - intros Hf. apply filter_id, Forall_forall. intros t Ht Hid.
    apply find_none_db in Hf. apply Hf. rewrite <- Hid. by apply list_elem_of_fmap_2.
Qed.

End db_lookup.

(** ** The input validators *)

Section strip.

Lemma lstrip_idemp (s : string) : Py.lstrip (Py.lstrip s) = Py.lstrip s.
Proof.
  induction s as [|c s IH]; [done|]. simpl. destruct (Py.isspace c) eqn:Hc; [done|].
  simpl. by rewrite Hc.
Qed.

Lemma rev_rev (s : string) : String.rev (String.rev s) = s.
Proof. apply rev_rev_app. Qed.

Lemma rstrip_idemp (s : string) : Py.rstrip (Py.rstrip s) = Py.rstrip s.
Proof. unfold Py.rstrip. by rewrite rev_rev, lstrip_idemp. Qed.

Lemma rev_snoc (s : string) (c : ascii) :
  String.rev (s +:+ String c EmptyString) = String c (String.rev s).
Proof.
  unfold String.rev. generalize EmptyString at 2 3 as acc.
  induction s as [|d s IH]; intros acc; [done|]. rewrite app_cons. simpl. apply IH.
Qed.

Lemma lstrip_app (s t : string) :
  Py.lstrip (s +:+ t) = if Py.string_forall Py.isspace s then Py.lstrip t else Py.lstrip s +:+ t.
Proof.
  induction s as [|c s IH]; [by rewrite app_nil_l|]. rewrite app_cons. simpl.
  destruct (Py.isspace c); [done|]. simpl. by rewrite app_cons.
Qed.

(** Stripping the end of a string leaves its first character in place
    when that character is not white space. *)
Lemma rstrip_cons (c : ascii) (s : string) :
  Py.isspace c = false → Py.rstrip (String c s) = String c (Py.rstrip s).
Proof.
  intros Hc. unfold Py.rstrip. rewrite rev_cons, lstrip_app.
  destruct (Py.string_forall Py.isspace (String.rev s)) eqn:Hall.
  - simpl. rewrite Hc.
    assert (Py.lstrip (String.rev s) = EmptyString) as ->; [|done].
    revert Hall. generalize (String.rev s). intros t. induction t as [|d t IH]; [done|].
    simpl. destruct (Py.isspace d); [exact IH|done].
  - by rewrite rev_snoc.
Qed.

Lemma lstrip_rstrip (s : string) :
  Py.lstrip s = s → Py.lstrip (Py.rstrip s) = Py.rstrip s.
Proof.
  destruct s as [|c s]; [done|]. simpl. destruct (Py.isspace c) eqn:Hc.
  - intros H. exfalso. assert (String.length (Py.lstrip s) ≤ String.length s) as Hle.
    { clear. induction s as [|d s IH]; [done|]. simpl. destruct (Py.isspace d); simpl; lia. }
    rewrite H in Hle. simpl in Hle. lia.
  - intros _. rewrite rstrip_cons by done. simpl. by rewrite Hc.
Qed.

(** [strip] leaves no white space at either end. *)
Lemma strip_stripped (s : string) :
  Py.lstrip (Py.strip s) = Py.strip s ∧ Py.rstrip (Py.strip s) = Py.strip s.
Proof.
  unfold Py.strip. split; [|apply rstrip_idemp]. apply lstrip_rstrip, lstrip_idemp.
Qed.

Lemma strip_idemp (s : string) : Py.strip (Py.strip s) = Py.strip s.
Proof.
  destruct (strip_stripped s) as [Hl Hr]. unfold Py.strip at 1. by rewrite Hl, Hr.
Qed.

End strip.

Section validators.
Import Console InputValidator.

Lemma validate_string_loop_spec (prompt : string) (min_length max_length : nat)
    (required : bool) (lines : list string) (out : string) (c' : console) (s : string) :
  validate_string_loop prompt min_length max_length required lines out = (c', Returned s) →
  Py.strip s = s
  ∧ ((required = false ∧ s = EmptyString)
     ∨ (s ≠ EmptyString ∧ min_length ≤ String.length s ≤ max_length))
  ∧ ∃ refused line, lines = refused ++ line :: stdin c' ∧ s = Py.strip line.
Proof.
  revert out. induction lines as [|line rest IH]; intros out; [done|].
  cbn [validate_string_loop].
  assert (∀ o, validate_string_loop prompt min_length max_length required rest o
               = (c', Returned s) →
               Py.strip s = s
               ∧ ((required = false ∧ s = EmptyString)
                  ∨ (s ≠ EmptyString ∧ min_length ≤ String.length s ≤ max_length))
               ∧ ∃ refused line0, line :: rest = refused ++ line0 :: stdin c'
                                  ∧ s = Py.strip line0) as Hnext.
  { intros o (H1 & H2 & refused & line0 & -> & H3)%IH. split; [done|]. split; [done|].
    by exists (line :: refused), line0. }
  destruct (Py.strip line) as [|ch u] eqn:Hs.
  - destruct required; cbn [negb andb Py.truthy]; [by apply Hnext|].
    intros [= <- <-]. split; [done|]. split; [by left|]. by exists [], line.
  - cbn [Py.truthy negb andb]. rewrite !andb_false_r. cbn [andb].
    destruct (Nat.ltb_spec (String.length (String ch u)) min_length); [by apply Hnext|].
    destruct (Nat.ltb_spec max_length (String.length (String ch u))); [by apply Hnext|].
    intros [= <- <-]. split; [by rewrite <- Hs, strip_idemp|]. split; [by right|].
    by exists [], line.
Qed.

Lemma validate_choice_loop_spec (prompt : string) (choices : list string) (required : bool)
    (lines : list string) (out : string) (c' : console) (s : string) :
  validate_choice_loop prompt choices required lines out = (c', Returned s) →
  (s ∈ choices ∨ (required = false ∧ s = EmptyString))
  ∧ ∃ refused line, lines = refused ++ line :: stdin c' ∧ s = Py.lower (Py.strip line).
Proof.
  revert out. induction lines as [|line rest IH]; intros out; [done|].
  cbn [validate_choice_loop].
  assert (∀ o, validate_choice_loop prompt choices required rest o = (c', Returned s) →
               (s ∈ choices ∨ (required = false ∧ s = EmptyString))
               ∧ ∃ refused line0, line :: rest = refused ++ line0 :: stdin c'
                                  ∧ s = Py.lower (Py.strip line0)) as Hnext.
  { intros o (H1 & refused & line0 & -> & H3)%IH. split; [done|].
    by exists (line :: refused), line0. }
  destruct (negb required && negb (Py.truthy (Some (Py.lower (Py.strip line))))) eqn:Hopt.
  - intros [= <- <-]. split; [|by exists [], line].
    apply andb_true_iff in Hopt as [Hr He]. right. split; [by destruct required|].
    by destruct (Py.lower (Py.strip line)).
  - case_bool_decide as Hin; [|by apply Hnext].
    intros [= <- <-]. split; [by left|]. by exists [], line.
Qed.




End validators.

Section dates.
Import Strptime.

Lemma digit_le (c : ascii) (n : nat) : digit c = Some n → n ≤ 9.
Proof.
  unfold digit, Py.isdigit. destruct (_ && _) eqn:H; [|done]. intros [= <-].
  apply andb_true_iff in H as [_ H]. apply Nat.leb_le in H. lia.
Qed.

Lemma in_range_spec (lo hi : nat) (c : ascii) (n : nat) :
  in_range lo hi c = Some n → lo ≤ n ≤ hi.
Proof.
  unfold in_range. destruct (digit c); [|done].
  destruct (_ && _) eqn:H; [|done]. intros [= <-].
  apply andb_true_iff in H as [H1 H2]. apply Nat.leb_le in H1, H2. lia.
Qed.

Lemma month_alternatives_spec (s : string) (m : nat) (r : string) :
  (m, r) ∈ month_alternatives s → 1 ≤ m ≤ 12 ∧ String.length s ≤ String.length r + 2.
Proof.
  destruct s as [|c1 s1]; [by intros ?%elem_of_nil|]. cbn [month_alternatives].
  intros [H|H]%elem_of_app.
  - destruct s1 as [|c2 s2]; [by apply elem_of_nil in H|].
    apply elem_of_app in H as [H|H].
    + destruct (Ascii.eqb c1 "1"); [|by apply elem_of_nil in H].
      destruct (in_range 0 2 c2) as [n|] eqn:Hn; [|by apply elem_of_nil in H].
      apply list_elem_of_singleton in H. simplify_eq. apply in_range_spec in Hn.
      simpl. lia.
    + destruct (Ascii.eqb c1 "0"); [|by apply elem_of_nil in H].
      destruct (in_range 1 9 c2) as [n|] eqn:Hn; [|by apply elem_of_nil in H].
      apply list_elem_of_singleton in H. simplify_eq. apply in_range_spec in Hn.
      simpl. lia.
  - destruct (in_range 1 9 c1) as [n|] eqn:Hn; [|by apply elem_of_nil in H].
    apply list_elem_of_singleton in H. simplify_eq. apply in_range_spec in Hn.
    simpl. lia.
Qed.

Lemma day_alternatives_length (s : string) (d : nat) (r : string) :
  (d, r) ∈ day_alternatives s → String.length s ≤ String.length r + 2.
Proof.
  destruct s as [|c1 s1]; [by intros ?%elem_of_nil|]. cbn [day_alternatives].
  intros [H|[H|H]%elem_of_app]%elem_of_app.
  - destruct s1 as [|c2 s2]; [by apply elem_of_nil in H|].
    apply elem_of_app in H as [H|[H|H]%elem_of_app].
    + destruct (Ascii.eqb c1 "3"); [|by apply elem_of_nil in H].
      destruct (in_range 0 1 c2); [|by apply elem_of_nil in H].
      apply list_elem_of_singleton in H. simplify_eq. simpl. lia.
    + destruct (in_range 1 2 c1), (digit c2); try by apply elem_of_nil in H.
      apply list_elem_of_singleton in H. simplify_eq. simpl. lia.
    + destruct (Ascii.eqb c1 "0"); [|by apply elem_of_nil in H].
      destruct (in_range 1 9 c2); [|by apply elem_of_nil in H].
      apply list_elem_of_singleton in H. simplify_eq. simpl. lia.
  - destruct (in_range 1 9 c1); [|by apply elem_of_nil in H].
    apply list_elem_of_singleton in H. simplify_eq. simpl. lia.
  - destruct (Ascii.eqb c1 " "); [|by apply elem_of_nil in H].
    destruct s1 as [|c2 s2]; [by apply elem_of_nil in H|].
    destruct (in_range 1 9 c2); [|by apply elem_of_nil in H].
    apply list_elem_of_singleton in H. simplify_eq. simpl. lia.
Qed.

Lemma match_format_spec (s : string) (y m d : nat) (r : string) :
  match_format s = Some (y, m, d, r) →
  1 ≤ m ≤ 12 ∧ String.length s ≤ String.length r + 10.
Proof.
  unfold match_format.
  destruct s as [|y1 [|y2 [|y3 [|y4 [|dash rest]]]]]; try done.
  destruct (digit y1) as [a|] eqn:Ha; [|done]. destruct (digit y2) as [b|] eqn:Hb; [|done].
  destruct (digit y3) as [c|] eqn:Hc; [|done]. destruct (digit y4) as [e|] eqn:He; [|done].
  destruct (Ascii.eqb dash "-"); [|done].
  intros H. apply head_Some in H as [l H].
  assert ((y, m, d, r) ∈ omap
            (λ '(m0, r0), match r0 with
                          | String dash' r' =>
                              if Ascii.eqb dash' "-"
                              then match day_alternatives r' with
                                   | (dd, left_over) :: _ =>
                                       Some (1000 * a + 100 * b + 10 * c + e, m0, dd, left_over)
                                   | [] => None
                                   end
                              else None
                          | EmptyString => None
                          end) (month_alternatives rest)) as Hin by (rewrite H; by left).
  apply list_elem_of_omap in Hin as ([m0 r0] & Hm & Hsome).
  destruct r0 as [|dash' r']; [done|]. destruct (Ascii.eqb dash' "-"); [|done].
  destruct (day_alternatives r') as [|[dd left_over] alts] eqn:Hd; [done|].
  simplify_eq. apply month_alternatives_spec in Hm as [Hm Hlen].
  assert ((d, r) ∈ day_alternatives r') as Hday by (rewrite Hd; by left).
  apply day_alternatives_length in Hday.
  cbn [String.length] in *. lia.
Qed.

(** What [strptime] accepts is a date of the calendar, written in at
    most ten characters. *)
Lemma strptime_spec (s : string) (d : date) :
  strptime s = Some d → calendar_date d ∧ String.length s ≤ 10.
Proof.
  unfold strptime. destruct (match_format s) as [[[[y m] dd] [|]]|] eqn:Hm; try done.
  destruct (_ && _) eqn:Hok; [|done]. intros [= <-].
  apply match_format_spec in Hm as (Hmo & Hlen).
  apply andb_true_iff in Hok as [Hok H3]. apply andb_true_iff in Hok as [H1 H2].
  apply Nat.leb_le in H1, H2, H3. unfold calendar_date. cbn [year month day String.length] in *.
  lia.
Qed.

End dates.

Section date_validators.
Import Console InputValidator.

Lemma validate_date_loop_spec today reads prompt required (lines : list string)
    (out : string) (c' : console) (s : string) :
  validate_date_loop today reads prompt required lines out = (c', Returned s) →
  (required = false ∧ s = EmptyString)
  ∨ ∃ d k, Strptime.strptime s = Some d ∧ calendar_date d
           ∧ Strptime.before d (today k) = false.
Proof.
  revert reads out. induction lines as [|line rest IH]; intros reads out; [done|].
  cbn [validate_date_loop].
  destruct (negb required && negb (Py.truthy (Some (Py.strip line)))) eqn:Hopt.
  - intros [= <- <-]. apply andb_true_iff in Hopt as [Hr He]. left.
    split; [by destruct required|]. by destruct (Py.strip line).
  - destruct (Strptime.strptime (Py.strip line)) as [d|] eqn:Hd; [|by apply IH].
    destruct (Strptime.before d (today reads)) eqn:Hb; [by apply IH|].
    intros [= <- <-]. right. exists d, reads. split; [done|]. split; [|done].
    by apply strptime_spec in Hd as [? _].
Qed.




End date_validators.

(** ** Adding a task at the console *)

Section add_task_todo.
Import Console InputValidator.

Lemma row_ok_new_task task_id now (title description priority category : string)
    (due_date : option string) :
  priority ∈ TodoManager.Priority_values →
  TodoApp.row_ok
    (TodoApp.new_task task_id now
       [("title", Some title); ("description", Some description);
        ("priority", Some priority); ("due_date", due_date);
        ("category", Some category)]) = true.
Proof.
  intros Hp. unfold TodoApp.row_ok, TodoApp.new_task. cbn.
  rewrite !bool_decide_eq_true_2; [done| |].
  - unfold TodoManager.Priority_values in Hp.
    repeat (apply elem_of_cons in Hp as [->|Hp]; [apply list_elem_of_In; simpl; tauto|]).
    by apply elem_of_nil in Hp.
  - apply list_elem_of_In. simpl. tauto.
Qed.

(** X22.  What the validators of [todo_app.py] let through, the table
    accepts.  When the five questions of [add_task] are answered and the
    id is free, the row is stored: it meets every column constraint, so
    the insert does not fail.  When the input ends before the last answer
    the table is left as it was. *)
Theorem todo_add_task_stores_the_row task_id now (db : TodoApp.table) (c : console) :
  Some task_id ∉ TodoApp.id <$> db →
  match TodoManager.ask_task_data (print (newline +:+ "Add New Task") c) with
  | (_, Returned task_data) =>
      TodoApp.row_ok (TodoApp.new_task task_id now task_data) = true
      ∧ (TodoManager.add_task task_id now db c).1
        = db ++ [TodoApp.new_task task_id now task_data]
  | (_, Raised _) => (TodoManager.add_task task_id now db c).1 = db
  end.
Proof.
  intros Hfree. unfold TodoManager.add_task.
  destruct (TodoManager.ask_task_data _) as [c1 [task_data|e]] eqn:Hask; [|done].
  assert (TodoApp.row_ok (TodoApp.new_task task_id now task_data) = true) as Hok.
  { unfold TodoManager.ask_task_data in Hask.
    destruct (validate_string "Title: " _ _ _ _) as [c2 [title|]]; [|done].
    destruct (validate_string "Description: " _ _ _ _) as [c3 [description|]]; [|done].
    destruct (validate_choice _ _ _ _) as [c4 [priority|]] eqn:Hp; [|done].
    destruct (validate_date_todo _ _ _) as [c5 [due_date|]]; [|done].
    destruct (validate_string _ _ _ _ _) as [c6 [category|]]; [|done].
    simplify_eq. apply validate_choice_loop_spec in Hp as [[Hp|[? _]] _]; [|done].
    by apply row_ok_new_task. }
  split; [done|]. unfold TodoApp.create_task, TodoApp.insert. rewrite Hok.
  rewrite bool_decide_eq_false_2; [done|]. by intros [_ ?].
Qed.

End add_task_todo.

Section add_task_planner.
Import Console InputValidator.
Context {W : Type} {storage : TaskPlanner.TaskStorage W}.

Lemma within_255 (s : string) : String.length s ≤ 255 → within_limit (String.length s).
Proof. unfold within_limit, Csv.field_size_limit. lia. Qed.

(** X23.  A task added at the console of [task_planner.py] is a valid
    record, so that a save and a load give it back: when the six
    questions are answered, the task is appended to the cache, every field
    of it is a string within the reader's limit (the id and the time stamp
    being so), its priority and its status are among the values of the
    enumerations, and its due date is a date of the calendar.  When the
    input ends before the last answer the repository is left as it was. *)
Theorem planner_add_task_is_valid today task_id now (r : TaskPlanner.repository) (c : console) :
  match TaskManager.ask_task_data today (print (newline +:+ "Add New Task") c) with
  | (_, Returned task_data) =>
      let t := TaskPlanner.new_task task_id now task_data in
      TaskPlanner.tasks (TaskManager.add_task today task_id now r c).1
      = TaskPlanner.tasks r ++ [t]
      ∧ (within_limit (String.length task_id) → within_limit (String.length now) →
         Spec.valid_task t)
      ∧ (∃ p, TaskPlanner.priority t = Some p ∧ p ∈ TaskManager.Priority_values)
      ∧ (∃ s, TaskPlanner.status t = Some s ∧ s ∈ TaskManager.TaskStatus_values)
      ∧ (∃ s d, TaskPlanner.due_date t = Some s ∧ Strptime.strptime s = Some d
                ∧ calendar_date d)
  | (_, Raised _) => (TaskManager.add_task today task_id now r c).1 = r
  end.
Proof.
  unfold TaskManager.add_task.
  destruct (TaskManager.ask_task_data _ _) as [c1 [task_data|e]] eqn:Hask; [|done].
  cbn zeta. split.
  { rewrite <- (create_task_tasks task_id now task_data r).
    by destruct (TaskPlanner.create_task task_id now task_data r) as [r' [t|e]]. }
  unfold TaskManager.ask_task_data in Hask.
  destruct (validate_string "Title: " _ _ _ _) as [c2 [title|]] eqn:Ht; [|done].
  destruct (validate_string "Description: " _ _ _ _) as [c3 [description|]] eqn:Hd; [|done].
  destruct (validate_choice _ TaskManager.Priority_values _ _) as [c4 [priority|]] eqn:Hp;
    [|done].
  destruct (validate_date _ _ _ _) as [c5 [due_date|]] eqn:Hdue; [|done].
  destruct (validate_string "Category: " _ _ _ _) as [c6 [category|]] eqn:Hc; [|done].
  destruct (validate_choice _ TaskManager.TaskStatus_values _ _) as [c7 [status|]] eqn:Hs;
    [|done].
  simplify_eq.
  apply validate_string_loop_spec in Ht as (_ & [[? _]|[_ Ht]] & _); [done|].
  apply validate_string_loop_spec in Hd as (_ & Hd & _).
  apply validate_string_loop_spec in Hc as (_ & [[? _]|[_ Hc]] & _); [done|].
  apply validate_choice_loop_spec in Hp as [[Hp|[? _]] _]; [|done].
  apply validate_choice_loop_spec in Hs as [Hs _].
  apply validate_date_loop_spec in Hdue as [[? _]|(d & k & Hd1 & Hd2 & _)]; [done|].
  assert ((if Py.truthy (Some status) then status else TaskPlanner.TaskStatus_PENDING)
          ∈ TaskManager.TaskStatus_values) as Hstatus.
  { destruct Hs as [Hs|[_ ->]]; [|by left]. by destruct status; [left|]. }
  split; [|split; [by exists priority|split; [by eexists|by exists due_date, d]]].
  intros Hid Hnow f.
  assert (∀ s, s ∈ TaskManager.Priority_values ++ TaskManager.TaskStatus_values →
               within_limit (String.length s)) as Hshort.
  { intros s Hin. apply within_255. revert Hin. cbn.
    intros Hin. repeat (apply elem_of_cons in Hin as [->|Hin]; [simpl; lia|]).
    by apply elem_of_nil in Hin. }
  destruct f; cbn; eexists; (split; [reflexivity|]); fold (within_limit).
  - exact Hid.
  - apply within_255. lia.
  - apply within_255. destruct Hd as [[_ ->]|[_ ?]]; [simpl|]; lia.
  - apply Hshort, elem_of_app. by left.
  - apply within_255. apply strptime_spec in Hd1 as [_ ?]. lia.
  - apply within_255. lia.
  - exact Hnow.
  - exact Hnow.
  - apply Hshort, elem_of_app. by right.
Qed.

End add_task_planner.

(** ** Updating and deleting a task at the console *)

Section console_update.
Import Console InputValidator TaskPlanner.
Context {W : Type} {storage : TaskStorage W}.
Variable other_attr : string → option Py.value.

Lemma print_rows_stdin (ts : list Task) (c : console) :
  stdin (TaskManager.print_rows ts c).1 = stdin c.
Proof.
  revert c. induction ts as [|t ts IH]; intros c; [done|].
  cbn [TaskManager.print_rows]. destruct (TaskManager.list_row t); [|done]. by rewrite IH.
Qed.

Lemma list_tasks_stdin (r : repository (W:=W)) (c : console) :
  stdin (TaskManager.list_tasks r c) = stdin c.
Proof.
  unfold TaskManager.list_tasks. destruct (get_all_tasks r) as [|t ts]; [done|].
  cbn zeta.
  match goal with |- context [TaskManager.print_rows ?l ?c0] =>
    pose proof (print_rows_stdin l c0) as H;
    destruct (TaskManager.print_rows l c0) as [c1 []]
  end; exact H.
Qed.


Lemma ask_update_data_keys today (task : Task) (c c' : console) update_data :
  TaskManager.ask_update_data today task c = (c', Returned update_data) →
  update_data.*1 = ["title"; "description"; "priority"; "due_date"; "category"; "status"].
Proof.
  unfold TaskManager.ask_update_data.
  repeat match goal with
         | |- context [match ?v with (_, _) => _ end] => destruct v as [? [?|?]]; [|done]
         end.
  by intros [= <- <-].
Qed.

Lemma apply_update_fields update_data (t : Task) :
  Forall (λ name, is_Some (field_of_name name)) update_data.*1 →
  is_Some (apply_update other_attr update_data t).
Proof.
  revert t. induction update_data as [|[name value] ud IH]; intros t; [by eexists|].
  rewrite fmap_cons. intros [[f Hf] Hrest]%Forall_cons. cbn [apply_update fst] in *.
  rewrite Hf. by apply IH.
Qed.

(** X28.  [TaskManager.update_task] cannot change an id: the update data
    it builds has the six keys title, description, priority, due_date,
    category and status only, so whatever is typed, [update_task] ends
    (with a message when the input runs out or the save fails) and the
    ids and the creation times of the cached tasks are the same lists
    before and after. *)
Theorem console_update_keeps_ids today now (r : repository) (c : console) :
  ∃ r' c', TaskManager.update_task other_attr today now r c = Some (r', c')
           ∧ id <$> tasks r' = id <$> tasks r
           ∧ created_at <$> tasks r' = created_at <$> tasks r.
Proof.
  unfold TaskManager.update_task. cbn zeta.
  destruct (get_all_tasks r) as [|t0 ts] eqn:Hall; [by eexists _, _|].
  destruct (validate_task_id _ _ _) as [c1 [task_id|e]]; [|by eexists _, _].
  destruct (get_task task_id r) as [task|] eqn:Hget; [|by eexists _, _].
  destruct (TaskManager.ask_update_data today task _) as [c2 [update_data|e]] eqn:Hask;
    [|by eexists _, _].
  apply ask_update_data_keys in Hask.
  destruct (apply_update_fields update_data task) as [t1 Ht1].
  { rewrite Hask. repeat (apply Forall_cons; split; [by eexists|]). apply Forall_nil_2. }
  destruct (update_task_found other_attr task_id now update_data r task t1 Hget Ht1)
    as (r' & o & Hu & Htasks & Ho).
  rewrite Hu.
  assert (id <$> tasks r' = id <$> tasks r ∧ created_at <$> tasks r' = created_at <$> tasks r)
    as Hkeep.
  { rewrite Htasks. split.
    - apply (fmap_replace_first id _ _ _ task Hget).
      change (getfield (setfield t1 UPDATED_AT (Some now)) ID = getfield task ID).
      rewrite getfield_setfield_ne by done.
      apply (apply_update_getfield other_attr update_data); [done|].
      rewrite Hask. intros Hin%list_elem_of_In. simpl in Hin. intuition discriminate.
    - apply (fmap_replace_first created_at _ _ _ task Hget).
      change (getfield (setfield t1 UPDATED_AT (Some now)) CREATED_AT
              = getfield task CREATED_AT).
      rewrite getfield_setfield_ne by done.
      apply (apply_update_getfield other_attr update_data); [done|].
      rewrite Hask. intros Hin%list_elem_of_In. simpl in Hin. intuition discriminate. }
  destruct Ho as [->| ->]; by eexists _, _.
Qed.

Lemma validate_string_blank (prompt : string) (c : console) (line : string)
    (rest : list string) :
  stdin c = line :: rest → Py.strip line = EmptyString →
  validate_string prompt 1 255 false c
  = (Console rest (stdout c +:+ prompt), Returned EmptyString).
Proof.
  intros Hc Hb. unfold validate_string. rewrite Hc. cbn [validate_string_loop].
  by rewrite Hb.
Qed.

Lemma validate_choice_blank (prompt : string) (choices : list string) (c : console)
    (line : string) (rest : list string) :
  stdin c = line :: rest → Py.strip line = EmptyString →
  validate_choice prompt choices false c
  = (Console rest (stdout c +:+ prompt), Returned EmptyString).
Proof.
  intros Hc Hb. unfold validate_choice. rewrite Hc. cbn [validate_choice_loop].
  by rewrite Hb.
Qed.

Lemma validate_date_blank today (prompt : string) (c : console) (line : string)
    (rest : list string) :
  stdin c = line :: rest → Py.strip line = EmptyString →
  validate_date today prompt false c
  = (Console rest (stdout c +:+ prompt), Returned EmptyString).
Proof.
  intros Hc Hb. unfold validate_date. rewrite Hc. cbn [validate_date_loop].
  by rewrite Hb.
Qed.

(** X29.  Blank answers keep the task: when the line typed for the id
    names a task and the six questions are each answered with a line of
    white space, the task is put back with every field as it was but for
    [updated_at], which gets the time of the update; the seven lines are
    used up and the lines after them are left on the input. *)
Theorem console_update_blank_answers today now (r : repository) (c : console)
    (line : string) (blanks rest : list string) (task : Task) :
  stdin c = line :: blanks ++ rest →
  length blanks = 6 →
  Forall (λ answer, Py.strip answer = EmptyString) blanks →
  get_task (Py.strip line) r = Some task →
  ∃ r' c', TaskManager.update_task other_attr today now r c = Some (r', c')
           ∧ tasks r'
             = replace_first (Py.strip line) (setfield task UPDATED_AT (Some now)) (tasks r)
           ∧ stdin c' = rest.
Proof.
  intros Hc Hlen Hblank Hget.
  destruct blanks as [|b1 [|b2 [|b3 [|b4 [|b5 [|b6 [|]]]]]]]; try done. clear Hlen.
  repeat (apply Forall_cons in Hblank as [? Hblank]).
  unfold TaskManager.update_task. cbn zeta.
  destruct (get_all_tasks r) as [|t0 ts] eqn:Hall.
  { unfold get_task, get_all_tasks in *. by rewrite Hall in Hget. }
  unfold validate_task_id. rewrite list_tasks_stdin. cbn [print stdin]. rewrite Hc.
  cbn [validate_task_id_loop]. rewrite Hget. rewrite Hget.
  unfold TaskManager.ask_update_data.
  erewrite validate_string_blank by (reflexivity || done).
  erewrite validate_string_blank by (reflexivity || done).
  erewrite validate_choice_blank by (reflexivity || done).
  erewrite validate_date_blank by (reflexivity || done).
  erewrite validate_string_blank by (reflexivity || done).
  erewrite validate_choice_blank by (reflexivity || done).
  cbn [TaskManager.or_current Py.truthy].
  match goal with |- context [TaskPlanner.update_task _ _ _ ?ud _] =>
    assert (apply_update other_attr ud task = Some task) as Ha by (by destruct task);
    destruct (update_task_found other_attr (Py.strip line) now ud r task task Hget Ha)
      as (r' & o & Hu & Htasks & Ho)
  end.
  rewrite Hu. destruct Ho as [->| ->]; by eexists _, _.
Qed.


End console_update.

(** ** More on the contact manager and on the files *)

Section contact_noop.
Import FS Contacts.

Lemma update_field_same (key v : string) (check : Json.value → outcome exn ())
    (c : Json.value) :
  getitem c key = Returned (Json.Str v) →
  update_field key (Some v) check c = (c, Returned false).
Proof. intros Hg. unfold update_field. rewrite Hg. simpl. by rewrite String.eqb_refl. Qed.

(** X24.  An update that changes nothing writes nothing.  When every
    new value is left out or equal to the stored one, [update_contact]
    returns without validating and without saving: the cache and the
    files are as before, also where the file could not have been
    written. *)
Theorem update_contact_without_change (name : string) (new_name phone email : option string)
    (m : ContactManager) (fs : filesystem) (k : nat) (n p e : string) :
  find_contact_index name m = Returned (Some k) →
  contacts m !! k = Some (contact n p e) →
  new_name ∈ [None; Some n] → phone ∈ [None; Some p] → email ∈ [None; Some e] →
  update_contact name new_name phone email m fs = (m, fs, Returned ()).
Proof.
  intros Hf Hk Hn Hp He. unfold update_contact. rewrite Hf, Hk.
  assert (∀ key (new : option string) v chk,
             getitem (contact n p e) key = Returned (Json.Str v) → new ∈ [None; Some v] →
             update_field key new chk (contact n p e) = (contact n p e, Returned false))
    as Hsame.
  { intros key new v chk Hg [->|[->|[]%elem_of_nil]%elem_of_cons]%elem_of_cons; [done|].
    by apply update_field_same. }
  rewrite (Hsame "name" new_name n) by done. cbn iota.
  rewrite (Hsame "phone" phone p) by done. cbn iota.
  rewrite (Hsame "email" email e) by done. cbn iota. cbn [orb].
  by rewrite list_insert_id, manager_eta.
Qed.

End contact_noop.

Section email.
Import Contacts.

Abbreviation no_at s := (Py.string_exists (Ascii.eqb "@") s = false).

Lemma split_at_spec (s a b : string) :
  split_at s = Some (a, b) ↔ s = a +:+ String "@" b ∧ no_at a.
Proof.
  revert a b. induction s as [|c s IH]; intros a b.
  - split; [done|]. intros [H _]. by destruct a.
  - cbn [split_at]. destruct (Ascii.eqb_spec c "@") as [->|Hc].
    + split.
      * intros [= <- <-]. split; [|done]. by rewrite app_nil_l.
      * intros [H Ha]. destruct a as [|d a]; [rewrite app_nil_l in H; by simplify_eq|].
        rewrite app_cons in H. by simplify_eq.
    + destruct (split_at s) as [[a' b']|] eqn:Hs.
      * split.
        -- intros [= <- <-]. destruct (proj1 (IH a' b') eq_refl) as [-> Ha'].
           split; [by rewrite app_cons|].
           cbn [Py.string_exists]. rewrite Ha'.
           destruct (Ascii.eqb_spec "@" c); [congruence|done].
        -- intros [H Ha]. destruct a as [|d a]; [rewrite app_nil_l in H; by simplify_eq|].
           rewrite app_cons in H. simplify_eq. cbn [Py.string_exists] in Ha.
           apply orb_false_iff in Ha as [_ Ha].
           assert (Some (a', b') = Some (a, b)) as H' by by apply IH.
           by simplify_eq.
      * split; [done|]. intros [H Ha]. destruct a as [|d a].
        -- rewrite app_nil_l in H. by simplify_eq.
        -- rewrite app_cons in H. simplify_eq. cbn [Py.string_exists] in Ha.
           apply orb_false_iff in Ha as [_ Ha].
           assert (None = Some (a, b)) as H' by by apply IH.
           done.
Qed.

Lemma inner_dot_spec (s : string) :
  inner_dot s = true ↔ ∃ a b, s = a +:+ String "." b ∧ a ≠ EmptyString ∧ b ≠ EmptyString.
Proof.
  induction s as [|c s IH]; [split; [done|]; intros (a & b & H & _); by destruct a|].
  destruct s as [|d [|e r]].
  - split; [done|]. intros ([|x a] & b & H & Ha & Hb); [done|].
    rewrite app_cons in H. injection H as _ H. by destruct a.
  - split; [done|]. intros ([|x a] & b & H & Ha & Hb); [done|].
    rewrite app_cons in H. injection H as _ H. destruct a as [|y a].
    + rewrite app_nil_l in H. by simplify_eq.
    + rewrite app_cons in H. injection H as _ H. by destruct a.
  - cbn [inner_dot]. cbn [inner_dot] in IH. destruct (Ascii.eqb_spec d ".") as [->|Hd]; cbn [orb].
    + split; [|done]. intros _. exists (String c EmptyString), (String e r). done.
    + rewrite IH. split.
      * intros (a & b & H & Ha & Hb). exists (String c a), b. rewrite app_cons, H. done.
      * intros ([|x a] & b & H & Ha & Hb); [done|].
        rewrite app_cons in H. injection H as _ H. destruct a as [|y a].
        -- rewrite app_nil_l in H. by simplify_eq.
        -- exists (String y a), b. done.
Qed.

(** X25.  The addresses [_validate_contact] accepts are those of the
    form local@left.right, where none of the three parts is empty and none
    holds an [@]; the dots they hold do not matter. *)
Theorem email_ok_spec (email : string) :
  email_ok email = true ↔
  ∃ local left right,
    email = local +:+ String "@" (left +:+ String "." right)
    ∧ local ≠ EmptyString ∧ left ≠ EmptyString ∧ right ≠ EmptyString
    ∧ no_at local ∧ no_at (left +:+ String "." right).
Proof.
  unfold email_ok. split.
  - destruct (split_at email) as [[[|c a] b]|] eqn:Hs; try done.
    intros [Hb Hdot]%andb_true_iff. apply split_at_spec in Hs as [-> Ha].
    apply inner_dot_spec in Hdot as (l & r & -> & Hl & Hr).
    exists (String c a), l, r. split; [done|]. split; [done|]. split; [done|].
    split; [done|]. split; [done|]. by apply negb_true_iff.
  - intros (local & l & r & -> & Hlocal & Hl & Hr & Ha & Hb).
    assert (split_at (local +:+ String "@" (l +:+ String "." r))
            = Some (local, l +:+ String "." r)) as -> by by apply split_at_spec.
    destruct local as [|c a]; [done|]. rewrite Hb. cbn [negb andb].
    apply inner_dot_spec. by exists l, r.
Qed.

End email.

Section csv_save_failures.
Import FS TaskPlanner.

(** X26.  The two ways [save_tasks] fails.  When the temporary name is
    taken by a directory, it raises and nothing is written.  When the
    canonical name is taken by a directory, the rows are written to the
    temporary file, the install raises, and the temporary file is left
    behind holding the complete data; the canonical entry is untouched.
    In every other case the save returns, the canonical file holds the
    data and no temporary file is left. *)
Theorem save_tasks_failure_modes (file_path : string) (tasks : list Task) (fs : filesystem) :
  let result := csv_save_tasks file_path tasks fs in
  (fs !! temp_file file_path = Some Dir → result = (fs, Raised TaskPlannerError))
  ∧ (fs !! temp_file file_path ≠ Some Dir → fs !! file_path = Some Dir →
     result.2 = Raised TaskPlannerError
     ∧ result.1 !! temp_file file_path = Some (File (csv_text tasks))
     ∧ ∀ p, p ≠ temp_file file_path → result.1 !! p = fs !! p)
  ∧ (fs !! temp_file file_path ≠ Some Dir → fs !! file_path ≠ Some Dir →
     result.2 = Returned ()
     ∧ result.1 !! file_path = Some (File (csv_text tasks))
     ∧ result.1 !! temp_file file_path = None
     ∧ ∀ p, p ≠ temp_file file_path → p ≠ file_path → result.1 !! p = fs !! p).
Proof.
  intros result. unfold result. rewrite csv_save_tasks_spec. split; [|split].
  - by intros ->.
  - intros Htmp Hdir. rewrite Hdir.
    assert (match fs !! temp_file file_path with
            | Some Dir => (fs, Raised TaskPlannerError)
            | _ => (<[temp_file file_path := File (csv_text tasks)]> fs,
                    @Raised exn () TaskPlannerError)
            end = (<[temp_file file_path := File (csv_text tasks)]> fs,
                   Raised TaskPlannerError)) as ->
      by by destruct (fs !! temp_file file_path) as [[]|].
    cbn [fst snd]. split; [done|]. split; [apply lookup_insert_eq|].
    intros p Hp. by rewrite lookup_insert_ne.
  - intros Htmp Hpath.
    assert (match fs !! temp_file file_path, fs !! file_path with
            | Some Dir, _ => (fs, Raised TaskPlannerError)
            | _, Some Dir =>
                (<[temp_file file_path := File (csv_text tasks)]> fs, Raised TaskPlannerError)
            | _, _ =>
                (<[file_path := File (csv_text tasks)]> (delete (temp_file file_path) fs),
                 @Returned exn () ())
            end = (<[file_path := File (csv_text tasks)]> (delete (temp_file file_path) fs),
                   Returned ())) as ->
      by by destruct (fs !! temp_file file_path) as [[]|], (fs !! file_path) as [[]|].
    cbn [fst snd]. split; [done|]. split; [apply lookup_insert_eq|]. split.
    + rewrite lookup_insert_ne by apply tmp_ne. apply lookup_delete_eq.
    + intros p Hp1 Hp2. by rewrite lookup_insert_ne, lookup_delete_ne.
Qed.

End csv_save_failures.

Section prune_stale.
Context {A : Type}.
Variable prefix : string.
Variable N : nat.

(** A backup with [N] newer ones next to it is pruned. *)
Lemma prune_drops_stale (dir : gmap string A) (k : string) (newer : list string) :
  N ≤ length newer → NoDup newer →
  (∀ k', k' ∈ newer → k' ∈ Spec.backup_names prefix dir ∧ ¬ String.le k' k) →
  String.prefix prefix k = true →
  Spec.prune prefix N dir !! k = None.
Proof.
  intros Hlen Hnd Hnewer Hp. unfold Spec.prune. rewrite lookup_foldl_delete.
  case_decide as Hin; [done|].
  destruct (dir !! k) as [v|] eqn:Hk; [|done]. exfalso. apply Hin. clear Hin.
  pose proof (newest_first_perm (Spec.backup_names prefix dir)) as Hperm.
  pose proof (newest_first_sorted (Spec.backup_names prefix dir)) as Hsorted.
  set (L := Spec.newest_first (Spec.backup_names prefix dir)) in *.
  assert (k ∈ L) as HkL by (rewrite Hperm; apply elem_of_names; eauto).
  apply list_elem_of_split in HkL as (l1 & l2 & HL).
  assert (∀ y, y ∈ l2 → String.le y k) as Hl2.
  { rewrite HL in Hsorted. apply Sorted_StronglySorted in Hsorted.
    - apply StronglySorted_app_1_r in Hsorted.
      apply StronglySorted_inv in Hsorted as [_ Hall].
      intros y Hy. by apply (proj1 (Forall_forall _ _) Hall).
    - intros a b c Hab Hbc. unfold flip in *. by etrans. }
  assert (newer ⊆+ l1) as Hsub.
  { apply NoDup_submseteq; [done|]. intros k' Hk'. destruct (Hnewer k' Hk') as [Hnames Hgt].
    rewrite <- Hperm in Hnames. fold L in Hnames. rewrite HL in Hnames.
    apply elem_of_app in Hnames as [?|[->|?]%elem_of_cons]; [done| |].
    - by destruct Hgt.
    - destruct Hgt. by apply Hl2. }
  apply submseteq_length in Hsub. rewrite HL, drop_app_le by lia.
  apply elem_of_app. right. by left.
Qed.

End prune_stale.

Section stale_backup.
Import FS.

(** X27.  A backup that is older than the retained ones is lost at once.
    Take a canonical path that the cleanup can follow (a file name of the
    working directory for the CSV storage, a path without wildcard
    characters for the database manager), with its backups next to it.
    When [N] backups with greater file names are present, [N] being the
    limit of five, the backup call writes its file, returns normally, and
    the cleanup of the same call removes the file just written. *)
Theorem stale_backup_is_removed :
  (∀ file_path timestamp tasks (fs : filesystem) (newer : list string),
      has_sep file_path = false → timestamp_text timestamp = true →
      backups_are_files file_path fs → backups_are_entries file_path fs →
      NoDup newer → length newer = TaskPlanner.MAX_BACKUP_FILES →
      (∀ k, k ∈ newer →
            k ∈ Spec.backup_names (TaskPlanner.backup_prefix file_path) fs
            ∧ ¬ String.le k (TaskPlanner.backup_file file_path timestamp)) →
      ∃ fs', TaskPlanner.csv_backup_tasks file_path timestamp tasks fs = (fs', Returned ())
             ∧ fs' !! TaskPlanner.backup_file file_path timestamp = None) ∧
  (∀ db_file timestamp db (dir : gmap string (option TodoApp.table)) (newer : list string),
      TodoApp.glob_literal db_file = true → timestamp_text timestamp = true →
      backups_are_images db_file dir → backups_are_siblings db_file dir →
      NoDup newer → length newer = TodoApp.MAX_BACKUPS →
      (∀ k, k ∈ newer →
            k ∈ Spec.backup_names (TodoApp.backup_prefix db_file) dir
            ∧ ¬ String.le k (TodoApp.backup_file db_file timestamp)) →
      ∃ dir', TodoApp.backup_database db_file timestamp db dir = Some (dir', Returned ())
              ∧ dir' !! TodoApp.backup_file db_file timestamp = None).
Proof.
  split.
  - intros file_path timestamp tasks fs newer Hplain Hts Hq He Hnd Hlen Hnewer.
    destruct (csv_backup_tasks_step file_path timestamp tasks fs Hq He) as [-> _];
      [by apply is_entry_backup_file|].
    eexists. split; [done|]. unfold Spec.backup_step. cbn [fst snd].
    apply (prune_drops_stale _ _ _ _ newer); [lia|done| |apply prefix_app].
    intros k Hk. destruct (Hnewer k Hk) as [[Hp [v Hv]]%elem_of_names Hgt]. split; [|done].
    apply elem_of_names. split; [done|].
    destruct (decide (k = TaskPlanner.backup_file file_path timestamp)) as [->|Hne].
    + by rewrite lookup_insert_eq.
    + rewrite lookup_insert_ne by done. eauto.
  - intros db_file timestamp db dir newer Hl Hts Hq Hs Hnd Hlen Hnewer.
    destruct (backup_database_step db_file timestamp db dir Hl Hq Hs) as [-> _];
      [by apply timestamp_no_sep|].
    eexists. split; [done|]. unfold Spec.backup_step. cbn [fst snd].
    apply (prune_drops_stale _ _ _ _ newer); [lia|done| |apply prefix_app].
    intros k Hk. destruct (Hnewer k Hk) as [[Hp [v Hv]]%elem_of_names Hgt]. split; [|done].
    apply elem_of_names. split; [done|].
    destruct (decide (k = TodoApp.backup_file db_file timestamp)) as [->|Hne].
    + by rewrite lookup_insert_eq.
    + rewrite lookup_insert_ne by done. eauto.
Qed.

End stale_backup.

(** ** Instances of the further properties *)
Lemma add_contact_then_find_witness :
  let m := Contacts.Manager "contacts.json" [] in
  let r := Contacts.add_contact "Ann" "+1 555 0100" "ann@example.org" m ∅ in
  r = (r.1.1, r.1.2, Returned ()) ∧
  Py.lower "ANN" = Py.lower "Ann" ∧
  Contacts.find_contact_index "ANN" r.1.1 = Returned (Some 0).
Proof.
  intros m r.
  assert (r = (r.1.1, r.1.2, Returned ())) as H1 by reflexivity.
  assert (Py.lower "ANN" = Py.lower "Ann") as H2 by reflexivity.
  split; [exact H1|]. split; [exact H2|].
  exact (proj1 (add_contact_then_find "Ann" "+1 555 0100" "ann@example.org" m ∅
                  r.1.1 r.1.2 "ANN" H1 H2)).
Defined.

Lemma delete_contact_by_name_witness :
  let m := Contacts.Manager "contacts.json"
             [Contacts.contact "Ann" "+1 555 0100" "ann@example.org";
              Contacts.contact "Bob" "+1 555 0101" "bob@example.org"] in
  contact_book (Contacts.contacts m) ∧
  Py.lower "ANN" ∈ name_key <$> Contacts.contacts m ∧
  Contacts.contacts (Contacts.delete_contact "ANN" m ∅).1.1
  = filter (λ c, name_key c ≠ Py.lower "ANN") (Contacts.contacts m).
Proof.
  intros m.
  assert (contact_book (Contacts.contacts m)) as Hb.
  { split; [repeat constructor; by do 3 eexists|].
    apply (bool_decide_unpack _). vm_compute. exact I. }
  assert (Py.lower "ANN" ∈ name_key <$> Contacts.contacts m) as Hin
      by (apply list_elem_of_In; simpl; tauto).
  split; [exact Hb|]. split; [exact Hin|].
  exact (proj1 (proj1 (delete_contact_by_name "ANN" m ∅ Hb) Hin)).
Defined.

Lemma contact_book_kept_witness :
  let m := Contacts.Manager "contacts.json"
             [Contacts.contact "Ann" "+1 555 0100" "ann@example.org"] in
  contact_book (Contacts.contacts m) ∧
  contact_book
    (Contacts.contacts
       (Contacts.update_contact "ann" (Some "Anna") None (Some "nowhere") m ∅).1.1).
Proof.
  intros m.
  assert (contact_book (Contacts.contacts m)) as Hb.
  { split; [repeat constructor; by do 3 eexists|].
    apply (bool_decide_unpack _). vm_compute. exact I. }
  split; [exact Hb|].
  exact (proj2 (proj2 (contact_book_kept m ∅ Hb)) "ann" (Some "Anna") None (Some "nowhere")).
Defined.

Lemma update_contact_same_name_other_case_witness :
  let c := Contacts.contact "Ann" "+1 555 0100" "ann@example.org" in
  let m := Contacts.Manager "contacts.json" [c] in
  Contacts.find_contact_index "Ann" m = Returned (Some 0) ∧
  Contacts.contacts m !! 0 = Some c ∧
  Contacts.getitem c "name" = Returned (Json.Str "Ann") ∧
  "ANN" ≠ "Ann" ∧
  Py.lower "ANN" = Py.lower "Ann" ∧
  Contacts.update_contact "Ann" (Some "ANN") None None m ∅
  = (m, ∅, Raised Contacts.ContactExistsError).
Proof.
  intros c m.
  assert (Contacts.find_contact_index "Ann" m = Returned (Some 0)) as H1 by reflexivity.
  assert (Contacts.contacts m !! 0 = Some c) as H2 by reflexivity.
  assert (Contacts.getitem c "name" = Returned (Json.Str "Ann")) as H3 by reflexivity.
  assert ("ANN" ≠ "Ann") as H4 by discriminate.
  assert (Py.lower "ANN" = Py.lower "Ann") as H5 by reflexivity.
  split; [exact H1|]. split; [exact H2|]. split; [exact H3|]. split; [exact H4|].
  split; [exact H5|].
  exact (update_contact_same_name_other_case "Ann" "ANN" None None m ∅ 0 c "Ann"
           H1 H2 H3 H4 H5).
Defined.

Lemma update_contact_phone_kept_when_email_refused_witness :
  let m := Contacts.Manager "contacts.json"
             [Contacts.contact "Ann" "+1 555 0100" "ann@example.org"] in
  Contacts.find_contact_index "ann" m = Returned (Some 0) ∧
  Contacts.contacts m !! 0 = Some (Contacts.contact "Ann" "+1 555 0100" "ann@example.org") ∧
  Contacts.validate_contact (Json.Str "Ann") (Json.Str "+1 555 0199")
    (Json.Str "ann@example.org") = Returned () ∧
  "+1 555 0199" ≠ "+1 555 0100" ∧
  "nowhere" ≠ "ann@example.org" ∧
  Contacts.email_ok "nowhere" = false ∧
  Contacts.update_contact "ann" None (Some "+1 555 0199") (Some "nowhere") m ∅
  = (Contacts.Manager "contacts.json"
       [Contacts.contact "Ann" "+1 555 0199" "ann@example.org"], ∅,
     Raised Contacts.ValidationError).
Proof.
  intros m.
  assert (Contacts.find_contact_index "ann" m = Returned (Some 0)) as H1 by reflexivity.
  assert (Contacts.contacts m !! 0
          = Some (Contacts.contact "Ann" "+1 555 0100" "ann@example.org")) as H2
      by reflexivity.
  assert (Contacts.validate_contact (Json.Str "Ann") (Json.Str "+1 555 0199")
            (Json.Str "ann@example.org") = Returned ()) as H3 by reflexivity.
  assert ("+1 555 0199" ≠ "+1 555 0100") as H4 by discriminate.
  assert ("nowhere" ≠ "ann@example.org") as H5 by discriminate.
  assert (Contacts.email_ok "nowhere" = false) as H6 by reflexivity.
  split; [exact H1|]. split; [exact H2|]. split; [exact H3|]. split; [exact H4|].
  split; [exact H5|]. split; [exact H6|].
  exact (update_contact_phone_kept_when_email_refused "ann" "+1 555 0199" "nowhere" m ∅ 0
           "Ann" "+1 555 0100" "ann@example.org" H1 H2 H3 H4 H5 H6).
Defined.

Lemma update_contact_without_change_witness :
  let m := Contacts.Manager "contacts.json"
             [Contacts.contact "Ann" "+1 555 0100" "ann@example.org"] in
  let fs : FS.filesystem := {[ "contacts.json" := FS.Dir ]} in
  Contacts.find_contact_index "ann" m = Returned (Some 0) ∧
  Contacts.contacts m !! 0 = Some (Contacts.contact "Ann" "+1 555 0100" "ann@example.org") ∧
  Some "Ann" ∈ [None; Some "Ann"] ∧
  None ∈ [None; Some "+1 555 0100"] ∧
  Some "ann@example.org" ∈ [None; Some "ann@example.org"] ∧
  Contacts.update_contact "ann" (Some "Ann") None (Some "ann@example.org") m fs
  = (m, fs, Returned ()).
Proof.
  intros m fs.
  assert (Contacts.find_contact_index "ann" m = Returned (Some 0)) as H1 by reflexivity.
  assert (Contacts.contacts m !! 0
          = Some (Contacts.contact "Ann" "+1 555 0100" "ann@example.org")) as H2
      by reflexivity.
  assert (Some "Ann" ∈ [None; Some "Ann"]) as H3 by (apply list_elem_of_In; simpl; tauto).
  assert (None ∈ [None; Some "+1 555 0100"]) as H4 by (apply list_elem_of_In; simpl; tauto).
  assert (Some "ann@example.org" ∈ [None; Some "ann@example.org"]) as H5
      by (apply list_elem_of_In; simpl; tauto).
  split; [exact H1|]. split; [exact H2|]. split; [exact H3|]. split; [exact H4|].
  split; [exact H5|].
  exact (update_contact_without_change "ann" (Some "Ann") None (Some "ann@example.org") m fs 0
           "Ann" "+1 555 0100" "ann@example.org" H1 H2 H3 H4 H5).
Defined.

Lemma init_on_a_new_path_witness :
  (∅ : FS.filesystem) !! "contacts.json" = None ∧
  Contacts.init "contacts.json" ({[ "contacts.json" := FS.File EmptyString ]} : FS.filesystem)
  = Some ({[ "contacts.json" := FS.File EmptyString ]}, Raised Contacts.DatabaseError).
Proof.
  assert ((∅ : FS.filesystem) !! "contacts.json" = None) as H by reflexivity.
  split; [exact H|].
  pose proof (proj2 (init_on_a_new_path "contacts.json" ∅ H)) as H2.
  rewrite insert_empty in H2. exact H2.
Defined.

Lemma export_then_import_witness :
  let m0 := Contacts.Manager "a.json"
              [Contacts.contact "Ann" "+1 555 0100" "ann@example.org";
               Contacts.contact "ann" "+1 555 0100" "ann@example.org"] in
  let m := Contacts.Manager "b.json"
             [Contacts.contact "Bob" "+1 555 0101" "bob@example.org"] in
  let fs := (Contacts.export_contacts "out.json" m0 ∅).1 in
  Contacts.export_contacts "out.json" m0 ∅ = (fs, Returned ()) ∧
  Forall accepted_contact (Contacts.contacts m0) ∧
  Forall Spec.valid_contact (Contacts.contacts m) ∧
  (∀ key, key ∈ name_key <$> Contacts.contacts m0 → key ∉ name_key <$> Contacts.contacts m) ∧
  fs !! Contacts.db_path m ≠ Some FS.Dir ∧
  ∃ fs', Contacts.import_contacts "out.json" m fs
         = Some (Contacts.Manager "b.json" (Contacts.contacts m ++ Contacts.contacts m0),
                 fs', Returned ()).
Proof.
  intros m0 m fs.
  assert (Contacts.export_contacts "out.json" m0 ∅ = (fs, Returned ())) as H1 by reflexivity.
  assert (Forall accepted_contact (Contacts.contacts m0)) as H2
      by (repeat constructor; by do 3 eexists).
  assert (Forall Spec.valid_contact (Contacts.contacts m)) as H3
      by (repeat constructor; by do 3 eexists).
  assert (∀ key, key ∈ name_key <$> Contacts.contacts m0 →
                 key ∉ name_key <$> Contacts.contacts m) as H4.
  { intros key Hin Hin'. apply list_elem_of_In in Hin, Hin'. simpl in Hin, Hin'.
    destruct Hin' as [<-|[]]. destruct Hin as [?|[?|[]]]; discriminate. }
  assert (fs !! Contacts.db_path m ≠ Some FS.Dir) as H5 by (by vm_compute).
  split; [exact H1|]. split; [exact H2|]. split; [exact H3|]. split; [exact H4|].
  split; [exact H5|]. eexists.
  exact (export_then_import "out.json" m0 m ∅ fs H1 H2 H3 H4 H5).
Defined.


Lemma export_contacts_then_init_witness :
  let m := Contacts.Manager "b.json"
             [Contacts.contact "Bob" "+1 555 0101" "bob@example.org"] in
  Forall Spec.valid_contact (Contacts.contacts m) ∧
  (∅ : FS.filesystem) !! "out.json" ≠ Some FS.Dir ∧
  ∃ fs', Contacts.export_contacts "out.json" m ∅ = (fs', Returned ())
         ∧ (∀ p, p ≠ "out.json" → fs' !! p = (∅ : FS.filesystem) !! p)
         ∧ Contacts.init "out.json" fs'
           = Some (fs', Returned (Contacts.Manager "out.json" (Contacts.contacts m))).
Proof.
  intros m.
  assert (Forall Spec.valid_contact (Contacts.contacts m)) as H1
      by (repeat constructor; by do 3 eexists).
  assert ((∅ : FS.filesystem) !! "out.json" ≠ Some FS.Dir) as H2 by discriminate.
  split; [exact H1|]. split; [exact H2|].
  exact (proj2 (export_contacts_then_init "out.json" m ∅ H1) H2).
Defined.

Lemma email_ok_spec_witness :
  Contacts.email_ok "ann.lee@mail.example.org" = true ∧
  ∃ local left right,
    "ann.lee@mail.example.org" = local +:+ String "@" (left +:+ String "." right)
    ∧ local ≠ EmptyString ∧ left ≠ EmptyString ∧ right ≠ EmptyString
    ∧ Py.string_exists (Ascii.eqb "@") local = false
    ∧ Py.string_exists (Ascii.eqb "@") (left +:+ String "." right) = false.
Proof.
  assert (Contacts.email_ok "ann.lee@mail.example.org" = true) as H by reflexivity.
  split; [exact H|].
  exact (proj1 (email_ok_spec "ann.lee@mail.example.org") H).
Defined.

Lemma create_task_then_get_witness :
  let storage := TaskPlanner.CSVTaskStorage "tasks.csv" in
  let r0 := TaskPlanner.Repository [] (∅ : FS.filesystem) in
  let r1 := (TaskPlanner.create_task "a" "2024-01-01T10:00:00" [("title", Some "one")] r0).1 in
  let r2 := (TaskPlanner.create_task "b" "2024-01-01T11:00:00" [("title", Some "two")] r1).1 in
  "a" ≠ "b" ∧ TaskPlanner.get_task "a" r2 = TaskPlanner.get_task "a" r1.
Proof.
  intros storage r0 r1 r2.
  assert ("a" ≠ "b") as H by discriminate.
  split; [exact H|].
  exact (proj2 (proj2 (create_task_then_get "b" "2024-01-01T11:00:00" [("title", Some "two")]
                         r1)) "a" H).
Defined.

Lemma delete_task_then_get_witness :
  let storage := TaskPlanner.CSVTaskStorage "tasks.csv" in
  let r0 := TaskPlanner.Repository [] (∅ : FS.filesystem) in
  let r1 := (TaskPlanner.create_task "a" "2024-01-01T10:00:00" [("title", Some "one")] r0).1 in
  TaskPlanner.get_task "b" r1 = None ∧ (TaskPlanner.delete_task "b" r1).1 = r1.
Proof.
  intros storage r0 r1.
  assert (TaskPlanner.get_task "b" r1 = None) as H by reflexivity.
  split; [exact H|].
  exact (proj2 (proj2 (proj2 (delete_task_then_get "b" r1))) H).
Defined.

Lemma update_task_keeps_unnamed_fields_witness :
  let storage := TaskPlanner.CSVTaskStorage "tasks.csv" in
  let other := λ name : string, if String.eqb name "to_dict" then Some Py.VObject else None in
  let r0 := TaskPlanner.Repository [] (∅ : FS.filesystem) in
  let r1 := (TaskPlanner.create_task "a" "2024-01-01T10:00:00" [("title", Some "one")] r0).1 in
  let update_data := [("title", Some "uno"); ("status", Some "completed")] in
  ∃ r2 o,
    TaskPlanner.update_task other "a" "2024-01-01T12:00:00" update_data r1 = Some (r2, o) ∧
    ("id" ∉ update_data.*1) ∧
    TaskPlanner.id <$> TaskPlanner.tasks r2 = TaskPlanner.id <$> TaskPlanner.tasks r1.
Proof.
  intros storage other r0 r1 update_data.
  destruct (TaskPlanner.update_task other "a" "2024-01-01T12:00:00" update_data r1)
    as [[r2 o]|] eqn:Hu; [|discriminate Hu].
  exists r2, o.
  assert ("id" ∉ update_data.*1) as Hid.
  { intros Hin. apply list_elem_of_In in Hin. simpl in Hin.
    destruct Hin as [?|[?|[]]]; discriminate. }
  split; [reflexivity|]. split; [exact Hid|].
  exact (proj1 (proj2 (update_task_keeps_unnamed_fields other "a" "2024-01-01T12:00:00"
                         update_data r1 r2 o Hu)) Hid).
Defined.

Lemma reopen_after_mutation_witness :
  let storage := TaskPlanner.CSVTaskStorage "tasks.csv" in
  let other := λ name : string, if String.eqb name "to_dict" then Some Py.VObject else None in
  let r0 := TaskPlanner.Repository [] (∅ : FS.filesystem) in
  let task_data := [("title", Some "Buy milk, eggs"); ("due_date", Some "2099-01-01")] in
  let r1 := (TaskPlanner.create_task "a" "2024-01-01T10:00:00" task_data r0).1 in
  Forall Spec.valid_task (TaskPlanner.tasks r1) ∧
  TaskPlanner.create_task "a" "2024-01-01T10:00:00" task_data r0
  = (r1, Returned (TaskPlanner.new_task "a" "2024-01-01T10:00:00" task_data)) ∧
  TaskPlanner.init (TaskPlanner.world r1) = Returned r1.
Proof.
  intros storage other r0 task_data r1.
  assert (Forall Spec.valid_task (TaskPlanner.tasks r1)) as Hv.
  { repeat constructor. intros f. destruct f; eexists; (split; [reflexivity|]); by vm_compute. }
  assert (TaskPlanner.create_task "a" "2024-01-01T10:00:00" task_data r0
          = (r1, Returned (TaskPlanner.new_task "a" "2024-01-01T10:00:00" task_data))) as Hc
      by reflexivity.
  split; [exact Hv|]. split; [exact Hc|].
  apply (reopen_after_mutation "tasks.csv" other r0 r1 Hv).
  left. by exists "a", "2024-01-01T10:00:00", task_data,
    (TaskPlanner.new_task "a" "2024-01-01T10:00:00" task_data).
Defined.

Lemma save_tasks_failure_modes_witness :
  let fs : FS.filesystem := {[ "tasks.csv" := FS.Dir ]} in
  let result := TaskPlanner.csv_save_tasks "tasks.csv" [] fs in
  fs !! TaskPlanner.temp_file "tasks.csv" ≠ Some FS.Dir ∧
  fs !! "tasks.csv" = Some FS.Dir ∧
  result.2 = Raised TaskPlanner.TaskPlannerError ∧
  result.1 !! TaskPlanner.temp_file "tasks.csv" = Some (FS.File (TaskPlanner.csv_text [])).
Proof.
  intros fs result.
  assert (fs !! TaskPlanner.temp_file "tasks.csv" ≠ Some FS.Dir) as H1 by (by vm_compute).
  assert (fs !! "tasks.csv" = Some FS.Dir) as H2 by reflexivity.
  split; [exact H1|]. split; [exact H2|].
  destruct (proj1 (proj2 (save_tasks_failure_modes "tasks.csv" [] fs)) H1 H2) as (H3 & H4 & _).
  split; [exact H3 | exact H4].
Defined.

Lemma backup_touches_backups_only_witness :
  let fs : FS.filesystem := {[ "tasks.csv" := FS.File "id" ]} in
  let fs' := (TaskPlanner.csv_backup_tasks "tasks.csv" "20240101_120000" [] fs).1 in
  let dir : gmap string (option TodoApp.table) := {[ "todo.db" := Some [] ]} in
  TaskPlanner.is_backup "tasks.csv" "notes.txt" = false ∧
  fs' !! "notes.txt" = fs !! "notes.txt" ∧
  String.prefix (TodoApp.backup_prefix "todo.db") "todo.db" = false ∧
  ∃ dir' o, TodoApp.backup_database "todo.db" "20240101_120000" [] dir = Some (dir', o)
            ∧ dir' !! "todo.db" = dir !! "todo.db".
Proof.
  intros fs fs' dir.
  assert (TaskPlanner.is_backup "tasks.csv" "notes.txt" = false) as H by reflexivity.
  assert (String.prefix (TodoApp.backup_prefix "todo.db") "todo.db" = false) as Hp
    by reflexivity.
  split; [exact H|]. split.
  - exact (proj1 (proj1 backup_touches_backups_only "tasks.csv" "20240101_120000" [] fs)
             "notes.txt" H).
  - split; [exact Hp|].
    destruct (TodoApp.backup_database "todo.db" "20240101_120000" [] dir)
      as [[dir' o]|] eqn:Hb; [|discriminate Hb].
    exists dir', o. split; [reflexivity|].
    exact (proj1 (proj2 backup_touches_backups_only) "todo.db" "20240101_120000" [] dir
             dir' o Hb "todo.db" Hp).
Defined.

Lemma newest_backup_holds_the_data_witness :
  let t := TaskPlanner.mkTask (Some "1") (Some "Buy milk, eggs") (Some EmptyString)
             (Some "high") (Some "2099-01-01") (Some "home") (Some "t0") (Some "t0")
             (Some "pending") in
  let fs : FS.filesystem := {[ "tasks.csv.backup_20240101_120000" := FS.File "id" ]} in
  backups_are_files "tasks.csv" fs ∧
  (∀ k, k ∈ Spec.backup_names (TaskPlanner.backup_prefix "tasks.csv") fs →
        String.le k (TaskPlanner.backup_file "tasks.csv" "20240102_120000")) ∧
  Forall Spec.valid_task [t] ∧
  ∃ fs', TaskPlanner.csv_backup_tasks "tasks.csv" "20240102_120000" [t] fs = (fs', Returned ())
         ∧ TaskPlanner.csv_load_tasks (TaskPlanner.backup_file "tasks.csv" "20240102_120000") fs'
           = Returned [t].
Proof.
  intros t fs.
  assert (backups_are_files "tasks.csv" fs) as H1.
  { intros k _. unfold fs. destruct (decide (k = "tasks.csv.backup_20240101_120000")) as [->|Hne].
    - by rewrite lookup_singleton_eq.
    - by rewrite lookup_singleton_ne. }
  assert (∀ k, k ∈ Spec.backup_names (TaskPlanner.backup_prefix "tasks.csv") fs →
               String.le k (TaskPlanner.backup_file "tasks.csv" "20240102_120000")) as H2.
  { intros k [_ [v Hv]]%elem_of_names. unfold fs in Hv.
    apply lookup_singleton_Some in Hv as [<- _].
    apply (bool_decide_unpack _). vm_compute. exact I. }
  assert (Forall Spec.valid_task [t]) as H3.
  { repeat constructor. intros f. destruct f; eexists; (split; [reflexivity|]); by vm_compute. }
  split; [exact H1|]. split; [exact H2|]. split; [exact H3|].
  exact (proj1 newest_backup_holds_the_data "tasks.csv" "20240102_120000" [t] fs H1 H2 H3).
Defined.

Lemma stale_backup_is_removed_witness :
  let newer := ["tasks.csv.backup_20240102_120000"; "tasks.csv.backup_20240103_120000";
                "tasks.csv.backup_20240104_120000"; "tasks.csv.backup_20240105_120000";
                "tasks.csv.backup_20240106_120000"] in
  let fs : FS.filesystem := list_to_map ((λ k, (k, FS.File "id")) <$> newer) in
  FS.has_sep "tasks.csv" = false ∧ timestamp_text "20240101_120000" = true ∧
  backups_are_files "tasks.csv" fs ∧ backups_are_entries "tasks.csv" fs ∧
  NoDup newer ∧ length newer = TaskPlanner.MAX_BACKUP_FILES ∧
  (∀ k, k ∈ newer →
        k ∈ Spec.backup_names (TaskPlanner.backup_prefix "tasks.csv") fs
        ∧ ¬ String.le k (TaskPlanner.backup_file "tasks.csv" "20240101_120000")) ∧
  ∃ fs', TaskPlanner.csv_backup_tasks "tasks.csv" "20240101_120000" [] fs = (fs', Returned ())
         ∧ fs' !! TaskPlanner.backup_file "tasks.csv" "20240101_120000" = None.
Proof.
  intros newer fs.
  assert (FS.has_sep "tasks.csv" = false) as Hp by reflexivity.
  assert (timestamp_text "20240101_120000" = true) as Hts by reflexivity.
  assert (∀ k, is_Some (fs !! k) → k ∈ newer) as Hkeys.
  { intros k [v Hk]. apply elem_of_list_to_map_2 in Hk.
    apply list_elem_of_fmap in Hk as (k' & Heq & Hin). by simplify_eq. }
  assert (backups_are_files "tasks.csv" fs) as H1.
  { intros k _ Hk. apply elem_of_list_to_map_2 in Hk.
    apply list_elem_of_fmap in Hk as (k' & Heq & _). by simplify_eq. }
  assert (backups_are_entries "tasks.csv" fs) as He.
  { intros k _ Hk. apply Hkeys in Hk. apply list_elem_of_In in Hk. simpl in Hk.
    destruct Hk as [<-|[<-|[<-|[<-|[<-|[]]]]]]; reflexivity. }
  assert (NoDup newer) as H2 by (apply (bool_decide_unpack _); vm_compute; exact I).
  assert (length newer = TaskPlanner.MAX_BACKUP_FILES) as H3 by reflexivity.
  assert (∀ k, k ∈ newer →
               k ∈ Spec.backup_names (TaskPlanner.backup_prefix "tasks.csv") fs
               ∧ ¬ String.le k (TaskPlanner.backup_file "tasks.csv" "20240101_120000")) as H4.
  { intros k Hk. apply list_elem_of_In in Hk. simpl in Hk.
    destruct Hk as [<-|[<-|[<-|[<-|[<-|[]]]]]].
    all: split; [apply elem_of_names; split; [reflexivity|];
                 eexists; apply elem_of_list_to_map_1;
                 [apply (bool_decide_unpack _); vm_compute; exact I
                 |apply list_elem_of_In; simpl; tauto]
                |apply (bool_decide_unpack _); vm_compute; exact I]. }
  split; [exact Hp|]. split; [exact Hts|]. split; [exact H1|]. split; [exact He|].
  split; [exact H2|]. split; [exact H3|]. split; [exact H4|].
  exact (proj1 stale_backup_is_removed "tasks.csv" "20240101_120000" [] fs newer
           Hp Hts H1 He H2 H3 H4).
Defined.

Lemma table_constraints_kept_witness :
  let db := (TodoApp.create_task "a" "2024-01-01T10:00:00" [("title", Some "one")] []).1 in
  table_ok db ∧
  table_ok (TodoApp.update_task "a" "2024-01-01T12:00:00"
              [("id", Some "b"); ("status", Some "completed")] db).1 ∧
  TodoApp.id <$> (TodoApp.update_task "a" "2024-01-01T12:00:00"
                    [("id", Some "b"); ("status", Some "completed")] db).1
  = TodoApp.id <$> db.
Proof.
  intros db.
  assert (table_ok db) as H.
  { split; [repeat constructor; by eexists|].
    apply (bool_decide_unpack _). vm_compute. exact I. }
  split; [exact H|].
  destruct (proj1 (proj2 (table_constraints_kept db H)) "a" "2024-01-01T12:00:00"
              [("id", Some "b"); ("status", Some "completed")]) as (H1 & H2 & _).
  split; [exact H1 | exact H2].
Defined.

Lemma get_all_tasks_newest_first_witness :
  let db := (TodoApp.create_task "a" "2024-01-01T10:00:00" [("title", Some "one")] []).1 in
  let filters := [("title", Some EmptyString); ("due_date", Some "2024-01-01")] in
  (∀ name value, (name, value) ∈ filters →
     Py.truthy value = false
     ∨ name ∉ ["title"; "description"; "category"; "status"; "priority"]) ∧
  TodoApp.search_tasks filters db = Some (TodoApp.get_all_tasks db).
Proof.
  intros db filters.
  assert (∀ name value, (name, value) ∈ filters →
            Py.truthy value = false
            ∨ name ∉ ["title"; "description"; "category"; "status"; "priority"]) as H.
  { intros name value Hin. apply list_elem_of_In in Hin. simpl in Hin.
    destruct Hin as [[= <- <-]|[[= <- <-]|[]]]; [by left|right].
    intros Hin. apply list_elem_of_In in Hin. simpl in Hin.
    destruct Hin as [?|[?|[?|[?|[?|[]]]]]]; discriminate. }
  split; [exact H|].
  exact (proj2 (proj2 (get_all_tasks_newest_first db)) filters H).
Defined.

Lemma db_create_then_get_witness :
  let t := TodoApp.new_task "a" "2024-01-01T10:00:00" [("title", Some "one")] in
  TodoApp.create_task "a" "2024-01-01T10:00:00" [("title", Some "one")] [] = ([t], Returned t) ∧
  TodoApp.get_task "a" [t] = Some t.
Proof.
  intros t.
  assert (TodoApp.create_task "a" "2024-01-01T10:00:00" [("title", Some "one")] []
          = ([t], Returned t)) as H by reflexivity.
  split; [exact H|].
  exact (proj1 (proj2 (db_create_then_get "a" "2024-01-01T10:00:00" [("title", Some "one")]
                         [] [t] t H))).
Defined.

Lemma db_delete_then_get_witness :
  let t := TodoApp.new_task "a" "2024-01-01T10:00:00" [("title", Some "one")] in
  TodoApp.get_task "b" [t] = None ∧ (TodoApp.delete_task "b" [t]).1 = [t].
Proof.
  intros t.
  assert (TodoApp.get_task "b" [t] = None) as H by reflexivity.
  split; [exact H|].
  exact (proj2 (proj2 (proj2 (db_delete_then_get "b" [t]))) H).
Defined.



Lemma todo_add_task_stores_the_row_witness :
  let c := Console.Console ["Buy milk"; EmptyString; "HIGH"; EmptyString; "home"] EmptyString in
  let task_data := [("title", Some "Buy milk"); ("description", Some EmptyString);
                    ("priority", Some "high"); ("due_date", None);
                    ("category", Some "home")] in
  (Some "a" ∉ TodoApp.id <$> ([] : TodoApp.table)) ∧
  (TodoManager.ask_task_data
     (Console.print (Console.newline +:+ "Add New Task") c)).2 = Returned task_data ∧
  (TodoManager.add_task "a" "2024-01-01T10:00:00" [] c).1
  = [TodoApp.new_task "a" "2024-01-01T10:00:00" task_data].
Proof.
  intros c task_data.
  assert (Some "a" ∉ TodoApp.id <$> ([] : TodoApp.table)) as H by apply not_elem_of_nil.
  assert ((TodoManager.ask_task_data
             (Console.print (Console.newline +:+ "Add New Task") c)).2 = Returned task_data)
    as Hask by reflexivity.
  split; [exact H|]. split; [exact Hask|].
  pose proof (todo_add_task_stores_the_row "a" "2024-01-01T10:00:00" [] c H) as Hadd.
  destruct (TodoManager.ask_task_data (Console.print (Console.newline +:+ "Add New Task") c))
    as [c1 [data|e]]; [|discriminate Hask].
  injection Hask as ->. exact (proj2 Hadd).
Defined.

Lemma planner_add_task_is_valid_witness :
  let storage := TaskPlanner.CSVTaskStorage "tasks.csv" in
  let today := λ _ : nat, Strptime.Date 2024 6 15 in
  let c := Console.Console ["Buy milk"; EmptyString; "high"; "2024-06-15"; "home"; EmptyString]
             EmptyString in
  let r := TaskPlanner.Repository [] (∅ : FS.filesystem) in
  let task_data := [("title", Some "Buy milk"); ("description", Some EmptyString);
                    ("priority", Some "high"); ("due_date", Some "2024-06-15");
                    ("category", Some "home"); ("status", Some "pending")] in
  (TaskManager.ask_task_data today
     (Console.print (Console.newline +:+ "Add New Task") c)).2 = Returned task_data ∧
  within_limit (String.length "a") ∧
  within_limit (String.length "2024-06-15T10:00:00") ∧
  Spec.valid_task (TaskPlanner.new_task "a" "2024-06-15T10:00:00" task_data).
Proof.
  intros storage today c r task_data.
  assert ((TaskManager.ask_task_data today
             (Console.print (Console.newline +:+ "Add New Task") c)).2 = Returned task_data)
    as Hask by reflexivity.
  assert (within_limit (String.length "a")) as H1 by (by vm_compute).
  assert (within_limit (String.length "2024-06-15T10:00:00")) as H2 by (by vm_compute).
  split; [exact Hask|]. split; [exact H1|]. split; [exact H2|].
  pose proof (planner_add_task_is_valid today "a" "2024-06-15T10:00:00" r c) as Hadd.
  destruct (TaskManager.ask_task_data today
              (Console.print (Console.newline +:+ "Add New Task") c))
    as [c1 [data|e]]; [|discriminate Hask].
  injection Hask as ->. exact (proj1 (proj2 Hadd) H1 H2).
Defined.

Lemma console_update_blank_answers_witness :
  let storage := TaskPlanner.CSVTaskStorage "tasks.csv" in
  let other := λ name : string, if String.eqb name "to_dict" then Some Py.VObject else None in
  let today := λ _ : nat, Strptime.Date 2024 6 15 in
  let task := TaskPlanner.mkTask (Some "a") (Some "Buy milk") (Some EmptyString)
                (Some "high") (Some "2024-06-01") (Some "home")
                (Some "2024-05-01T10:00:00") (Some "2024-05-01T10:00:00") (Some "pending") in
  let r := TaskPlanner.Repository [task] (∅ : FS.filesystem) in
  let blanks := [EmptyString; " "; EmptyString; EmptyString; EmptyString; EmptyString] in
  let c := Console.Console (" a " :: blanks ++ ["7"]) EmptyString in
  Forall (λ answer, Py.strip answer = EmptyString) blanks ∧
  TaskPlanner.get_task (Py.strip " a ") r = Some task ∧
  ∃ r' c',
    TaskManager.update_task other today "2024-06-15T10:00:00" r c = Some (r', c') ∧
    TaskPlanner.tasks r'
    = [TaskPlanner.setfield task TaskPlanner.UPDATED_AT (Some "2024-06-15T10:00:00")] ∧
    Console.stdin c' = ["7"].
Proof.
  intros storage other today task r blanks c.
  assert (Forall (λ answer, Py.strip answer = EmptyString) blanks) as Hb
    by (repeat constructor).
  assert (TaskPlanner.get_task (Py.strip " a ") r = Some task) as Hget by reflexivity.
  split; [exact Hb|]. split; [exact Hget|].
  exact (console_update_blank_answers other today "2024-06-15T10:00:00" r c " a " blanks ["7"]
           task eq_refl eq_refl Hb Hget).
Defined.
